(** * URL-Feed backend: a shallow embedding of [backend/app.py]

    The development follows the Python module:

    - [Score]      : [calculate_health_score] and its tier table;
    - [PyStr], [Py]: the text primitives, exceptions and call results the
                     module relies on;
    - [RateLimit]  : [GeminiRateLimiter] and the decorator
                     [rate_limited_gemini_call];
    - [Site], [Cache] : the decorator [cached_function] and the caching
                     skeleton of [extract_website_content];
    - [Dimension]  : [is_large_dimension];
    - [Json], [Report] : [parse_json_from_response],
                     [create_default_response] and [analyze_website];
    - [Sessions]   : [get_session_id], [cleanup_old_sessions] and the
                     session handling of [home];
    - [Traffic]    : sequences of rate limiter operations;
    - [Format]     : [format_response];
    - [Chat]       : [chat_interaction].

    Modelling choices.  Python integers are unbounded and are modelled by
    [Z]; [//] on a positive divisor is [Z.div].  The integers of the
    program come from [json.loads] and have at most 4300 digits, the most
    that [int], [str] and [print] convert by default: the [ValueError] of
    a longer conversion is modelled where a text is read as an integer
    ([Dimension.py_int]), and the messages the program prints are not
    modelled.  Text is modelled by [string] (a sequence of bytes): the
    embedding is exact on ASCII text, bytes above 127 are treated as
    printable characters that are neither digits, nor letters, nor white
    space.  Readings of [time.time()] are integers, in seconds: the
    rounding of floating-point readings is not modelled.  Calls are taken
    one at a time; what the network, the model and the clock answer is an
    argument of each call. *)

From Stdlib Require Import ZArith QArith Lia Bool List String Ascii Sorted.
From Stdlib Require DecimalString.
From stdpp Require Import gmap strings.

Local Open Scope Z_scope.

#[local] Arguments String.append !_ _ / : simpl nomatch.

(** ** Health score *)

Module Score.

Record health_score := HealthScore {
  value : Z;
  category : string;
  description : string
}.

(** The [if]/[elif] chain that closes [calculate_health_score]. *)
Definition tier (overall_score : Z) : string * string :=
  if 90 <=? overall_score then
    ("Excellent",
     "Your website is optimized for conversions with only minor improvements needed.")
  else if 80 <=? overall_score then
    ("Very Good",
     "Your website performs well but has some opportunities for improvement.")
  else if 70 <=? overall_score then
    ("Good",
     "Your website has a solid foundation but several areas need attention.")
  else if 60 <=? overall_score then
    ("Needs Improvement",
     "Your website has some issues that may be impacting conversions.")
  else if 50 <=? overall_score then
    ("Poor",
     "Your website has significant conversion issues that need attention.")
  else
    ("Critical",
     "Your website has critical issues that are severely limiting conversions.").

(** First adjustment: bonus for reputable domains. *)
Definition reputation_bonus (overall_score : Z) : Z :=
  Z.min 10 (Z.max 5 (overall_score / 10)).

Definition adjust_reputable (overall_score : Z) (is_reputable : bool) : Z :=
  if is_reputable
  then Z.min 100 (overall_score + reputation_bonus overall_score)
  else overall_score.

(** Second adjustment: bonus for optimization indicators. *)
Definition adjust_optimization (overall_score optimization_indicators : Z) : Z :=
  if 0 <? optimization_indicators
  then Z.min 100 (overall_score + Z.min 5 optimization_indicators)
  else overall_score.

Definition adjusted_score (overall_score : Z) (is_reputable : bool)
    (optimization_indicators : Z) : Z :=
  adjust_optimization (adjust_reputable overall_score is_reputable)
                      optimization_indicators.

Definition calculate_health_score (overall_score : Z) (is_reputable : bool)
    (optimization_indicators : Z) : health_score :=
  let overall_score :=
    adjusted_score overall_score is_reputable optimization_indicators in
  let '(category, description) := tier overall_score in
  HealthScore overall_score category description.

End Score.

(** ** Python text primitives used by the module *)

Module PyStr.

Definition code (c : ascii) : N := N_of_ascii c.

(** [c.isdigit()] on ASCII. *)
Definition is_digit (c : ascii) : bool :=
  ((48 <=? code c) && (code c <=? 57))%N.

(** White space as seen by [str.isspace], [str.strip] and the regular
    expression class [\s]: TAB..CR, FS..US and the blank. *)
Definition is_space (c : ascii) : bool :=
  (((9 <=? code c) && (code c <=? 13)) || ((28 <=? code c) && (code c <=? 32)))%N.

Definition lower_char (c : ascii) : ascii :=
  if ((65 <=? code c) && (code c <=? 90))%N
  then ascii_of_N (code c + 32) else c.

(** [s.lower()] *)
Fixpoint lower (s : string) : string :=
  match s with
  | EmptyString => EmptyString
  | String c s' => String (lower_char c) (lower s')
  end.

Fixpoint all_chars (p : ascii -> bool) (s : string) : bool :=
  match s with
  | EmptyString => true
  | String c s' => p c && all_chars p s'
  end.

Fixpoint filter_chars (p : ascii -> bool) (s : string) : string :=
  match s with
  | EmptyString => EmptyString
  | String c s' => if p c then String c (filter_chars p s') else filter_chars p s'
  end.

(** [s.isdigit()]: non-empty and made of digits only. *)
Definition isdigit (s : string) : bool :=
  match s with
  | EmptyString => false
  | String _ _ => all_chars is_digit s
  end.

(** [s.startswith(p)] *)
Fixpoint starts_with (p s : string) : bool :=
  match p with
  | EmptyString => true
  | String a p' =>
      match s with
      | EmptyString => false
      | String b s' => Ascii.eqb a b && starts_with p' s'
      end
  end.

(** [sub in s] *)
Fixpoint contains (sub s : string) : bool :=
  match s with
  | EmptyString => starts_with sub EmptyString
  | String _ s' => starts_with sub s || contains sub s'
  end.

Fixpoint drop (n : nat) (s : string) : string :=
  match n with
  | O => s
  | S n' => match s with EmptyString => EmptyString | String _ s' => drop n' s' end
  end.

Fixpoint take (n : nat) (s : string) : string :=
  match n with
  | O => EmptyString
  | S n' =>
      match s with
      | EmptyString => EmptyString
      | String c s' => String c (take n' s')
      end
  end.

(** [s.find(sub)], [None] standing for -1. *)
Fixpoint find (sub s : string) : option nat :=
  if starts_with sub s then Some O
  else match s with
       | EmptyString => None
       | String _ s' => option_map S (find sub s')
       end.

(** [s.replace(old, new)] for a non-empty [old]: non-overlapping
    occurrences are replaced from left to right. *)
Fixpoint replace_from (old new : string) (skip : nat) (s : string) : string :=
  match s with
  | EmptyString => EmptyString
  | String c s' =>
      match skip with
      | S k => replace_from old new k s'
      | O =>
          if starts_with old s
          then new +:+ replace_from old new (String.length old - 1) s'
          else String c (replace_from old new 0 s')
      end
  end.

Definition replace (old new s : string) : string := replace_from old new 0 s.

(** [s.lstrip()], [s.rstrip()], [s.strip()] *)
Fixpoint lstrip (s : string) : string :=
  match s with
  | EmptyString => EmptyString
  | String c s' => if is_space c then lstrip s' else s
  end.

Fixpoint rstrip (s : string) : string :=
  match s with
  | EmptyString => EmptyString
  | String c s' =>
      match rstrip s' with
      | EmptyString => if is_space c then EmptyString else String c EmptyString
      | r => String c r
      end
  end.

Definition strip (s : string) : string := rstrip (lstrip s).

Definition squote : ascii := ascii_of_N 39.
Definition dquote : ascii := ascii_of_N 34.
Definition backslash : ascii := ascii_of_N 92.

(** [c in s] for a character. *)
Fixpoint mem_char (c : ascii) (s : string) : bool :=
  match s with
  | EmptyString => false
  | String a s' => Ascii.eqb a c || mem_char c s'
  end.

(** Longest prefix made of digits, and the rest. *)
Fixpoint span_digits (s : string) : string * string :=
  match s with
  | EmptyString => (EmptyString, EmptyString)
  | String c s' =>
      if is_digit c
      then let '(d, rest) := span_digits s' in (String c d, rest)
      else (EmptyString, s)
  end.

(** The number written by a string of digits, after the digits counted
    in [acc]. *)
Fixpoint digits_value (acc : N) (s : string) : N :=
  match s with
  | EmptyString => acc
  | String c s' => digits_value (10 * acc + (code c - 48)) s'
  end.

End PyStr.

(** ** Exceptions and results of calls *)

Module Py.

(** What the decorators look at in an exception: its text [str(e)] and
    its optional attribute [retry_delay]. *)
Inductive retry_attr :=
| NoRetryDelay                      (* [hasattr(e, 'retry_delay')] is false *)
| RetryDelaySeconds (seconds : Z)   (* [e.retry_delay.seconds] *)
| RetryDelayBroken.                 (* reading [e.retry_delay.seconds] raises *)

Record exn := Exn { exn_str : string; exn_retry_delay : retry_attr }.

Inductive outcome (A : Type) :=
| Return (a : A)
| Raise (e : exn).
Arguments Return {A} a.
Arguments Raise {A} e.

Definition IndexError : exn := Exn "list index out of range" NoRetryDelay.

End Py.

(** ** Rate limiter and the decorator [rate_limited_gemini_call] *)

Module RateLimit.
Import Py.

(** Time is the reading of [time.time()], in seconds.  The clock also keeps
    the durations handed to [time.sleep], in order. *)
Record clock := Clock { now : Z; slept : list Z }.

(** [time.sleep(d)] *)
Definition sleep (d : Z) (c : clock) : clock :=
  Clock (now c + d) (slept c ++ [d]).

(** Time passing without the limiter being involved. *)
Definition elapse (dt : N) (c : clock) : clock :=
  Clock (now c + Z.of_N dt) (slept c).

Record GeminiRateLimiter := Limiter {
  max_requests : Z;
  per_minute : Z;
  request_timestamps : list Z;
  last_retry_time : Z;
  retry_delay : Z
}.

(** [GeminiRateLimiter.__init__] *)
Definition init (max_requests per_minute : Z) : GeminiRateLimiter :=
  Limiter max_requests per_minute [] 0 0.

(** [GeminiRateLimiter()] with the default arguments. *)
Definition default_limiter : GeminiRateLimiter := init 60 1.

Definition set_timestamps (self : GeminiRateLimiter) (l : list Z)
  : GeminiRateLimiter :=
  Limiter (max_requests self) (per_minute self) l
          (last_retry_time self) (retry_delay self).

(** First statement of [wait_if_needed]: sleep until the deadline left by a
    previous rate limit error, if it lies ahead of [current_time]. *)
Definition honor_retry_delay (self : GeminiRateLimiter) (current_time : Z)
    (c : clock) : clock :=
  if current_time <? last_retry_time self + retry_delay self
  then sleep ((last_retry_time self + retry_delay self) - current_time) c
  else c.

(** The list comprehension that drops old request timestamps. *)
Definition prune (self : GeminiRateLimiter) (current_time : Z) : list Z :=
  List.filter (fun ts => current_time - ts <? per_minute self * 60)
              (request_timestamps self).

(** Rest of [wait_if_needed]: prune, wait while the window is full, record
    the request.  [request_timestamps[0]] on an empty list raises. *)
Definition throttle (self : GeminiRateLimiter) (current_time : Z) (c : clock)
  : outcome unit * GeminiRateLimiter * clock :=
  let kept := prune self current_time in
  if max_requests self <=? Z.of_nat (length kept) then
    match kept with
    | [] => (Raise IndexError, set_timestamps self kept, c)
    | oldest_request :: _ =>
        let wait_time := per_minute self * 60 - (current_time - oldest_request) in
        (Return tt, set_timestamps self (kept ++ [current_time]), sleep wait_time c)
    end
  else (Return tt, set_timestamps self (kept ++ [current_time]), c).

(** [GeminiRateLimiter.wait_if_needed]; [current_time] is read once. *)
Definition wait_if_needed (self : GeminiRateLimiter) (c : clock)
  : outcome unit * GeminiRateLimiter * clock :=
  let current_time := now c in
  throttle self current_time (honor_retry_delay self current_time c).

(** [GeminiRateLimiter.handle_rate_limit_error] *)
Definition handle_rate_limit_error (self : GeminiRateLimiter) (error : exn)
    (c : clock) : GeminiRateLimiter :=
  let retry_delay :=
    match exn_retry_delay error with
    | RetryDelaySeconds seconds => seconds
    | NoRetryDelay => 30
    | RetryDelayBroken => 30
    end in
  Limiter (max_requests self) (per_minute self) (request_timestamps self)
          (now c) retry_delay.

(** The test of the [except] clause:
    ['quota' in str(e).lower() or '429' in str(e)]. *)
Definition is_rate_limit_error (e : exn) : bool :=
  PyStr.contains "quota" (PyStr.lower (exn_str e))
  || PyStr.contains "429" (exn_str e).

(** Number of recorded timestamps inside the window that trails [t]. *)
Definition in_window (self : GeminiRateLimiter) (t : Z) : list Z :=
  List.filter (fun ts => t - ts <? per_minute self * 60)
              (request_timestamps self).

(** Operations on a limiter and its clock, for sequences of calls. *)
Inductive op :=
| Acquire                       (* [wait_if_needed()] *)
| Elapse (dt : N)               (* time passes *)
| RateLimited (error : exn).    (* [handle_rate_limit_error(error)] *)

Definition run_op (o : op) (st : GeminiRateLimiter * clock)
  : outcome (GeminiRateLimiter * clock) :=
  let '(self, c) := st in
  match o with
  | Acquire =>
      match wait_if_needed self c with
      | (Return _, self', c') => Return (self', c')
      | (Raise e, _, _) => Raise e
      end
  | Elapse dt => Return (self, elapse dt c)
  | RateLimited error => Return (handle_rate_limit_error self error c, c)
  end.

Fixpoint run (ops : list op) (st : GeminiRateLimiter * clock)
  : outcome (GeminiRateLimiter * clock) :=
  match ops with
  | [] => Return st
  | o :: ops' =>
      match run_op o st with
      | Return st' => run ops' st'
      | Raise e => Raise e
      end
  end.

(** The invariant of the limiter: its configuration, and at most [Q]
    recorded timestamps inside the window that trails the clock. *)
Definition quota_inv (Q P : Z) (st : GeminiRateLimiter * clock) : Prop :=
  max_requests (fst st) = Q /\ per_minute (fst st) = P
  /\ Z.of_nat (length (in_window (fst st) (now (snd st)))) <= Q.

(** *** The decorator

    [func] is the decorated function.  It acts on the rest of the program
    state [S]; a call returns or raises and takes some time. *)
Section Wrapper.
Context {S A : Type}.
Variable func : S -> outcome A * S * N.

Record world := World {
  limiter : GeminiRateLimiter;   (* the [rate_limiter] of the closure *)
  clk : clock;
  calls : nat;                   (* invocations of [func] so far *)
  app : S
}.

(** The call [func(...)] of the decorated function. *)
Definition invoke (w : world) : outcome A * world :=
  let '(r, s', dt) := func (app w) in
  (r, World (limiter w) (elapse dt (clk w)) (Datatypes.S (calls w)) s').

(** [rate_limiter.wait_if_needed()] inside the wrapper. *)
Definition acquire (w : world) : outcome unit * world :=
  let '(r, self', c') := wait_if_needed (limiter w) (clk w) in
  (r, World self' c' (calls w) (app w)).

(** The [except Exception as e] clause. *)
Definition on_exception (e : exn) (w : world) : outcome A * world :=
  if is_rate_limit_error e then
    let w1 := World (handle_rate_limit_error (limiter w) e (clk w))
                    (clk w) (calls w) (app w) in
    match acquire w1 with
    | (Return _, w2) => invoke w2
    | (Raise e', w2) => (Raise e', w2)
    end
  else (Raise e, w).

(** The [wrapper] returned by the decorator. *)
Definition wrapper (w : world) : outcome A * world :=
  match acquire w with
  | (Raise e, w1) => on_exception e w1
  | (Return _, w1) =>
      match invoke w1 with
      | (Return a, w2) => (Return a, w2)
      | (Raise e, w2) => on_exception e w2
      end
  end.

End Wrapper.

(** A call that always fails with a quota error and takes two seconds, and
    a world in which nothing has happened yet. *)
Definition exhausted_call (s : unit) : outcome nat * unit * N :=
  (Raise (Exn "429 Resource has been exhausted" NoRetryDelay), s, 2%N).

Definition start_world : world (S:=unit) :=
  World default_limiter (Clock 0 []) 0 tt.

End RateLimit.

(** ** Page signals *)

Module Site.

(** The signals computed from the parsed page by the body of
    [extract_website_content]. *)
Record page_signals := PageSignals {
  title : option string;
  meta_description : string;
  keywords : string;
  text_content : string;
  ctas_count : nat;
  forms_count : nat;
  nav_elements_count : nat;
  testimonials_count : nat;
  footer_elements_count : nat;
  scripts_count : nat;
  async_scripts_count : nat;
  defer_scripts_count : nat;
  images_count : nat;
  lazy_loaded_images_count : nat;
  large_images_count : nat;
  has_responsive_meta : bool;
  responsive_meta_content : string;
  media_queries_count : nat;
  has_manifest : bool;
  has_service_worker : bool;
  aria_attributes_count : nat;
  is_reputable_domain : bool
}.

(** The dictionary [website_data]: the URL and the signals. *)
Record website_data := WebsiteData {
  url : string;
  signals : page_signals
}.

End Site.

(** ** Caching of extracted pages *)

Module Cache.
Import Py PyStr Site.

Definition hex_digit (n : N) : ascii :=
  if (n <? 10)%N then ascii_of_N (48 + n) else ascii_of_N (87 + n).

(** Quote chosen by [repr] of a [str]: double quotes exactly when the text
    has a single quote and no double quote. *)
Definition repr_quote (s : string) : ascii :=
  if mem_char squote s && negb (mem_char dquote s) then dquote else squote.

(** How [repr] writes one character inside the quotes. *)
Definition repr_char (quote c : ascii) : string :=
  if Ascii.eqb c quote || Ascii.eqb c backslash then
    String backslash (String c EmptyString)
  else if (PyStr.code c =? 9)%N then String backslash "t"
  else if (PyStr.code c =? 10)%N then String backslash "n"
  else if (PyStr.code c =? 13)%N then String backslash "r"
  else if ((PyStr.code c <? 32) || (PyStr.code c =? 127))%N then
    String backslash
      (String "x"
         (String (hex_digit (PyStr.code c / 16))
            (String (hex_digit (PyStr.code c mod 16)) EmptyString)))
  else String c EmptyString.

Fixpoint repr_body (quote : ascii) (s : string) : string :=
  match s with
  | EmptyString => EmptyString
  | String c s' => repr_char quote c +:+ repr_body quote s'
  end.

(** [repr(s)] for a [str]. *)
Definition repr (s : string) : string :=
  String (repr_quote s) (repr_body (repr_quote s) s +:+ String (repr_quote s) EmptyString).

(** Reading back one character written by [repr_char]; [unhex] reads a
    hexadecimal digit. *)
Definition unhex (c : ascii) : N :=
  if PyStr.is_digit c then PyStr.code c - 48 else PyStr.code c - 87.

Definition read_char (s : string) : option (ascii * string) :=
  match s with
  | EmptyString => None
  | String a r =>
      if Ascii.eqb a backslash then
        match r with
        | EmptyString => None
        | String b r' =>
            if Ascii.eqb b "t" then Some (ascii_of_N 9, r')
            else if Ascii.eqb b "n" then Some (ascii_of_N 10, r')
            else if Ascii.eqb b "r" then Some (ascii_of_N 13, r')
            else if Ascii.eqb b "x" then
              match r' with
              | String h (String l r'') =>
                  Some (ascii_of_N (16 * unhex h + unhex l), r'')
              | _ => None
              end
            else Some (b, r')
        end
      else Some (a, r)
  end.

(** [key = str(args) + str(kwargs)] for a call with one positional [str]
    argument and no keyword argument, the way [extract_website_content]
    is called: [str((url,)) + str({})]. *)
Definition cache_key (url : string) : string :=
  ("(" +:+ repr url +:+ ",)") +:+ "{}".

(** *** The decorator [cached_function]

    [func] acts on the rest of the program state [St].  The two readings
    of [time.time()], the one of the expiry test and the one taken when the
    result is stored, are arguments of the call. *)
Section CachedFunction.
Context {St Res : Type}.
Variable expiry_seconds : Z.
Variable func : string -> St -> Res * St.

Definition cached_function (t_check t_store : Z) (arg : string)
    (cache : gmap string (Res * Z)) (st : St)
  : Res * gmap string (Res * Z) * St :=
  let key := cache_key arg in
  let run_and_store :=
    let '(result, st') := func arg st in
    (result, <[key := (result, t_store)]> cache, st') in
  match cache !! key with
  | Some (result, timestamp) =>
      if t_check - timestamp <? expiry_seconds
      then (result, cache, st)
      else run_and_store
  | None => run_and_store
  end.

End CachedFunction.

(** First component of the pair returned by [extract_website_content]. *)
Inductive page :=
| Signals (website_data : website_data)
| ErrorData (error url : string).     (* [{'error': ..., 'url': ...}] *)

Definition result : Type := page * bool.

(** State below the decorator: the module-level [website_content_cache]
    and the list of URLs requested from the network so far. *)
Record store := Store {
  website_content_cache : gmap string website_data;
  fetched : list string
}.

(** [net url] is the outcome of [requests.get] followed by the parsing and
    the signal extraction: the signals, or the exception raised on the
    way (network error, status error, parse error). *)
Definition network : Type := string -> outcome page_signals.

(** Body of [extract_website_content], below the decorator. *)
Definition extract_body (net : network) (url : string) (st : store)
  : result * store :=
  match website_content_cache st !! url with
  | Some website_data => ((Signals website_data, true), st)
  | None =>
      let fetched' := (fetched st ++ [url])%list in
      match net url with
      | Return signals =>
          let website_data := WebsiteData url signals in
          ((Signals website_data, true),
           Store (<[url := website_data]> (website_content_cache st)) fetched')
      | Raise e =>
          ((ErrorData (exn_str e) url, false),
           Store (website_content_cache st) fetched')
      end
  end.

(** Whole state of the cached function: the dictionary [cache] of the
    decorator's closure and the store below. *)
Record state := State {
  cache : gmap string (result * Z);
  inner : store
}.

(** [extract_website_content], decorated with
    [@cached_function(expiry_seconds=600)]. *)
Definition extract_website_content (net : network) (t_check t_store : Z)
    (url : string) (s : state) : result * state :=
  let '(r, cache', st') :=
    cached_function 600 (extract_body net) t_check t_store url
                    (cache s) (inner s) in
  (r, State cache' st').

Definition empty_state : state := State ∅ (Store ∅ []).

(** A call of [extract_website_content] with its environment. *)
Record call := Call {
  call_net : network;
  call_t_check : Z;
  call_t_store : Z;
  call_url : string
}.

Definition do_call (c : call) (s : state) : result * state :=
  extract_website_content (call_net c) (call_t_check c) (call_t_store c)
                          (call_url c) s.

(** State after a history of calls, oldest first. *)
Fixpoint after (history : list call) (s : state) : state :=
  match history with
  | [] => s
  | c :: history' => after history' (snd (do_call c s))
  end.

(** Entries of the decorator's dictionary agree with the store below:
    a stored success is the page of [website_content_cache], a stored
    failure belongs to a URL that [website_content_cache] does not hold. *)
Definition consistent (s : state) : Prop :=
  forall url r ts,
    cache s !! cache_key url = Some (r, ts) ->
    (snd r = true ->
       exists d, r = (Signals d, true)
                 /\ website_content_cache (inner s) !! url = Some d)
    /\ (snd r = false ->
       (exists msg, r = (ErrorData msg url, false))
       /\ website_content_cache (inner s) !! url = None).

(** A call that runs the body: no entry for the URL, or an expired one. *)
Definition is_miss (t_check : Z) (url : string) (s : state) : Prop :=
  cache s !! cache_key url = None
  \/ exists r ts, cache s !! cache_key url = Some (r, ts) /\ 600 <= t_check - ts.

(** Sample environments. *)
Definition blank_signals : page_signals :=
  PageSignals (Some "Example Domain") "" "" "Example Domain" 0 0 0 0 0 0 0 0
              0 0 0 false "" 0 false false 0 false.

Definition net_down : network :=
  fun _ => Raise (Exn "503 Server Error: Service Unavailable" NoRetryDelay).

Definition net_up : network := fun _ => Return blank_signals.

End Cache.

(** ** Large image dimensions *)

Module Dimension.
Import PyStr.

(** The number a string of ASCII digits denotes. *)
Definition int_of_digits (s : string) : Z := Z.of_N (digits_value 0 s).

(** [int(s)] on a string of ASCII digits: the conversion raises
    [ValueError], here [None], when the text has more digits than
    [sys.get_int_max_str_digits()], which is 4300 unless the interpreter
    is told otherwise; leading zeros count. *)
Definition int_max_str_digits : Z := 4300.

Definition py_int (s : string) : option Z :=
  if Z.of_nat (String.length s) <=? int_max_str_digits
  then Some (int_of_digits s)
  else None.

(** *** [float(s)]

    The value denoted by the text, before rounding to a double:
    [FDec neg m e] stands for [(-1)^neg * m * 10^e]. *)
Inductive pyfloat :=
| FNan
| FInf (negative : bool)
| FDec (negative : bool) (mantissa : N) (exp10 : Z).

Definition parse_sign (s : string) : bool * string :=
  match s with
  | String c s' =>
      if Ascii.eqb c "-" then (true, s')
      else if Ascii.eqb c "+" then (false, s')
      else (false, s)
  | EmptyString => (false, s)
  end.

(** What follows the mantissa: nothing, or [e], an optional sign and at
    least one digit, up to the end of the text. *)
Definition parse_exponent (s : string) : option Z :=
  match s with
  | EmptyString => Some 0
  | String c s' =>
      if Ascii.eqb c "e" || Ascii.eqb c "E" then
        let '(neg, s1) := parse_sign s' in
        let '(d, rest) := span_digits s1 in
        match d, rest with
        | String _ _, EmptyString =>
            Some (if neg then - int_of_digits d else int_of_digits d)
        | _, _ => None
        end
      else None
  end.

(** Digits with an optional point, at least one digit, then the exponent. *)
Definition parse_decimal (s : string) : option (N * Z) :=
  let '(ip, r1) := span_digits s in
  let '(fp, r2) :=
    match r1 with
    | String c r => if Ascii.eqb c "." then span_digits r else (EmptyString, r1)
    | EmptyString => (EmptyString, r1)
    end in
  match ip +:+ fp with
  | EmptyString => None
  | String _ _ =>
      match parse_exponent r2 with
      | Some e => Some (digits_value 0 (ip +:+ fp), e - Z.of_nat (String.length fp))
      | None => None
      end
  end.

(** Underscores are accepted between two digits only, and dropped. *)
Fixpoint drop_underscores (prev : ascii) (s : string) : option string :=
  match s with
  | EmptyString => if Ascii.eqb prev "_" then None else Some EmptyString
  | String c s' =>
      if Ascii.eqb c "_" then
        if is_digit prev then drop_underscores c s' else None
      else if Ascii.eqb prev "_" && negb (is_digit c) then None
      else option_map (String c) (drop_underscores c s')
  end.

(** The white space [float] skips at both ends of an ASCII text: the
    blank and TAB to CR.  The separators 0x1c to 0x1f, which [str.strip]
    removes, are not skipped. *)
Definition is_float_space (c : ascii) : bool :=
  ((code c =? 32) || ((9 <=? code c) && (code c <=? 13)))%N.

Fixpoint lstrip_float (s : string) : string :=
  match s with
  | EmptyString => EmptyString
  | String c s' => if is_float_space c then lstrip_float s' else s
  end.

Fixpoint rstrip_float (s : string) : string :=
  match s with
  | EmptyString => EmptyString
  | String c s' =>
      match rstrip_float s' with
      | EmptyString =>
          if is_float_space c then EmptyString else String c EmptyString
      | r => String c r
      end
  end.

Definition strip_float (s : string) : string := rstrip_float (lstrip_float s).

(** [float(s)], [None] standing for [ValueError]. *)
Definition py_float (s : string) : option pyfloat :=
  match drop_underscores Ascii.zero (strip_float s) with
  | None => None
  | Some t =>
      let '(neg, body) := parse_sign t in
      if String.eqb (lower body) "inf" || String.eqb (lower body) "infinity"
      then Some (FInf neg)
      else if String.eqb (lower body) "nan" then Some FNan
      else match parse_decimal body with
           | Some (m, e) => Some (FDec neg m e)
           | None => None
           end
  end.

(** [float_gt f T k] is the comparison [f > T] of the double nearest to
    the denoted value with the integer [T >= 0], where [2^-k] is half the
    spacing of the doubles just above [T] and [T] has an even significand:
    the conversion rounds to nearest, ties to even, so the double exceeds
    [T] exactly when the denoted value exceeds [T + 2^-k]. *)
Definition float_gt (f : pyfloat) (T : Z) (k : Z) : bool :=
  match f with
  | FNan => false
  | FInf negative => negb negative
  | FDec true _ _ => false
  | FDec false m e =>
      if 0 <=? e
      then T * 2 ^ k + 1 <? Z.of_N m * 10 ^ e * 2 ^ k
      else (T * 2 ^ k + 1) * 10 ^ (- e) <? Z.of_N m * 2 ^ k
  end.

Definition numeric_char (c : ascii) : bool := is_digit c || Ascii.eqb c ".".

(** [int(s) > threshold], [False] standing for the [ValueError] of
    [int], which the [except] clause turns into [False]. *)
Definition int_gt (s : string) (threshold : Z) : bool :=
  match py_int s with
  | Some n => threshold <? n
  | None => false
  end.

(** The [try] block of [is_large_dimension]; an exception raised inside
    ([float] on a text that is not a number, [int] on a text with too
    many digits) makes the function return [False]. *)
Definition classify_dimension (value : string) (threshold : Z) : bool :=
  if isdigit value then int_gt value threshold
  else if contains "%" value then
    match py_float (replace "%" "" value) with
    | Some percentage => float_gt percentage 80 47
    | None => false
    end
  else if contains "px" (lower value) then
    let numeric_part := replace "px" "" (lower value) in
    isdigit numeric_part && int_gt numeric_part threshold
  else if contains "em" (lower value) || contains "rem" (lower value)
          || contains "vw" (lower value) || contains "vh" (lower value) then
    let numeric_part := filter_chars numeric_char value in
    match py_float numeric_part with
    | Some numeric_value =>
        if contains "em" value || contains "rem" value
        then float_gt numeric_value 10 50
        else if contains "vw" value || contains "vh" value
        then float_gt numeric_value 50 48
        else false
    | None => false
    end
  else false.

(** [is_large_dimension(value, threshold)] for a [str] value. *)
Definition is_large_dimension (value : string) (threshold : Z) : bool :=
  match value with
  | EmptyString => false                       (* [if not value] *)
  | String _ _ => classify_dimension value threshold
  end.

(** The default of the parameter [threshold]. *)
Definition default_threshold : Z := 1200.

Definition is_large (value : string) : bool :=
  is_large_dimension value default_threshold.

(** *** Unit families

    A decimal numeral: digits, optionally followed by a point and more
    digits. *)
Record decimal := Decimal { int_part : string; frac_part : option string }.

Definition wf_decimal (n : decimal) : Prop :=
  isdigit (int_part n) = true
  /\ match frac_part n with
     | Some f => all_chars is_digit f = true
     | None => True
     end.

Definition frac_digits (n : decimal) : string :=
  match frac_part n with Some f => f | None => EmptyString end.

Definition decimal_text (n : decimal) : string :=
  match frac_part n with
  | Some f => int_part n +:+ String "." f
  | None => int_part n
  end.






End Dimension.

(** ** JSON values *)

Module Json.
Import PyStr.

(** What [json.loads] returns.  A number written with a fraction or an
    exponent is a float and is kept as its literal.  An integer has at
    most 4300 digits: [json.loads] raises [ValueError] on a longer one,
    as [int] does. *)
#[warnings="-register-all"]
Inductive json :=
| JNull
| JBool (b : bool)
| JInt (z : Z)
| JFloat (literal : string)
| JStr (s : string)
| JArr (items : list json)
| JObj (members : list (string * json)).

(** [d[key]] and [key in d] on a dictionary kept in insertion order. *)
Fixpoint dict_get (key : string) (d : list (string * json)) : option json :=
  match d with
  | [] => None
  | (k, v) :: d' => if String.eqb k key then Some v else dict_get key d'
  end.

(** [d[key] = v]: an existing key keeps its place. *)
Fixpoint dict_set (key : string) (v : json) (d : list (string * json))
  : list (string * json) :=
  match d with
  | [] => [(key, v)]
  | (k, w) :: d' =>
      if String.eqb k key then (k, v) :: d' else (k, w) :: dict_set key v d'
  end.

(** Outcome of a call of [json.loads]. *)
Inductive decoded :=
| Decoded (v : json)
| JSONDecodeError
| OtherError (e : Py.exn).     (* any exception that is not a JSONDecodeError *)

(** *** A reference decoder

    The grammar accepted by [json.loads] on a [str], used to evaluate the
    examples.  It never answers [OtherError], which [json.loads] does on
    an integer of more than 4300 digits ([ValueError]) and on a nesting
    deeper than the recursion limit ([RecursionError]). *)

Definition is_ws (c : ascii) : bool :=
  ((code c =? 32) || (code c =? 9) || (code c =? 10) || (code c =? 13))%N.

Fixpoint skip_ws (s : string) : string :=
  match s with
  | EmptyString => EmptyString
  | String c s' => if is_ws c then skip_ws s' else s
  end.

(** The number pattern of the scanner: an optional minus sign, then a zero
    or a non-zero digit and more digits; then, optionally, a point and at
    least one digit; then, optionally, [e] or [E], an optional sign and at
    least one digit. *)
Definition scan_number (s : string) : option (json * string) :=
  let '(neg, s1) :=
    match s with
    | String c r => if Ascii.eqb c "-" then (true, r) else (false, s)
    | EmptyString => (false, s)
    end in
  let int_part :=
    match s1 with
    | String c r =>
        if Ascii.eqb c "0" then Some ("0", r)
        else if is_digit c then Some (span_digits s1)
        else None
    | EmptyString => None
    end in
  match int_part with
  | None => None
  | Some (ip, r1) =>
      let '(has_frac, r2) :=
        match r1 with
        | String c r =>
            if Ascii.eqb c "." then
              match span_digits r with
              | (EmptyString, _) => (false, r1)
              | (_, r') => (true, r')
              end
            else (false, r1)
        | EmptyString => (false, r1)
        end in
      let '(has_exp, r3) :=
        match r2 with
        | String c r =>
            if Ascii.eqb c "e" || Ascii.eqb c "E" then
              let r' :=
                match r with
                | String g t =>
                    if Ascii.eqb g "+" || Ascii.eqb g "-" then t else r
                | EmptyString => r
                end in
              match span_digits r' with
              | (EmptyString, _) => (false, r2)
              | (_, r'') => (true, r'')
              end
            else (false, r2)
        | EmptyString => (false, r2)
        end in
      if has_frac || has_exp
      then Some (JFloat (take (String.length s - String.length r3) s), r3)
      else Some (JInt (if neg then - Z.of_N (digits_value 0 ip)
                       else Z.of_N (digits_value 0 ip)), r3)
  end.

Definition hex_value (c : ascii) : option N :=
  if is_digit c then Some (code c - 48)%N
  else if ((97 <=? code c) && (code c <=? 102))%N then Some (code c - 87)%N
  else if ((65 <=? code c) && (code c <=? 70))%N then Some (code c - 55)%N
  else None.

Definition hex4 (a b c d : ascii) : option N :=
  match hex_value a, hex_value b, hex_value c, hex_value d with
  | Some x, Some y, Some z, Some w => Some (((x * 16 + y) * 16 + z) * 16 + w)%N
  | _, _, _, _ => None
  end.

(** Pieces of a scanned string: a character of the text, or the code unit
    of a [\uXXXX] escape. *)
Inductive piece := Char (c : ascii) | Unit16 (n : N).

(** From the character after the opening quote to the closing quote. *)
Fixpoint scan_string (s : string) : option (list piece * string) :=
  match s with
  | EmptyString => None
  | String c r =>
      if Ascii.eqb c dquote then Some ([], r)
      else if Ascii.eqb c backslash then
        match r with
        | EmptyString => None
        | String e r' =>
            let simple (x : N) :=
              match scan_string r' with
              | Some (ps, rest) => Some (Char (ascii_of_N x) :: ps, rest)
              | None => None
              end in
            if Ascii.eqb e dquote then simple 34%N
            else if Ascii.eqb e backslash then simple 92%N
            else if Ascii.eqb e "/" then simple 47%N
            else if Ascii.eqb e "b" then simple 8%N
            else if Ascii.eqb e "f" then simple 12%N
            else if Ascii.eqb e "n" then simple 10%N
            else if Ascii.eqb e "r" then simple 13%N
            else if Ascii.eqb e "t" then simple 9%N
            else if Ascii.eqb e "u" then
              match r' with
              | String h1 (String h2 (String h3 (String h4 r''))) =>
                  match hex4 h1 h2 h3 h4, scan_string r'' with
                  | Some n, Some (ps, rest) => Some (Unit16 n :: ps, rest)
                  | _, _ => None
                  end
              | _ => None
              end
            else None
        end
      else if (code c <? 32)%N then None
      else match scan_string r with
           | Some (ps, rest) => Some (Char c :: ps, rest)
           | None => None
           end
  end.

(** UTF-8 form of a code point. *)
Definition utf8 (n : N) : list ascii :=
  (if n <? 128 then [ascii_of_N n]
   else if n <? 2048 then
     [ascii_of_N (192 + n / 64); ascii_of_N (128 + n mod 64)]
   else if n <? 65536 then
     [ascii_of_N (224 + n / 4096); ascii_of_N (128 + (n / 64) mod 64);
      ascii_of_N (128 + n mod 64)]
   else
     [ascii_of_N (240 + n / 262144); ascii_of_N (128 + (n / 4096) mod 64);
      ascii_of_N (128 + (n / 64) mod 64); ascii_of_N (128 + n mod 64)])%N.

(** A high surrogate directly followed by a low one is one code point. *)
Fixpoint pieces_text (ps : list piece) : list ascii :=
  match ps with
  | [] => []
  | Char c :: ps' => c :: pieces_text ps'
  | Unit16 hi :: ps' =>
      match ps' with
      | Unit16 lo :: ps'' =>
          if ((55296 <=? hi) && (hi <=? 56319)
              && (56320 <=? lo) && (lo <=? 57343))%N
          then (utf8 (65536 + (hi - 55296) * 1024 + (lo - 56320))
                  ++ pieces_text ps'')%list
          else (utf8 hi ++ pieces_text ps')%list
      | _ => (utf8 hi ++ pieces_text ps')%list
      end
  end.

Definition scan_text (s : string) : option (string * string) :=
  match scan_string s with
  | Some (ps, rest) => Some (string_of_list_ascii (pieces_text ps), rest)
  | None => None
  end.

Fixpoint parse_value (fuel : nat) (s : string) : option (json * string) :=
  match fuel with
  | O => None
  | S fuel' =>
      match s with
      | EmptyString => None
      | String c r =>
          if Ascii.eqb c dquote then
            match scan_text r with
            | Some (t, rest) => Some (JStr t, rest)
            | None => None
            end
          else if Ascii.eqb c "{" then
            match skip_ws r with
            | String c1 r1 =>
                if Ascii.eqb c1 "}" then Some (JObj [], r1)
                else if Ascii.eqb c1 dquote then parse_members fuel' r1 []
                else None
            | EmptyString => None
            end
          else if Ascii.eqb c "[" then
            match skip_ws r with
            | String c1 r1 =>
                if Ascii.eqb c1 "]" then Some (JArr [], r1)
                else parse_items fuel' (String c1 r1) []
            | EmptyString => None
            end
          else if starts_with "null" s then Some (JNull, drop 4 s)
          else if starts_with "true" s then Some (JBool true, drop 4 s)
          else if starts_with "false" s then Some (JBool false, drop 5 s)
          else
            match scan_number s with
            | Some res => Some res
            | None =>
                if starts_with "NaN" s then Some (JFloat "NaN", drop 3 s)
                else if starts_with "Infinity" s
                then Some (JFloat "Infinity", drop 8 s)
                else if starts_with "-Infinity" s
                then Some (JFloat "-Infinity", drop 9 s)
                else None
            end
      end
  end

(** [s] starts right after the opening quote of a key. *)
with parse_members (fuel : nat) (s : string) (acc : list (string * json))
  : option (json * string) :=
  match fuel with
  | O => None
  | S fuel' =>
      match scan_text s with
      | None => None
      | Some (key, r) =>
          match skip_ws r with
          | String c1 r1 =>
              if Ascii.eqb c1 ":" then
                match parse_value fuel' (skip_ws r1) with
                | None => None
                | Some (v, r2) =>
                    let acc' := dict_set key v acc in
                    match skip_ws r2 with
                    | String c3 r3 =>
                        if Ascii.eqb c3 "}" then Some (JObj acc', r3)
                        else if Ascii.eqb c3 "," then
                          match skip_ws r3 with
                          | String c4 r4 =>
                              if Ascii.eqb c4 dquote
                              then parse_members fuel' r4 acc'
                              else None
                          | EmptyString => None
                          end
                        else None
                    | EmptyString => None
                    end
                end
              else None
          | EmptyString => None
          end
      end
  end

(** [s] starts at an item. *)
with parse_items (fuel : nat) (s : string) (acc : list json)
  : option (json * string) :=
  match fuel with
  | O => None
  | S fuel' =>
      match parse_value fuel' s with
      | None => None
      | Some (v, r) =>
          match skip_ws r with
          | String c1 r1 =>
              if Ascii.eqb c1 "]" then Some (JArr (acc ++ [v]), r1)
              else if Ascii.eqb c1 ","
              then parse_items fuel' (skip_ws r1) (acc ++ [v])
              else None
          | EmptyString => None
          end
      end
  end.

(** [json.loads(s)]: one value, white space around it, nothing else. *)
Definition json_loads_ref (s : string) : decoded :=
  match parse_value (S (String.length s)) (skip_ws s) with
  | Some (v, rest) =>
      match skip_ws rest with
      | EmptyString => Decoded v
      | String _ _ => JSONDecodeError
      end
  | None => JSONDecodeError
  end.

(** [quoted s] is [s] between double quotes. *)
Definition quoted (s : string) : string :=
  String dquote (s +:+ String dquote EmptyString).

End Json.

(** ** Analysis report *)

Module Report.
Import Py PyStr Json Site Score.

(** [create_default_response()] *)
Definition create_default_response : json :=
  JObj
    [("overall_score", JInt 65);
     ("health_score",
      JObj [("value", JInt 65);
            ("category", JStr "Needs Improvement");
            ("description", JStr "Several significant issues that need attention.")]);
     ("issues",
      JArr
        [JObj [("category", JStr "Error Processing");
               ("description",
                JStr "We encountered an issue analyzing this website. Please try again.");
               ("impact", JStr "High");
               ("solution", JStr "Refresh and retry the analysis.")]])].

(** Index of the last occurrence of a character. *)
Fixpoint rfind_char (c : ascii) (s : string) : option nat :=
  match s with
  | EmptyString => None
  | String a s' =>
      match rfind_char c s' with
      | Some i => Some (S i)
      | None => if Ascii.eqb a c then Some O else None
      end
  end.

Definition fence : string := "```".

(** Group 1 of the first match of the pattern for a fenced code block:
    an opening fence, an optional [json], white space, the shortest text
    up to white space and a closing fence.  The match starts at the
    leftmost fence; it exists when a second fence follows the opening
    one, its optional [json] and the white space after it, and the group
    ends before the white space in front of the first such fence. *)
Definition search_code_block (text : string) : option string :=
  match find fence text with
  | None => None
  | Some i =>
      let after_fence := drop (i + 3) text in
      let after_lang :=
        if starts_with "json" after_fence then drop 4 after_fence
        else after_fence in
      let body := lstrip after_lang in
      match find fence body with
      | None => None
      | Some j => Some (rstrip (take j body))
      end
  end.

(** Group 1 of the first match of the pattern for a JSON object: from the
    first opening brace to the last closing brace after it. *)
Definition search_braces (text : string) : option string :=
  match find "{" text with
  | None => None
  | Some i =>
      let rest := drop i text in
      match rfind_char "}" rest with
      | None => None
      | Some j => Some (take (S j) rest)
      end
  end.

(** The argument of [parse_json_from_response]: a [str], or anything else. *)
Inductive text_value := NotStr | Str (s : string).

(** What the model gives for a prompt: [model.generate_content(prompt)]
    followed by [response.text] raises, or yields a text. *)
Inductive model_reply :=
| GenerateRaises (e : exn)
| ReplyText (t : text_value).

(** Entry of [session_data]. *)
Record session := Session {
  timestamp : option Z;
  session_url : option string;
  session_website_data : option website_data;
  analysis : option json
}.

Definition set_analysis (s : session) (a : json) : session :=
  Session (timestamp s) (session_url s) (session_website_data s) (Some a).

(** The text of a [TypeError] or [KeyError] is only printed by the code
    that catches it. *)
Definition TypeError : exn := Exn "TypeError" NoRetryDelay.
Definition KeyError : exn := Exn "KeyError" NoRetryDelay.

(** The count of optimization indicators at the head of
    [analyze_website]. *)
Definition optimization_indicators (d : website_data) : Z :=
  let s := signals d in
  (if (0 <? async_scripts_count s)%nat then 1 else 0)
  + (if (0 <? defer_scripts_count s)%nat then 1 else 0)
  + (if (0 <? lazy_loaded_images_count s)%nat then 1 else 0)
  + (if has_responsive_meta s then 1 else 0)
  + (if (2 <? media_queries_count s)%nat then 1 else 0)
  + (if has_manifest s then 1 else 0)
  + (if has_service_worker s then 1 else 0)
  + (if (5 <? aria_attributes_count s)%nat then 1 else 0).

Definition health_json (h : health_score) : json :=
  JObj [("value", JInt (value h));
        ("category", JStr (category h));
        ("description", JStr (description h))].

(** ["overall_score" in analysis_data] *)
Definition has_overall_score (analysis_data : json) : outcome bool :=
  match analysis_data with
  | JObj d =>
      Return (match dict_get "overall_score" d with Some _ => true | None => false end)
  | JArr l =>
      Return (existsb (fun x => match x with
                                | JStr s => String.eqb s "overall_score"
                                | _ => false
                                end) l)
  | JStr s => Return (contains "overall_score" s)
  | _ => Raise TypeError
  end.

Section Decoder.

(** [json.loads], and [calculate_health_score] on a float score, which is
    outside the integer arithmetic of [Score]. *)
Variable json_loads : string -> decoded.
Variable calculate_health_score_float : string -> bool -> Z -> json.

(** [parse_json_from_response(text)] *)
Definition parse_json_from_response (text : text_value) : outcome json :=
  match text with
  | NotStr => Return create_default_response
  | Str EmptyString => Return create_default_response
  | Str s =>
      match json_loads s with
      | Decoded v => Return v
      | OtherError e => Raise e
      | JSONDecodeError =>
          match search_code_block s with
          | Some group1 =>
              match json_loads (strip group1) with
              | Decoded v => Return v
              | _ => Return create_default_response
              end
          | None =>
              match search_braces s with
              | Some group1 =>
                  match json_loads group1 with
                  | Decoded v => Return v
                  | _ => Return create_default_response
                  end
              | None => Return create_default_response
              end
          end
      end
  end.

(** [calculate_health_score(analysis_data["overall_score"], ...)] on
    whatever the score is. *)
Definition health_of (score : json) (is_reputable : bool)
    (indicators : Z) : outcome json :=
  match score with
  | JInt z => Return (health_json (calculate_health_score z is_reputable indicators))
  | JBool b =>
      let h := calculate_health_score (Z.b2z b) is_reputable indicators in
      Return (JObj [("value",
                     if is_reputable || (0 <? indicators)
                     then JInt (value h) else JBool b);
                    ("category", JStr (category h));
                    ("description", JStr (description h))])
  | JFloat literal =>
      Return (calculate_health_score_float literal is_reputable indicators)
  | _ => Raise TypeError
  end.

(** The statements of the [try] block of [analyze_website] after the
    reply has been parsed, up to the store into the session. *)
Definition add_health_score (analysis_data : json) (website_data : website_data)
  : outcome json :=
  match has_overall_score analysis_data with
  | Raise e => Raise e
  | Return false => Return analysis_data
  | Return true =>
      match analysis_data with
      | JObj d =>
          match dict_get "overall_score" d with
          | Some score =>
              match health_of score (is_reputable_domain (signals website_data))
                              (optimization_indicators website_data) with
              | Return h => Return (JObj (dict_set "health_score" h d))
              | Raise e => Raise e
              end
          | None => Raise KeyError
          end
      | _ => Raise TypeError
      end
  end.

(** The [try] block of [analyze_website]. *)
Definition analyze_try (reply : model_reply) (website_data : website_data)
    (session_id : string) (session_data : gmap string session)
  : outcome json * gmap string session :=
  match reply with
  | GenerateRaises e => (Raise e, session_data)
  | ReplyText response_text =>
      match parse_json_from_response response_text with
      | Raise e => (Raise e, session_data)
      | Return parsed =>
          match add_health_score parsed website_data with
          | Raise e => (Raise e, session_data)
          | Return analysis_data =>
              match session_data !! session_id with
              | None => (Raise KeyError, session_data)
              | Some s =>
                  (Return analysis_data,
                   <[session_id := set_analysis s analysis_data]> session_data)
              end
          end
      end
  end.

(** [analyze_website(model, website_data, session_id)], below its
    decorator. *)
Definition analyze_website (reply : model_reply) (website_data : website_data)
    (session_id : string) (session_data : gmap string session)
  : (json * bool) * gmap string session :=
  match analyze_try reply website_data session_id session_data with
  | (Return analysis_data, session_data') => ((analysis_data, true), session_data')
  | (Raise _, session_data') => ((create_default_response, false), session_data')
  end.

(** The decorated function as the rate limiter sees it: it always returns
    and takes [latency] seconds. *)
Definition analyze_call (reply : model_reply) (website_data : website_data)
    (session_id : string) (latency : N) (session_data : gmap string session)
  : outcome (json * bool) * gmap string session * N :=
  let '(r, session_data') :=
    analyze_website reply website_data session_id session_data in
  (Return r, session_data', latency).

(** The text holds no JSON the parser can use: neither the whole text, nor
    the content of a fenced block, nor the span between braces decodes. *)
Definition is_decoded (d : decoded) : bool :=
  match d with Decoded _ => true | _ => false end.

Definition no_parsable_json (text : string) : bool :=
  match json_loads text with
  | JSONDecodeError =>
      match search_code_block text with
      | Some group1 => negb (is_decoded (json_loads (strip group1)))
      | None => true
      end
      && match search_braces text with
         | Some group1 => negb (is_decoded (json_loads group1))
         | None => true
         end
  | _ => false
  end.

End Decoder.

(** Sample data. *)
Definition no_float_score : string -> bool -> Z -> json := fun _ _ _ => JNull.

Definition sample_site : website_data :=
  WebsiteData "https://example.com" Cache.blank_signals.

Definition sample_sessions : gmap string session :=
  {[ "session-1" := Session (Some 0) (Some "https://example.com") None None ]}.

Definition prose_reply : string :=
  "I am sorry, but I cannot analyze this website.".

Definition object_text : string :=
  "{" +:+ quoted "overall_score" +:+ ": 90, " +:+ quoted "issues" +:+ ": []}".

Definition fenced_then_object : string :=
  "```json overall_score = 90 ``` that is: " +:+ object_text.

End Report.

(** ** Session sweep *)

Module Sessions.
Import Report.

(** [data['timestamp'] = now] *)
Definition set_timestamp (data : session) (now : Z) : session :=
  Session (Some now) (session_url data) (session_website_data data)
          (analysis data).

(** One turn of the loop over [session_data.items()]: a session without a
    time stamp is stamped, a session stamped more than an hour ago is
    noted for removal. *)
Definition sweep_step (now : Z) (s_id : string) (data : session)
    (acc : gmap string session * list string)
  : gmap string session * list string :=
  match timestamp data with
  | None => (<[s_id := set_timestamp data now]> (fst acc), snd acc)
  | Some ts =>
      if ts <? now - 3600 then (fst acc, (snd acc ++ [s_id])%list) else acc
  end.

(** [cleanup_old_sessions()] at the clock reading [now]: the loop over the
    sessions, then the deletions. *)
Definition cleanup_old_sessions (now : Z) (session_data : gmap string session)
  : gmap string session :=
  let '(stamped, sessions_to_remove) :=
    map_fold (sweep_step now) (session_data, []) session_data in
  foldl (fun m s_id => delete s_id m) stamped sessions_to_remove.

(** What the sweep leaves of one session. *)
Definition swept (now : Z) (data : session) : option session :=
  match timestamp data with
  | None => Some (set_timestamp data now)
  | Some ts => if ts <? now - 3600 then None else Some data
  end.

(** The sessions an analysis endpoint starts from: the session is created
    with the clock reading as time stamp when it is not known yet. *)
Definition ensure_session (session_id : string) (now : Z)
    (session_data : gmap string session) : gmap string session :=
  match session_data !! session_id with
  | Some _ => session_data
  | None => <[session_id := Session (Some now) None None None]> session_data
  end.

(** [get_session_id()]: the cookie [session_id] of the request if it
    carries one, a fresh identifier [uuid4] otherwise. *)
Definition get_session_id (cookie : option string) (uuid4 : string) : string :=
  match cookie with
  | Some session_id => session_id
  | None => uuid4
  end.

(** What [home()] does to the sessions: the sweep at the clock reading
    [now], then the creation of the session of the visitor at the reading
    [later]. *)
Definition home (cookie : option string) (uuid4 : string) (now later : Z)
    (session_data : gmap string session) : gmap string session :=
  ensure_session (get_session_id cookie uuid4) later
                 (cleanup_old_sessions now session_data).

End Sessions.

(** ** Sequences of limiter operations *)

Module Traffic.
Import RateLimit.

(** Number of calls of [wait_if_needed] in a sequence. *)
Fixpoint acquires (ops : list op) : nat :=
  match ops with
  | [] => O
  | Acquire :: ops' => S (acquires ops')
  | _ :: ops' => acquires ops'
  end.

(** No rate limit error is reported in the sequence. *)
Fixpoint error_free (ops : list op) : bool :=
  match ops with
  | [] => true
  | RateLimited _ :: _ => false
  | _ :: ops' => error_free ops'
  end.

(** Sum of the durations handed to [time.sleep]. *)
Definition total (l : list Z) : Z := fold_right Z.add 0 l.

(** The timestamps are in the order of the clock. *)
Definition ordered_inv (st : GeminiRateLimiter * clock) : Prop :=
  StronglySorted Z.le (request_timestamps (fst st))
  /\ Forall (fun ts => ts <= now (snd st)) (request_timestamps (fst st)).

(** Room left under the quota for the calls still to come, no deadline
    ahead and nothing slept so far. *)
Definition idle_inv (ops : list op) (st : GeminiRateLimiter * clock) : Prop :=
  Z.of_nat (length (request_timestamps (fst st))) + Z.of_nat (acquires ops)
    <= max_requests (fst st)
  /\ last_retry_time (fst st) + retry_delay (fst st) <= now (snd st)
  /\ slept (snd st) = [].

End Traffic.

(** ** Text report *)

Module Format.
Import Py PyStr Json Score Report.

Definition nl : string := String (ascii_of_N 10) EmptyString.

(** [str(z)], for an integer of at most 4300 digits. *)
Definition str_int (z : Z) : string :=
  DecimalString.NilZero.string_of_int (Z.to_int z).

Definition AttributeError : exn := Exn "AttributeError" NoRetryDelay.

Section Str.

(** [str(v)] for a float, a list or a dictionary. *)
Variable py_str : json -> string.
Variable calculate_health_score_float : string -> bool -> Z -> json.

(** A replacement field [{v}] of an f-string. *)
Definition format_value (v : json) : string :=
  match v with
  | JStr s => s
  | JInt z => str_int z
  | JBool true => "True"
  | JBool false => "False"
  | JNull => "None"
  | _ => py_str v
  end.

(** The two lines every report starts with. *)
Definition report_title (url : string) : string :=
  "WEBSITE ANALYSIS REPORT" +:+ nl +:+ "URL: " +:+ url +:+ nl +:+ nl.

Definition incomplete_report (url : string) : string :=
  report_title url
  +:+ "Error: Unable to generate a complete analysis for this website. Please try again."
  +:+ nl.

Definition failed_report (url : string) : string :=
  report_title url
  +:+ "Error: An issue occurred while formatting the analysis results. Please try again."
  +:+ nl.

(** [v[key]] for a text [key]. *)
Definition subscript (v : json) (key : string) : outcome json :=
  match v with
  | JObj d =>
      match dict_get key d with
      | Some x => Return x
      | None => Raise KeyError
      end
  | _ => Raise TypeError
  end.

(** [{issue.get(key, default)}] *)
Definition get_or (d : list (string * json)) (key default : string) : string :=
  match dict_get key d with
  | Some v => format_value v
  | None => default
  end.

(** The text added for the issue numbered [i]. *)
Definition issue_text (i : Z) (issue : json) : outcome string :=
  match issue with
  | JObj d =>
      Return (nl +:+ str_int i +:+ ". " +:+ get_or d "category" "Issue" +:+ nl
              +:+ "   Problem: "
              +:+ get_or d "description" "No description available" +:+ nl
              +:+ "   Impact: " +:+ get_or d "impact" "Unknown" +:+ nl
              +:+ "   Solution: "
              +:+ get_or d "solution" "No solution provided" +:+ nl)
  | _ => Raise AttributeError
  end.

(** The loop over [enumerate(issues, i)]. *)
Fixpoint add_issues (i : Z) (issues : list json) (response_text : string)
  : outcome string :=
  match issues with
  | [] => Return response_text
  | issue :: rest =>
      match issue_text i issue with
      | Return t => add_issues (i + 1) rest (response_text +:+ t)
      | Raise e => Raise e
      end
  end.

(** What a [for] loop over [v] goes through: the items of a list, the
    characters of a text, the keys of a dictionary. *)
Definition iterate (v : json) : outcome (list json) :=
  match v with
  | JArr items => Return items
  | JStr s =>
      Return (map (fun c => JStr (String c EmptyString)) (list_ascii_of_string s))
  | JObj d => Return (map (fun kv => JStr (fst kv)) d)
  | _ => Raise TypeError
  end.

(** The [try] block of [format_response]. *)
Definition format_try (url : string) (analysis_data : json) : outcome string :=
  match analysis_data with
  | JObj d =>
      match dict_get "overall_score" d, dict_get "issues" d with
      | Some overall_score, Some issues =>
          (* the default of [get] is computed before the lookup *)
          match health_of calculate_health_score_float overall_score false 0 with
          | Raise e => Raise e
          | Return computed =>
              let health_score :=
                match dict_get "health_score" d with
                | Some h => h
                | None => computed
                end in
              match subscript health_score "category" with
              | Raise e => Raise e
              | Return category =>
                  match subscript health_score "description" with
                  | Raise e => Raise e
                  | Return description =>
                      let response_text :=
                        report_title url
                        +:+ "OVERALL UX HEALTH SCORE: "
                        +:+ format_value overall_score +:+ "/100" +:+ nl
                        +:+ "HEALTH ASSESSMENT: " +:+ format_value category
                        +:+ " - " +:+ format_value description +:+ nl +:+ nl
                        +:+ "KEY ISSUES AND RECOMMENDATIONS:" +:+ nl in
                      match iterate issues with
                      | Raise e => Raise e
                      | Return items => add_issues 1 items response_text
                      end
                  end
              end
          end
      | _, _ => Return (incomplete_report url)
      end
  | _ => Return (incomplete_report url)
  end.

(** [format_response(url, analysis_data)] *)
Definition format_response (url : string) (analysis_data : json) : string :=
  match format_try url analysis_data with
  | Return response_text => response_text
  | Raise _ => failed_report url
  end.

End Str.

(** Sample data: a placeholder for the texts that are not modelled. *)
Definition no_str : json -> string := fun _ => "?".

End Format.

(** ** Chat endpoint *)

Module Chat.
Import Py PyStr Json Format Sessions.

Inductive role := user | assistant.

(** An entry of a chat history: a dictionary with the keys [role] and
    [content]. *)
Record message := Message { msg_role : role; content : json }.

(** What the view reads of a request: the cookie [session_id], if the
    request carries one, and [request.get_json(silent=True)], which is
    [None] when the body is not JSON. *)
Record request := Request { cookie : option string; get_json : option json }.

(** What the view answers: a status, a JSON body and the cookie it sets;
    or an exception leaves the view. *)
Inductive response :=
| Response (status : Z) (body : json) (set_cookie : string)
| Unhandled (e : exn).

Definition greetings : list string := ["hi"; "hello"; "hey"; "greetings"].

Definition off_topic_keywords : list string :=
  ["personal"; "politics"; "medical advice"; "legal advice"; "investments";
   "dating"; "games"; "movies"; "music"; "sports"; "weather"; "news"].

Definition cro_terms : list string :=
  ["website"; "conversion"; "ux"; "ui"; "page"; "user"; "customer"; "traffic";
   "bounce"; "cro"; "optimization"].

(** [any(word in text for word in words)] *)
Definition any_in (words : list string) (text : string) : bool :=
  existsb (fun word => contains word text) words.

Definition greeting_text : string :=
  "Hello! I'm your CRO Assistant, here to help optimize your website's conversion rate. "
  +:+ nl +:+ nl
  +:+ "How can I help you today? I can assist with website analysis, conversion optimization strategies, UX improvements, or answer questions about boosting your conversion rates.".

Definition redirect_text : string :=
  "I'm sorry, I'm specialized in website conversion rate optimization and can only help with questions related to improving websites, user experience, or digital marketing strategies. "
  +:+ nl +:+ nl
  +:+ "Could you ask me something about optimizing your website, improving user experience, or increasing conversion rates?".

Definition invalid_request : json :=
  JObj [("error", JStr "Invalid request format. Expected JSON body.")].

Definition no_message : json := JObj [("error", JStr "No message provided")].

Definition trouble : json :=
  JObj [("error", JStr "Failed to process your question.");
        ("response",
         JStr "I'm having trouble connecting right now. Please try again in a moment.")].

(** [sep.join(parts)] *)
Fixpoint join (sep : string) (parts : list string) : string :=
  match parts with
  | [] => EmptyString
  | [p] => p
  | p :: rest => p +:+ sep +:+ join sep rest
  end.

(** [history[-n:]] *)
Definition last_messages (n : nat) (history : list message) : list message :=
  skipn (length history - n) history.

Section Handler.

(** [str(v)] for a float, a list or a dictionary, and the truth value of
    the float a literal denotes. *)
Variable py_str : json -> string.
Variable float_truth : string -> bool.

(** [bool(v)] *)
Definition truth (v : json) : bool :=
  match v with
  | JNull => false
  | JBool b => b
  | JInt z => negb (z =? 0)
  | JFloat literal => float_truth literal
  | JStr s => negb (String.eqb s EmptyString)
  | JArr items => match items with [] => false | _ :: _ => true end
  | JObj members => match members with [] => false | _ :: _ => true end
  end.

Definition line (msg : message) : string :=
  (match msg_role msg with user => "User" | assistant => "Assistant" end)
  +:+ ": " +:+ format_value py_str (content msg).

(** The part of the prompt that varies: the last five messages, one per
    line. *)
Definition conversation_history (history : list message) : string :=
  join nl (map line (last_messages 5 history)).

(** [user_message.lower()], which only a text has. *)
Definition lower_of (user_message : json) : outcome string :=
  match user_message with
  | JStr m => Return (lower m)
  | _ => Raise AttributeError
  end.

(** The [try] block of [chat_interaction] up to the reply text, on the
    history that ends with the message of the user.  [configured] is the
    outcome of [configure_gemini()]; [generate_content] gives, for the
    conversation put into the prompt, the outcome of
    [model.generate_content(prompt)] followed by [response.text].  The
    second component lists the conversations sent to the model. *)
Definition reply_text (configured : outcome unit)
    (generate_content : string -> outcome string)
    (history : list message) (user_message : json)
  : outcome string * list string :=
  match configured with
  | Raise e => (Raise e, [])
  | Return _ =>
      let is_new_conversation := (length history <=? 1)%nat in
      let greeted :=
        if is_new_conversation then
          match lower_of user_message with
          | Return m => Return (any_in greetings m)
          | Raise e => Raise e
          end
        else Return false in
      match greeted with
      | Raise e => (Raise e, [])
      | Return true => (Return greeting_text, [])
      | Return false =>
          let conversation := conversation_history history in
          match generate_content conversation with
          | Raise e => (Raise e, [conversation])
          | Return response_text =>
              match lower_of user_message with
              | Raise e => (Raise e, [conversation])
              | Return m =>
                  if any_in off_topic_keywords m && negb (any_in cro_terms m)
                  then (Return redirect_text, [conversation])
                  else (Return response_text, [conversation])
              end
          end
      end
  end.

(** [chat_interaction()]: the answer, the chat histories afterwards and
    the conversations sent to the model. *)
Definition chat_interaction (req : request) (uuid4 : string)
    (configured : outcome unit) (generate_content : string -> outcome string)
    (chat_histories : gmap string (list message))
  : response * gmap string (list message) * list string :=
  let session_id := get_session_id (cookie req) uuid4 in
  match get_json req with
  | None => (Response 400 invalid_request session_id, chat_histories, [])
  | Some data =>
      if negb (truth data)
      then (Response 400 invalid_request session_id, chat_histories, [])
      else
        match data with
        | JObj d =>
            match dict_get "message" d with
            | None => (Response 400 no_message session_id, chat_histories, [])
            | Some user_message =>
                if negb (truth user_message)
                then (Response 400 no_message session_id, chat_histories, [])
                else
                  let history :=
                    (default [] (chat_histories !! session_id)
                     ++ [Message user user_message])%list in
                  let stored := <[session_id := history]> chat_histories in
                  match reply_text configured generate_content history
                                   user_message with
                  | (Return response_text, sent) =>
                      (Response 200 (JObj [("response", JStr response_text)])
                                session_id,
                       <[session_id :=
                           (history ++ [Message assistant (JStr response_text)])%list]>
                         stored,
                       sent)
                  | (Raise _, sent) => (Response 500 trouble session_id, stored, sent)
                  end
            end
        | _ => (Unhandled AttributeError, chat_histories, [])
        end
  end.

End Handler.

(** Sample data. *)

(** A model that answers every conversation with the same text. *)
Definition model_says (text : string) : string -> outcome string :=
  fun _ => Return text.

(** Every float counts as true. *)
Definition no_float : string -> bool := fun _ => true.

Definition message_request (cookie : option string) (user_message : json)
  : request :=
  Request cookie (Some (JObj [("message", user_message)])).

Definition one_exchange : gmap string (list message) :=
  {[ "session-1" := [Message user (JStr "How do I improve my forms?");
                     Message assistant (JStr "Ask for less.")] ]}.

Definition long_exchange : gmap string (list message) :=
  {[ "session-1" := [Message user (JStr "Hello");
                     Message assistant (JStr greeting_text);
                     Message user (JStr "How do I improve my forms?");
                     Message assistant (JStr "Ask for less.");
                     Message user (JStr "How do I improve my forms?");
                     Message assistant (JStr "Ask for less.")] ]}.

Definition recent_exchange : gmap string (list message) :=
  {[ "session-1" := [Message assistant (JStr "Ask for less.");
                     Message user (JStr "How do I improve my forms?");
                     Message assistant (JStr "Ask for less.");
                     Message user (JStr "How do I improve my forms?");
                     Message assistant (JStr "Ask for less.")] ]}.

End Chat.

(* ================================================================== *)
(** * Theorems *)
(* ================================================================== *)

(** ** Facts about the health score *)

Section ScoreFacts.
Import Score.

Lemma reputation_bonus_range s : 5 <= reputation_bonus s <= 10.
Proof. unfold reputation_bonus. lia. Qed.

Lemma reputation_bonus_mono s s' :
  s <= s' -> reputation_bonus s <= reputation_bonus s'.
Proof.
  intros Hle. unfold reputation_bonus.
  pose proof (Z.div_le_mono s s' 10 ltac:(lia) Hle). lia.
Qed.

Lemma adjust_reputable_mono rep s s' :
  s <= s' -> adjust_reputable s rep <= adjust_reputable s' rep.
Proof.
  intros Hle. unfold adjust_reputable. destruct rep; [|exact Hle].
  pose proof (reputation_bonus_mono s s' Hle). lia.
Qed.

Lemma adjust_optimization_mono n s s' :
  s <= s' -> adjust_optimization s n <= adjust_optimization s' n.
Proof.
  intros Hle. unfold adjust_optimization. destruct (0 <? n); lia.
Qed.

Lemma value_calculate s rep n :
  value (calculate_health_score s rep n) = adjusted_score s rep n.
Proof.
  unfold calculate_health_score.
  destruct (tier (adjusted_score s rep n)); reflexivity.
Qed.

Lemma tier_calculate s rep n :
  (category (calculate_health_score s rep n),
   description (calculate_health_score s rep n))
  = tier (value (calculate_health_score s rep n)).
Proof.
  unfold calculate_health_score.
  destruct (tier (adjusted_score s rep n)) eqn:E; simpl. now rewrite E.
Qed.

(** C3. On a raw score in [0,100] the adjustment adds the reputation bonus
    [min(10, max(5, score // 10))] when the domain is reputable, caps at
    100, then adds [min(5, optimization_indicators)] and caps at 100 again;
    for the score 80 on a reputable domain without optimization
    indicators the bonus is 8 and the result is 80 + 8 = 88. *)
Theorem C3_score_adjustment (s : Z) (rep : bool) (n : Z) :
  0 <= s <= 100 -> 0 <= n ->
  value (calculate_health_score s rep n)
  = Z.min 100
      ((if rep then Z.min 100 (s + Z.min 10 (Z.max 5 (s / 10))) else s)
       + Z.min 5 n)
  /\ 80 / 10 = 8
  /\ Z.min 10 (Z.max 5 (80 / 10)) = 8
  /\ value (calculate_health_score 80 true 0) = 80 + 8
  /\ value (calculate_health_score 80 true 0) = 88.
Proof.
  intros Hs Hn. split; [|repeat split; reflexivity].
  rewrite value_calculate.
  unfold adjusted_score, adjust_optimization, adjust_reputable, reputation_bonus.
  destruct (Z.ltb_spec 0 n); destruct rep; lia.
Qed.

Lemma C3_score_adjustment_witness :
  value (calculate_health_score 80 true 0)
  = Z.min 100 (Z.min 100 (80 + Z.min 10 (Z.max 5 (80 / 10))) + Z.min 5 0).
Proof.
  exact (proj1 (C3_score_adjustment 80 true 0 ltac:(lia) ltac:(lia))).
Defined.

Ltac tier_cases score :=
  unfold tier;
  destruct (Z.leb_spec 90 score); [|
  destruct (Z.leb_spec 80 score); [|
  destruct (Z.leb_spec 70 score); [|
  destruct (Z.leb_spec 60 score); [|
  destruct (Z.leb_spec 50 score)]]]].

(** C7. The tier table assigns to every integer score exactly one of six
    categories, each with its own description: Critical below 50, Poor on
    50..59, Needs Improvement on 60..69, Good on 70..79, Very Good on
    80..89 and Excellent from 90 on; the category and description
    returned by [calculate_health_score] are those of its final value. *)
Theorem C7_tier_partition (score : Z) :
  (score < 50 <->
     tier score = ("Critical",
       "Your website has critical issues that are severely limiting conversions."))
  /\ (50 <= score <= 59 <->
     tier score = ("Poor",
       "Your website has significant conversion issues that need attention."))
  /\ (60 <= score <= 69 <->
     tier score = ("Needs Improvement",
       "Your website has some issues that may be impacting conversions."))
  /\ (70 <= score <= 79 <->
     tier score = ("Good",
       "Your website has a solid foundation but several areas need attention."))
  /\ (80 <= score <= 89 <->
     tier score = ("Very Good",
       "Your website performs well but has some opportunities for improvement."))
  /\ (90 <= score <->
     tier score = ("Excellent",
       "Your website is optimized for conversions with only minor improvements needed."))
  /\ (forall rep n,
        let h := calculate_health_score score rep n in
        (category h, description h) = tier (value h)).
Proof.
  assert (Hcalc : forall rep n,
             let h := calculate_health_score score rep n in
             (category h, description h) = tier (value h))
    by (intros rep n; apply tier_calculate).
  revert Hcalc. generalize (calculate_health_score score). intros h Hcalc.
  tier_cases score;
    (repeat split; try exact Hcalc; intros;
     solve [reflexivity | lia | discriminate]).
Qed.

(** C10 (as stated) fails above 100: a reputable domain with raw score 150
    is capped to 100, below its input. *)
Lemma C10_counterexample :
  value (calculate_health_score 150 true 0) = 100
  /\ ~ (150 <= value (calculate_health_score 150 true 0)).
Proof. split; [reflexivity | vm_compute; intros H; apply H; reflexivity]. Qed.

(** C10 (amended). For every integer score, flag and non-negative
    indicator count the returned value lies between [min(score, 100)] and
    [max(score, 100)], so it is at least the input whenever the input is
    at most 100; and for a fixed flag and count the value is monotone
    non-decreasing in the score. *)
Theorem C10_value_bounds_monotone (s : Z) (rep : bool) (n : Z) :
  0 <= n ->
  Z.min s 100 <= value (calculate_health_score s rep n) <= Z.max s 100
  /\ (s <= 100 -> s <= value (calculate_health_score s rep n))
  /\ (forall s', s <= s' ->
        value (calculate_health_score s rep n)
        <= value (calculate_health_score s' rep n)).
Proof.
  intros Hn. repeat split.
  - rewrite value_calculate.
    unfold adjusted_score, adjust_optimization, adjust_reputable.
    pose proof (reputation_bonus_range s).
    destruct (Z.ltb_spec 0 n); destruct rep; lia.
  - rewrite value_calculate.
    unfold adjusted_score, adjust_optimization, adjust_reputable.
    pose proof (reputation_bonus_range s).
    destruct (Z.ltb_spec 0 n); destruct rep; lia.
  - intros Hs. rewrite value_calculate.
    unfold adjusted_score, adjust_optimization, adjust_reputable.
    pose proof (reputation_bonus_range s).
    destruct (Z.ltb_spec 0 n); destruct rep; lia.
  - intros s' Hle. rewrite !value_calculate. unfold adjusted_score.
    apply adjust_optimization_mono, adjust_reputable_mono, Hle.
Qed.

Lemma C10_value_bounds_monotone_witness :
  Z.min 80 100 <= value (calculate_health_score 80 true 3) <= Z.max 80 100.
Proof.
  exact (proj1 (C10_value_bounds_monotone 80 true 3 ltac:(lia))).
Defined.

End ScoreFacts.

(** ** Facts about the rate limiter *)

Section RateLimitFacts.
Import Py RateLimit.

Lemma filter_length_le {A} (p : A -> bool) (l : list A) :
  (length (List.filter p l) <= length l)%nat.
Proof. induction l as [|x l IH]; simpl; [lia|]. destruct (p x); simpl; lia. Qed.

Lemma filter_length_impl {A} (p q : A -> bool) (l : list A) :
  (forall x, p x = true -> q x = true) ->
  (length (List.filter p l) <= length (List.filter q l))%nat.
Proof.
  intros Himp. induction l as [|x l IH]; simpl; [lia|].
  destruct (p x) eqn:Hp.
  - rewrite (Himp x Hp). simpl. lia.
  - destruct (q x); simpl; lia.
Qed.

Lemma filter_idem {A} (p : A -> bool) (l : list A) :
  List.filter p (List.filter p l) = List.filter p l.
Proof.
  induction l as [|x l IH]; simpl; [reflexivity|].
  destruct (p x) eqn:Hp; simpl; [rewrite Hp, IH|]; auto.
Qed.

(** The window only loses timestamps as time passes. *)
Lemma in_window_mono self t t' :
  t <= t' ->
  (length (in_window self t') <= length (in_window self t))%nat.
Proof.
  intros Hle. unfold in_window. apply filter_length_impl.
  intros ts H. apply Z.ltb_lt in H. apply Z.ltb_lt. lia.
Qed.

Lemma honor_retry_delay_now self c :
  now c <= now (honor_retry_delay self (now c) c).
Proof.
  unfold honor_retry_delay.
  destruct (Z.ltb_spec (now c) (last_retry_time self + retry_delay self));
    simpl; lia.
Qed.

(** Every duration handed to [time.sleep] by the first statement is
    positive, so that call cannot raise. *)
Lemma honor_retry_delay_sleeps self c :
  honor_retry_delay self (now c) c = c
  \/ exists d, 0 < d /\ honor_retry_delay self (now c) c = sleep d c.
Proof.
  unfold honor_retry_delay.
  destruct (Z.ltb_spec (now c) (last_retry_time self + retry_delay self)).
  - right. eexists. split; [|reflexivity]. lia.
  - now left.
Qed.


Lemma throttle_inv Q P self t c :
  1 <= Q -> max_requests self = Q -> per_minute self = P ->
  Z.of_nat (length (in_window self t)) <= Q -> t <= now c ->
  exists self' c',
    throttle self t c = (Return tt, self', c')
    /\ quota_inv Q P (self', c') /\ now c <= now c'.
Proof.
  intros HQ Hmax Hper Hinv Hle. unfold throttle.
  change (prune self t) with (in_window self t).
  set (kept := in_window self t) in *.
  assert (Hkept : forall ts, In ts kept -> t - ts < per_minute self * 60).
  { intros ts Hin. apply List.filter_In in Hin as [_ H]. now apply Z.ltb_lt in H. }
  destruct (Z.leb_spec (max_requests self) (Z.of_nat (length kept))) as [Hfull|Hfree].
  - destruct kept as [|oldest rest] eqn:Ek; [simpl in Hfull; lia|].
    eexists _, _. split; [reflexivity|].
    assert (Hw : 0 < per_minute self * 60 - (t - oldest)).
    { specialize (Hkept oldest (or_introl eq_refl)). lia. }
    split; [|simpl; lia].
    unfold quota_inv, in_window; simpl. repeat split; auto.
    destruct (Z.ltb_spec (now c + (per_minute self * 60 - (t - oldest)) - oldest)
                         (per_minute self * 60)); [lia|].
    rewrite List.filter_app, List.length_app.
    pose proof (filter_length_le
      (fun ts => now c + (per_minute self * 60 - (t - oldest)) - ts
                 <? per_minute self * 60) rest).
    pose proof (filter_length_le
      (fun ts => now c + (per_minute self * 60 - (t - oldest)) - ts
                 <? per_minute self * 60) [t]).
    simpl length in *. lia.
  - eexists _, _. split; [reflexivity|]. split; [|lia].
    unfold quota_inv, in_window; simpl. repeat split; auto.
    rewrite List.filter_app, List.length_app.
    pose proof (filter_length_le
      (fun ts => now c - ts <? per_minute self * 60) kept).
    pose proof (filter_length_le
      (fun ts => now c - ts <? per_minute self * 60) [t]).
    simpl length in *. lia.
Qed.

Lemma wait_if_needed_inv Q P self c :
  1 <= Q -> quota_inv Q P (self, c) ->
  exists self' c',
    wait_if_needed self c = (Return tt, self', c')
    /\ quota_inv Q P (self', c') /\ now c <= now c'.
Proof.
  intros HQ (Hmax & Hper & Hinv). simpl in *. unfold wait_if_needed.
  pose proof (honor_retry_delay_now self c) as Hh.
  destruct (throttle_inv Q P self (now c) (honor_retry_delay self (now c) c))
    as (self' & c' & E & HI & Hn); auto.
  exists self', c'. repeat split; try apply HI; auto. lia.
Qed.

Lemma run_op_inv Q P o st :
  1 <= Q -> quota_inv Q P st ->
  exists st', run_op o st = Return st' /\ quota_inv Q P st'.
Proof.
  intros HQ HI. destruct st as [self c]. destruct o as [|dt|error]; simpl.
  - destruct (wait_if_needed_inv Q P self c HQ HI) as (self' & c' & E & HI' & _).
    rewrite E. eauto.
  - eexists. split; [reflexivity|].
    destruct HI as (Hmax & Hper & Hinv). repeat split; auto. simpl in *.
    pose proof (in_window_mono self (now c) (now c + Z.of_N dt) ltac:(lia)).
    lia.
  - eexists. split; [reflexivity|].
    destruct HI as (Hmax & Hper & Hinv). repeat split; auto.
Qed.

Lemma run_inv Q P ops : forall st,
  1 <= Q -> quota_inv Q P st ->
  exists st', run ops st = Return st' /\ quota_inv Q P st'.
Proof.
  induction ops as [|o ops IH]; intros st HQ HI; simpl.
  - eauto.
  - destruct (run_op_inv Q P o st HQ HI) as (st' & E & HI'). rewrite E.
    now apply IH.
Qed.

(** C6. Starting from a fresh limiter with quota [Q >= 1] and a window of
    [P * 60] seconds (60 and 60 by default), every sequence of operations
    runs to completion and leaves at most [Q] recorded timestamps inside
    the window that trails the clock; this holds in particular right after
    each acquire has recorded its call.  When a retry deadline
    [last_retry_time + retry_delay] lies ahead, acquire first sleeps the
    remaining time, and the pruning and the count check run on the clock
    that has reached the deadline. *)
Theorem C6_window_quota_and_retry_deadline (Q P t0 : Z) (ops : list op) :
  1 <= Q ->
  (exists self c,
      run (ops ++ [Acquire]) (init Q P, Clock t0 []) = Return (self, c)
      /\ Z.of_nat (length (List.filter (fun ts => now c - ts <? P * 60)
                                       (request_timestamps self))) <= Q)
  /\ (exists self c,
      run ops (init Q P, Clock t0 []) = Return (self, c)
      /\ Z.of_nat (length (List.filter (fun ts => now c - ts <? P * 60)
                                       (request_timestamps self))) <= Q)
  /\ (forall self c,
        now c < last_retry_time self + retry_delay self ->
        let deadline := last_retry_time self + retry_delay self in
        let c1 := sleep (deadline - now c) c in
        wait_if_needed self c = throttle self (now c) c1
        /\ now c1 = deadline
        /\ slept c1 = slept c ++ [deadline - now c]).
Proof.
  intros HQ.
  assert (H0 : quota_inv Q P (init Q P, Clock t0 [])).
  { repeat split; simpl; lia. }
  repeat split.
  - destruct (run_inv Q P (ops ++ [Acquire]) _ HQ H0) as ([self c] & E & HI).
    exists self, c. split; [exact E|].
    destruct HI as (_ & Hper & H). simpl in *. unfold in_window in H.
    now rewrite Hper in H.
  - destruct (run_inv Q P ops _ HQ H0) as ([self c] & E & HI).
    exists self, c. split; [exact E|].
    destruct HI as (_ & Hper & H). simpl in *. unfold in_window in H.
    now rewrite Hper in H.
  - unfold wait_if_needed, honor_retry_delay.
    destruct (Z.ltb_spec (now c) (last_retry_time self + retry_delay self));
      [reflexivity|lia].
  - simpl. lia.
Qed.

(** The list itself is pruned only at the next call: after a wait on a full
    window it holds one entry more than the quota, of which the oldest has
    left the window by the time the call is recorded. *)
Example full_window_trace :
  run [Acquire; Elapse 1; Acquire; Elapse 1; Acquire] (init 2 1, Clock 0 [])
  = Return (Limiter 2 1 [0; 1; 2] 0 0, Clock 60 [58]).
Proof. reflexivity. Qed.

Lemma C6_window_quota_and_retry_deadline_witness :
  exists self c,
    run ([Acquire; Elapse 1; Acquire] ++ [Acquire]) (init 2 1, Clock 0 [])
    = Return (self, c)
    /\ Z.of_nat (length (List.filter (fun ts => now c - ts <? 1 * 60)
                                     (request_timestamps self))) <= 2.
Proof.
  exact (proj1 (C6_window_quota_and_retry_deadline 2 1 0
                  [Acquire; Elapse 1; Acquire] ltac:(lia))).
Defined.

(** With a quota of at least one, [wait_if_needed] returns; it keeps the
    configuration and the retry deadline, and ends at or after the
    deadline. *)
Lemma wait_if_needed_returns self c :
  1 <= max_requests self ->
  exists self' c',
    wait_if_needed self c = (Return tt, self', c')
    /\ max_requests self' = max_requests self
    /\ last_retry_time self' = last_retry_time self
    /\ retry_delay self' = retry_delay self
    /\ now c <= now c'
    /\ last_retry_time self + retry_delay self <= now c'.
Proof.
  intros HQ. unfold wait_if_needed, throttle.
  assert (Hh : now c <= now (honor_retry_delay self (now c) c)
               /\ last_retry_time self + retry_delay self
                  <= now (honor_retry_delay self (now c) c)).
  { unfold honor_retry_delay.
    destruct (Z.ltb_spec (now c) (last_retry_time self + retry_delay self));
      simpl; lia. }
  set (c1 := honor_retry_delay self (now c) c) in *.
  assert (Hkept : forall ts, In ts (prune self (now c)) ->
                             now c - ts < per_minute self * 60).
  { intros ts Hin. apply List.filter_In in Hin as [_ H].
    now apply Z.ltb_lt in H. }
  destruct (Z.leb_spec (max_requests self)
                       (Z.of_nat (length (prune self (now c))))) as [Hfull|Hfree].
  - destruct (prune self (now c)) as [|oldest rest]; [simpl in Hfull; lia|].
    specialize (Hkept oldest (or_introl eq_refl)).
    eexists _, _. split; [reflexivity|]. simpl. repeat split; lia.
  - eexists _, _. split; [reflexivity|]. simpl. repeat split; lia.
Qed.

Lemma starts_with_lower sub s :
  PyStr.starts_with sub s = true ->
  PyStr.starts_with (PyStr.lower sub) (PyStr.lower s) = true.
Proof.
  revert s. induction sub as [|a sub IH]; intros [|b s] H; simpl in *;
    try reflexivity; try discriminate.
  apply andb_prop in H as [Hab Hs]. apply Ascii.eqb_eq in Hab as ->.
  now rewrite Ascii.eqb_refl, IH.
Qed.

Lemma contains_lower sub s :
  PyStr.contains sub s = true ->
  PyStr.contains (PyStr.lower sub) (PyStr.lower s) = true.
Proof.
  induction s as [|c s IH]; intros H.
  - now apply (starts_with_lower sub EmptyString).
  - change (PyStr.starts_with sub (String c s) || PyStr.contains sub s = true) in H.
    change (PyStr.starts_with (PyStr.lower sub) (PyStr.lower (String c s))
            || PyStr.contains (PyStr.lower sub) (PyStr.lower s) = true).
    apply orb_prop in H as [H|H].
    + now rewrite (starts_with_lower sub (String c s) H).
    + rewrite (IH H). apply orb_true_r.
Qed.

(** An error text that contains "quota" or "429" passes the test of the
    [except] clause. *)
Lemma quota_text_recognized e :
  PyStr.contains "quota" (exn_str e) || PyStr.contains "429" (exn_str e) = true ->
  is_rate_limit_error e = true.
Proof.
  intros H. unfold is_rate_limit_error. apply orb_prop in H as [H|H].
  - pose proof (contains_lower "quota" (exn_str e) H) as Hl.
    change (PyStr.lower "quota") with "quota" in Hl. now rewrite Hl.
  - rewrite H. apply orb_true_r.
Qed.

(** C5. Around any decorated call, with the limiter of the decorator
    (quota at least one): when the first invocation raises an error whose
    text contains "quota" (in any letter case) or "429", the wrapper
    stores the retry deadline taken from the error (30 seconds by
    default), waits until that deadline has passed and invokes the call
    a second and last time, whose outcome, returned or raised, is the
    outcome of the wrapper; any other error of the first invocation is
    raised again at once, after a single invocation. *)
Theorem C5_retry_once_on_quota {S A : Type}
    (func : S -> outcome A * S * N) (w : world (S:=S)) :
  1 <= max_requests (limiter w) ->
  (forall e,
     PyStr.contains "quota" (exn_str e) || PyStr.contains "429" (exn_str e) = true ->
     is_rate_limit_error e = true)
  /\ exists w1,
    acquire w = (Return tt, w1)
    /\ forall e w2, invoke func w1 = (Raise e, w2) ->
       (is_rate_limit_error e = true ->
        exists w4,
          acquire (World (handle_rate_limit_error (limiter w2) e (clk w2))
                         (clk w2) (calls w2) (app w2)) = (Return tt, w4)
          /\ wrapper func w = invoke func w4
          /\ calls (snd (wrapper func w)) = (calls w + 2)%nat
          /\ last_retry_time (limiter w4) = now (clk w2)
          /\ retry_delay (limiter w4)
             = match exn_retry_delay e with
               | RetryDelaySeconds seconds => seconds
               | _ => 30
               end
          /\ last_retry_time (limiter w4) + retry_delay (limiter w4)
             <= now (clk w4))
       /\ (is_rate_limit_error e = false ->
           wrapper func w = (Raise e, w2) /\ calls w2 = (calls w + 1)%nat).
Proof.
  intros HQ. split; [exact quota_text_recognized|].
  destruct (wait_if_needed_returns (limiter w) (clk w) HQ)
    as (self1 & c1 & E1 & Hmax1 & _).
  exists (World self1 c1 (calls w) (app w)).
  assert (Ea : acquire w = (Return tt, World self1 c1 (calls w) (app w))).
  { unfold acquire. now rewrite E1. }
  split; [exact Ea|]. intros e w2 Einv.
  assert (Hw2 : limiter w2 = self1 /\ calls w2 = Datatypes.S (calls w)).
  { unfold invoke in Einv. simpl in Einv.
    destruct (func (app w)) as [[r s'] dt]. inversion Einv; subst. now simpl. }
  destruct Hw2 as [Hl2 Hc2].
  split; intros Hrl.
  - set (self3 := handle_rate_limit_error (limiter w2) e (clk w2)).
    assert (HQ3 : 1 <= max_requests self3).
    { unfold self3. simpl. rewrite Hl2. lia. }
    destruct (wait_if_needed_returns self3 (clk w2) HQ3)
      as (self4 & c4 & E4 & _ & Hlast & Hdelay & _ & Hdead).
    exists (World self4 c4 (calls w2) (app w2)).
    assert (Ew : wrapper func w = invoke func (World self4 c4 (calls w2) (app w2))).
    { unfold wrapper. rewrite Ea, Einv. unfold on_exception. rewrite Hrl.
      fold self3. unfold acquire at 1. simpl. now rewrite E4. }
    repeat split.
    + unfold acquire. simpl. now rewrite E4.
    + exact Ew.
    + rewrite Ew. unfold invoke. simpl.
      destruct (func (app w2)) as [[r s'] dt]. simpl. lia.
    + simpl. rewrite Hlast. reflexivity.
    + simpl. rewrite Hdelay. unfold self3. simpl.
      destruct (exn_retry_delay e); reflexivity.
    + simpl. rewrite Hlast, Hdelay. exact Hdead.
  - split; [|lia].
    unfold wrapper. rewrite Ea, Einv. unfold on_exception. now rewrite Hrl.
Qed.

Lemma C5_retry_once_on_quota_witness :
  calls (snd (wrapper exhausted_call start_world)) = 2%nat.
Proof.
  destruct (C5_retry_once_on_quota exhausted_call start_world)
    as (_ & w1 & Ha & H); [simpl; lia|].
  vm_compute in Ha. injection Ha as <-.
  destruct (H _ _ eq_refl) as [Hrl _].
  destruct (Hrl eq_refl) as (w4 & _ & _ & Hcalls & _).
  exact Hcalls.
Defined.

End RateLimitFacts.

(** ** Facts about text *)

Section TextFacts.

Lemma append_length (s t : string) :
  String.length (s +:+ t) = (String.length s + String.length t)%nat.
Proof. induction s as [|c s IH]; simpl; [reflexivity|]. now rewrite IH. Qed.

Lemma append_assoc (s t u : string) : (s +:+ t) +:+ u = s +:+ (t +:+ u).
Proof. induction s as [|c s IH]; simpl; [reflexivity|]. now rewrite IH. Qed.

Lemma append_nil_r (s : string) : s +:+ EmptyString = s.
Proof. induction s as [|c s IH]; simpl; [reflexivity|]. now rewrite IH. Qed.

Lemma append_inv_tail (s1 s2 t : string) : s1 +:+ t = s2 +:+ t -> s1 = s2.
Proof.
  revert s2. induction s1 as [|c s1 IH]; intros [|d s2] H; simpl in H.
  - reflexivity.
  - apply (f_equal String.length) in H. simpl in H.
    rewrite append_length in H. lia.
  - apply (f_equal String.length) in H. simpl in H.
    rewrite append_length in H. lia.
  - injection H as -> H. f_equal. now apply IH.
Qed.

End TextFacts.

(** ** Facts about the page cache *)

Section CacheFacts.
Import Py PyStr Site Cache.

Ltac each_char c := destruct c as [[] [] [] [] [] [] [] []].


Lemma read_repr_char_squote c r :
  read_char (repr_char squote c +:+ r) = Some (c, r).
Proof. each_char c; reflexivity. Qed.

Lemma read_repr_char_dquote c r :
  read_char (repr_char dquote c +:+ r) = Some (c, r).
Proof. each_char c; reflexivity. Qed.

Lemma repr_quote_cases s : repr_quote s = squote \/ repr_quote s = dquote.
Proof.
  unfold repr_quote.
  destruct (mem_char squote s && negb (mem_char dquote s)); auto.
Qed.

Lemma read_repr_char q c r :
  q = squote \/ q = dquote ->
  read_char (repr_char q c +:+ r) = Some (c, r).
Proof.
  intros [-> | ->]; [apply read_repr_char_squote | apply read_repr_char_dquote].
Qed.

Lemma repr_body_inj q s1 : forall s2,
  q = squote \/ q = dquote ->
  repr_body q s1 = repr_body q s2 -> s1 = s2.
Proof.
  induction s1 as [|c1 s1 IH]; intros [|c2 s2] Hq H; simpl in H.
  - reflexivity.
  - apply (f_equal read_char) in H. rewrite read_repr_char in H by exact Hq.
    discriminate.
  - apply (f_equal read_char) in H. rewrite read_repr_char in H by exact Hq.
    discriminate.
  - apply (f_equal read_char) in H.
    rewrite !read_repr_char in H by exact Hq.
    injection H as -> H. f_equal. now apply IH.
Qed.

Lemma repr_inj s1 s2 : repr s1 = repr s2 -> s1 = s2.
Proof.
  unfold repr. intros H. injection H as Hq H.
  rewrite <- Hq in H. apply append_inv_tail in H.
  eapply repr_body_inj; [apply repr_quote_cases | exact H].
Qed.

(** Distinct URLs have distinct keys in the decorator's dictionary. *)
Lemma cache_key_inj url1 url2 : cache_key url1 = cache_key url2 -> url1 = url2.
Proof.
  unfold cache_key. intros H. apply append_inv_tail in H.
  assert (H' : repr url1 +:+ ",)" = repr url2 +:+ ",)").
  { revert H. generalize (repr url1 +:+ ",)") (repr url2 +:+ ",)").
    intros a b. simpl. congruence. }
  apply append_inv_tail in H'. now apply repr_inj.
Qed.

End CacheFacts.

Section CacheCalls.
Import Py Site Cache.

Lemma cache_key_ne url1 url2 : url1 <> url2 -> cache_key url1 <> cache_key url2.
Proof. intros Hne H. apply Hne. now apply cache_key_inj. Qed.

Lemma consistent_empty : consistent empty_state.
Proof. intros url r ts H. simpl in H. rewrite lookup_empty in H. discriminate. Qed.

(** Running the body and storing its result keeps the state consistent. *)
Lemma consistent_store net t url (s : state) :
  consistent s ->
  consistent
    (State (<[cache_key url := (fst (extract_body net url (inner s)), t)]> (cache s))
           (snd (extract_body net url (inner s)))).
Proof.
  intros Hc url' r ts. simpl. unfold extract_body.
  destruct (website_content_cache (inner s) !! url) as [d|] eqn:Ew; simpl.
  - destruct (decide (url' = url)) as [->|Hne].
    + rewrite lookup_insert_eq. intros [= <- <-]. split; [|discriminate].
      intros _. eauto.
    + rewrite lookup_insert_ne by (apply cache_key_ne; congruence).
      apply Hc.
  - destruct (net url) as [sig|e]; simpl.
    + destruct (decide (url' = url)) as [->|Hne].
      * rewrite !lookup_insert_eq. intros [= <- <-]. split; [|discriminate].
        intros _. eauto.
      * rewrite lookup_insert_ne by (apply cache_key_ne; congruence).
        rewrite lookup_insert_ne by congruence. apply Hc.
    + destruct (decide (url' = url)) as [->|Hne].
      * rewrite lookup_insert_eq. intros [= <- <-]. split; [discriminate|].
        intros _. split; [eauto | exact Ew].
      * rewrite lookup_insert_ne by (apply cache_key_ne; congruence).
        apply Hc.
Qed.

(** The two ways a call can go. *)
Lemma extract_hit net t_check t_store url s r ts :
  cache s !! cache_key url = Some (r, ts) -> t_check - ts < 600 ->
  extract_website_content net t_check t_store url s = (r, s).
Proof.
  intros E Hlt. unfold extract_website_content, cached_function. rewrite E.
  destruct (Z.ltb_spec (t_check - ts) 600); [|lia]. now destruct s.
Qed.


Lemma extract_miss net t_check t_store url s :
  is_miss t_check url s ->
  extract_website_content net t_check t_store url s
  = (fst (extract_body net url (inner s)),
     State (<[cache_key url := (fst (extract_body net url (inner s)), t_store)]>
              (cache s))
           (snd (extract_body net url (inner s)))).
Proof.
  intros Hm. unfold extract_website_content, cached_function.
  destruct Hm as [E | (r & ts & E & Hge)]; rewrite E.
  - now destruct (extract_body net url (inner s)).
  - destruct (Z.ltb_spec (t_check - ts) 600); [lia|].
    now destruct (extract_body net url (inner s)).
Qed.

Lemma hit_or_miss t_check url s :
  (exists r ts, cache s !! cache_key url = Some (r, ts) /\ t_check - ts < 600)
  \/ is_miss t_check url s.
Proof.
  unfold is_miss. destruct (cache s !! cache_key url) as [[r ts]|] eqn:E; auto.
  destruct (Z.lt_ge_cases (t_check - ts) 600); [left | right; right]; eauto.
Qed.

Lemma consistent_call c s : consistent s -> consistent (snd (do_call c s)).
Proof.
  intros Hc. unfold do_call.
  destruct (hit_or_miss (call_t_check c) (call_url c) s)
    as [(r & ts & E & Hlt) | Hm].
  - now rewrite (extract_hit _ _ _ _ _ _ _ E Hlt).
  - rewrite (extract_miss _ _ _ _ _ Hm). simpl. now apply consistent_store.
Qed.

Lemma consistent_after history : forall s,
  consistent s -> consistent (after history s).
Proof.
  induction history as [|c history IH]; intros s Hc; simpl; [exact Hc|].
  apply IH, consistent_call, Hc.
Qed.

(** After any call the dictionary of the decorator holds the returned
    result for the URL. *)
Lemma extract_stored net t_check t_store url s r s' :
  extract_website_content net t_check t_store url s = (r, s') ->
  exists ts, cache s' !! cache_key url = Some (r, ts).
Proof.
  intros E.
  destruct (hit_or_miss t_check url s) as [(r0 & ts & E0 & Hlt) | Hm].
  - rewrite (extract_hit _ _ _ _ _ _ _ E0 Hlt) in E. injection E as <- <-. eauto.
  - rewrite (extract_miss _ _ _ _ _ Hm) in E. injection E as <- <-.
    simpl. rewrite lookup_insert_eq. eauto.
Qed.

Lemma extract_other_key net t_check t_store url s url' :
  url' <> url ->
  cache (snd (extract_website_content net t_check t_store url s))
    !! cache_key url' = cache s !! cache_key url'.
Proof.
  intros Hne.
  destruct (hit_or_miss t_check url s) as [(r0 & ts & E0 & Hlt) | Hm].
  - now rewrite (extract_hit _ _ _ _ _ _ _ E0 Hlt).
  - rewrite (extract_miss _ _ _ _ _ Hm). simpl.
    now rewrite lookup_insert_ne by (apply cache_key_ne; congruence).
Qed.

(** C9. After any history of calls, when a call for a URL succeeds, a
    second call for the same URL returns the same pair and requests
    nothing from the network; less than 600 seconds after the time stamp
    of the stored entry it is answered from the decorator's dictionary
    and leaves the whole state as it is.  The key is the URL itself,
    written by [str] of the argument tuple: different URLs, for instance
    with and without a trailing slash or with different query strings,
    have different keys, and a call for one URL leaves the entries of the
    others alone. *)
Theorem C9_second_call_from_cache (history : list call)
    (net1 net2 : network) (t1 t1' t2 t2' : Z) (url : string) :
  let s0 := after history empty_state in
  let first := extract_website_content net1 t1 t1' url s0 in
  let second := extract_website_content net2 t2 t2' url (snd first) in
  snd (fst first) = true ->
  fst second = fst first
  /\ fetched (inner (snd second)) = fetched (inner (snd first))
  /\ (exists ts,
        cache (snd first) !! cache_key url = Some (fst first, ts)
        /\ (t2 - ts < 600 -> snd second = snd first))
  /\ (forall url', url' <> url ->
        cache_key url' <> cache_key url
        /\ cache (snd first) !! cache_key url' = cache s0 !! cache_key url')
  /\ cache_key "http://a.com" = "('http://a.com',){}"
  /\ cache_key "http://a.com" <> cache_key "http://a.com/"
  /\ cache_key "http://a.com/?q=1" <> cache_key "http://a.com/?q=2".
Proof.
  intros s0 first second Hok.
  assert (Hc1 : consistent (snd first)).
  { apply (consistent_call (Call net1 t1 t1' url)).
    apply consistent_after, consistent_empty. }
  destruct (extract_stored net1 t1 t1' url s0 (fst first) (snd first))
    as [ts Ets]; [apply surjective_pairing|].
  destruct (Hc1 url (fst first) ts Ets) as [Hsucc _].
  destruct (Hsucc Hok) as (d & Er & Ed).
  assert (Hsecond : fst second = fst first
                    /\ fetched (inner (snd second)) = fetched (inner (snd first))
                    /\ (t2 - ts < 600 -> snd second = snd first)).
  { subst second.
    destruct (hit_or_miss t2 url (snd first)) as [(r0 & ts0 & E0 & Hlt) | Hm].
    - rewrite (extract_hit _ _ _ _ _ _ _ E0 Hlt). simpl.
      rewrite Ets in E0. injection E0 as <- <-. auto.
    - rewrite (extract_miss _ _ _ _ _ Hm). simpl.
      unfold extract_body. rewrite Ed. simpl. repeat split; auto.
      intros Hlt. destruct Hm as [E | (r0 & ts0 & E & Hge)];
        rewrite Ets in E; [discriminate|]. injection E as <- <-. lia. }
  destruct Hsecond as (H1 & H2 & H3).
  split; [exact H1|]. split; [exact H2|]. split; [exists ts; auto|].
  split.
  { intros url' Hne. split;
      [apply cache_key_ne | apply extract_other_key]; assumption. }
  split; [reflexivity|]. split; apply cache_key_ne; discriminate.
Qed.

Lemma C9_second_call_from_cache_witness :
  fst (extract_website_content net_down 10 11 "http://a.com"
         (snd (extract_website_content net_up 0 1 "http://a.com" empty_state)))
  = fst (extract_website_content net_up 0 1 "http://a.com" empty_state).
Proof.
  exact (proj1 (C9_second_call_from_cache [] net_up net_down 0 1 10 11
                  "http://a.com" eq_refl)).
Defined.

(** C1 (as stated) fails: a failure is kept by the decorator, and a second
    call ten seconds later returns it without running the pipeline again,
    although the site has come back. *)
Lemma C1_counterexample :
  let url := "http://down.example/" in
  let first := extract_website_content net_down 0 1 url empty_state in
  let second := extract_website_content net_up 10 11 url (snd first) in
  fst first = (ErrorData "503 Server Error: Service Unavailable" url, false)
  /\ cache (snd first) !! cache_key url = Some (fst first, 1)
  /\ fst second = fst first
  /\ fetched (inner (snd second)) = [url]
  /\ fst (extract_body net_up url (inner (snd first)))
     = (Signals (WebsiteData url blank_signals), true).
Proof. vm_compute. repeat split; reflexivity. Qed.

(** C1 (amended). After any history of calls, when a call for a URL
    fails, the failure is not stored in [website_content_cache] but it is
    stored, with a time stamp, in the dictionary of the decorator
    [cached_function]; a later call for the same URL less than 600 seconds
    after that time stamp returns the stored failure and leaves the state
    as it is, and a call from 600 seconds on runs the pipeline again, with
    one more request to the network. *)
Theorem C1_failure_cached_until_expiry (history : list call)
    (net1 : network) (t1 t1' : Z) (url : string) :
  let s0 := after history empty_state in
  let first := extract_website_content net1 t1 t1' url s0 in
  snd (fst first) = false ->
  website_content_cache (inner (snd first)) !! url = None
  /\ (exists msg, fst first = (ErrorData msg url, false))
  /\ exists ts,
       cache (snd first) !! cache_key url = Some (fst first, ts)
       /\ forall (net2 : network) (t2 t2' : Z),
            let second := extract_website_content net2 t2 t2' url (snd first) in
            (t2 - ts < 600 -> second = (fst first, snd first))
            /\ (600 <= t2 - ts ->
                fst second
                = match net2 url with
                  | Return sig => (Signals (WebsiteData url sig), true)
                  | Raise e => (ErrorData (exn_str e) url, false)
                  end
                /\ fetched (inner (snd second))
                   = (fetched (inner (snd first)) ++ [url])%list).
Proof.
  intros s0 first Hfail.
  assert (Hc1 : consistent (snd first)).
  { apply (consistent_call (Call net1 t1 t1' url)).
    apply consistent_after, consistent_empty. }
  destruct (extract_stored net1 t1 t1' url s0 (fst first) (snd first))
    as [ts Ets]; [apply surjective_pairing|].
  destruct (Hc1 url (fst first) ts Ets) as [_ Hf].
  destruct (Hf Hfail) as (Hmsg & Hnone).
  repeat split; auto.
  exists ts. split; [exact Ets|]. intros net2 t2 t2' second. split; intros Ht.
  - subst second. apply (extract_hit _ _ _ _ _ _ _ Ets Ht).
  - assert (Hm : is_miss t2 url (snd first)) by (right; eauto).
    subst second. rewrite (extract_miss _ _ _ _ _ Hm). simpl.
    unfold extract_body. rewrite Hnone.
    destruct (net2 url); simpl; auto.
Qed.

Lemma C1_failure_cached_until_expiry_witness :
  website_content_cache
    (inner (snd (extract_website_content net_down 0 1 "http://down.example/"
                   empty_state))) !! "http://down.example/" = None.
Proof.
  exact (proj1 (C1_failure_cached_until_expiry [] net_down 0 1
                  "http://down.example/" eq_refl)).
Defined.

End CacheCalls.

(** ** Facts about [is_large_dimension] *)

Section DimensionFacts.
Import PyStr Dimension.


Ltac each_char c := destruct c as [[] [] [] [] [] [] [] []].

(** What a digit or a point is not. *)
Lemma numeric_char_facts c :
  numeric_char c = true ->
  is_space c = false
  /\ lower_char c = c
  /\ Ascii.eqb c "_" = false /\ Ascii.eqb c "%" = false
  /\ Ascii.eqb c "-" = false /\ Ascii.eqb c "+" = false
  /\ Ascii.eqb c "i" = false /\ Ascii.eqb c "n" = false
  /\ Ascii.eqb c "p" = false /\ Ascii.eqb c "e" = false
  /\ Ascii.eqb c "E" = false
  /\ Ascii.eqb c "r" = false /\ Ascii.eqb c "v" = false.
Proof. each_char c; intros H; try discriminate H; repeat split. Qed.

Lemma is_digit_numeric c : is_digit c = true -> numeric_char c = true.
Proof. intros H. unfold numeric_char. now rewrite H. Qed.

Lemma is_digit_not_point c : is_digit c = true -> Ascii.eqb c "." = false.
Proof. each_char c; intros H; try discriminate H; reflexivity. Qed.

Lemma all_chars_app p s t :
  all_chars p (s +:+ t) = all_chars p s && all_chars p t.
Proof.
  induction s as [|c s IH]; simpl; [reflexivity|].
  now rewrite IH, andb_assoc.
Qed.

Lemma all_chars_impl (p q : ascii -> bool) s :
  (forall c, p c = true -> q c = true) ->
  all_chars p s = true -> all_chars q s = true.
Proof.
  intros Hpq. induction s as [|c s IH]; simpl; [reflexivity|].
  intros H. apply andb_prop in H as [Hc Hs]. now rewrite (Hpq c Hc), IH.
Qed.

Lemma isdigit_all d : isdigit d = true -> all_chars is_digit d = true.
Proof. destruct d; [discriminate | exact (fun H => H)]. Qed.

Lemma all_numeric_lower s : all_chars numeric_char s = true -> lower s = s.
Proof.
  induction s as [|c s IH]; simpl; [reflexivity|].
  intros H. apply andb_prop in H as [Hc Hs].
  destruct (numeric_char_facts c Hc) as (_ & -> & _). now rewrite IH.
Qed.

Lemma lower_app s t : lower (s +:+ t) = lower s +:+ lower t.
Proof. induction s as [|c s IH]; simpl; [reflexivity|]. now rewrite IH. Qed.

Lemma starts_with_refl s t : starts_with s (s +:+ t) = true.
Proof.
  induction s as [|c s IH]; simpl; [reflexivity|].
  now rewrite Ascii.eqb_refl, IH.
Qed.

Lemma contains_starts sub s : starts_with sub s = true -> contains sub s = true.
Proof. intros H. destruct s; simpl; [exact H | now rewrite H]. Qed.

Lemma contains_suffix sub s t : contains sub (s +:+ sub +:+ t) = true.
Proof.
  induction s as [|c s IH]; simpl.
  - apply contains_starts, starts_with_refl.
  - rewrite IH. apply orb_true_r.
Qed.

Lemma contains_end sub s : contains sub (s +:+ sub) = true.
Proof.
  pose proof (contains_suffix sub s EmptyString) as H.
  now rewrite append_nil_r in H.
Qed.

Lemma contains_absent a sub s :
  mem_char a s = false -> contains (String a sub) s = false.
Proof.
  induction s as [|c s IH]; simpl; [reflexivity|].
  intros H. apply orb_false_elim in H as [Hc Hs].
  rewrite (IH Hs), orb_false_r. rewrite Ascii.eqb_sym in Hc. now rewrite Hc.
Qed.

Lemma mem_char_app a s t :
  mem_char a (s +:+ t) = mem_char a s || mem_char a t.
Proof.
  induction s as [|c s IH]; simpl; [reflexivity|].
  now rewrite IH, orb_assoc.
Qed.

Lemma mem_char_absent (p : ascii -> bool) a s :
  (forall c, p c = true -> Ascii.eqb c a = false) ->
  all_chars p s = true -> mem_char a s = false.
Proof.
  intros Hp. induction s as [|c s IH]; simpl; [reflexivity|].
  intros H. apply andb_prop in H as [Hc Hs]. now rewrite (Hp c Hc), IH.
Qed.

Lemma replace_from_skip old new r :
  replace_from old new (String.length r) r = EmptyString.
Proof. induction r as [|c r IH]; simpl; [reflexivity | exact IH]. Qed.

(** Removing the unit that closes a value whose number does not contain
    the first character of the unit. *)
Lemma replace_unit a rest s :
  mem_char a s = false ->
  replace (String a rest) EmptyString (s +:+ String a rest) = s.
Proof.
  unfold replace. induction s as [|c s IH]; intros H.
  - assert (Hself : starts_with rest rest = true).
    { pose proof (starts_with_refl rest EmptyString) as Hr.
      now rewrite append_nil_r in Hr. }
    simpl. rewrite Ascii.eqb_refl, Hself. simpl.
    rewrite Nat.sub_0_r. apply replace_from_skip.
  - simpl in H. apply orb_false_elim in H as [Hc Hs].
    cbn [String.append replace_from starts_with].
    rewrite Ascii.eqb_sym in Hc. rewrite Hc. simpl. now rewrite IH.
Qed.

Lemma filter_chars_app p s t :
  filter_chars p (s +:+ t) = filter_chars p s +:+ filter_chars p t.
Proof.
  induction s as [|c s IH]; simpl; [reflexivity|].
  destruct (p c); simpl; now rewrite IH.
Qed.

Lemma filter_chars_all p s : all_chars p s = true -> filter_chars p s = s.
Proof.
  induction s as [|c s IH]; simpl; [reflexivity|].
  intros H. apply andb_prop in H as [-> Hs]. now rewrite IH.
Qed.

Lemma numeric_not_float_space c :
  numeric_char c = true -> is_float_space c = false.
Proof. each_char c; intros H; try discriminate H; reflexivity. Qed.

Lemma rstrip_float_no_space s :
  all_chars (fun c => negb (is_float_space c)) s = true -> rstrip_float s = s.
Proof.
  induction s as [|c s IH]; simpl; [reflexivity|].
  intros H. apply andb_prop in H as [Hc Hs]. rewrite (IH Hs).
  destruct s; [|reflexivity].
  apply negb_true_iff in Hc. now rewrite Hc.
Qed.

Lemma strip_float_numeric s :
  all_chars numeric_char s = true -> strip_float s = s.
Proof.
  intros H. unfold strip_float.
  assert (Hl : lstrip_float s = s).
  { destruct s as [|c s]; [reflexivity|]. simpl in *.
    apply andb_prop in H as [Hc _].
    now rewrite (numeric_not_float_space c Hc). }
  rewrite Hl. apply rstrip_float_no_space.
  eapply all_chars_impl; [|exact H].
  intros c Hc. now rewrite (numeric_not_float_space c Hc).
Qed.

Lemma drop_underscores_numeric s : forall prev,
  Ascii.eqb prev "_" = false ->
  all_chars numeric_char s = true ->
  drop_underscores prev s = Some s.
Proof.
  induction s as [|c s IH]; intros prev Hp H; simpl.
  - now rewrite Hp.
  - simpl in H. apply andb_prop in H as [Hc Hs].
    destruct (numeric_char_facts c Hc) as (_ & _ & Hu & _).
    rewrite Hu, Hp. simpl. now rewrite (IH c Hu Hs).
Qed.

Lemma span_digits_app d r :
  all_chars is_digit d = true ->
  match r with String c _ => is_digit c = false | EmptyString => True end ->
  span_digits (d +:+ r) = (d, r).
Proof.
  intros Hd Hr. induction d as [|c d IH]; simpl.
  - destruct r as [|c r]; [reflexivity|]. simpl. now rewrite Hr.
  - simpl in Hd. apply andb_prop in Hd as [Hc Hd]. now rewrite Hc, IH.
Qed.

Lemma decimal_text_numeric n :
  wf_decimal n -> all_chars numeric_char (decimal_text n) = true.
Proof.
  intros [Hi Hf]. unfold decimal_text.
  assert (Hip : all_chars numeric_char (int_part n) = true).
  { eapply all_chars_impl; [apply is_digit_numeric | now apply isdigit_all]. }
  destruct (frac_part n) as [f|]; [|exact Hip].
  rewrite all_chars_app, Hip. simpl.
  eapply all_chars_impl; [apply is_digit_numeric | exact Hf].
Qed.

Lemma decimal_text_head n :
  wf_decimal n ->
  exists c s, decimal_text n = String c s /\ is_digit c = true.
Proof.
  intros [Hi Hf]. unfold decimal_text.
  destruct (int_part n) as [|c d] eqn:E; [discriminate Hi|].
  simpl in Hi. apply andb_prop in Hi as [Hc _].
  destruct (frac_part n); simpl; eauto.
Qed.

Lemma parse_decimal_text n :
  wf_decimal n ->
  parse_decimal (decimal_text n)
  = Some (digits_value 0 (int_part n +:+ frac_digits n),
          - Z.of_nat (String.length (frac_digits n))).
Proof.
  intros [Hi Hf]. unfold parse_decimal, decimal_text, frac_digits.
  pose proof (isdigit_all _ Hi) as Hall.
  destruct (frac_part n) as [f|].
  - rewrite (span_digits_app (int_part n) (String "." f) Hall eq_refl).
    simpl. rewrite <- (append_nil_r f) at 1.
    rewrite (span_digits_app f EmptyString Hf I).
    destruct (int_part n +:+ f) eqn:E.
    + destruct (int_part n); discriminate.
    + reflexivity.
  - rewrite <- (append_nil_r (int_part n)) at 1.
    rewrite (span_digits_app (int_part n) EmptyString Hall I).
    rewrite append_nil_r.
    destruct (int_part n) eqn:E; [discriminate Hi | reflexivity].
Qed.

(** [float] reads a numeral as the number it denotes. *)
Lemma py_float_decimal_text n :
  wf_decimal n ->
  py_float (decimal_text n)
  = Some (FDec false (digits_value 0 (int_part n +:+ frac_digits n))
               (- Z.of_nat (String.length (frac_digits n)))).
Proof.
  intros Hwf. unfold py_float.
  pose proof (decimal_text_numeric n Hwf) as Hnum.
  rewrite (strip_float_numeric _ Hnum).
  rewrite (drop_underscores_numeric _ Ascii.zero eq_refl Hnum).
  destruct (decimal_text_head n Hwf) as (c & s & E & Hc).
  pose proof (parse_decimal_text n Hwf) as Hp. rewrite E in *.
  destruct (numeric_char_facts c (is_digit_numeric c Hc))
    as (_ & _ & _ & _ & Hm & Hpl & Hi & Hn & _).
  unfold parse_sign. rewrite Hm, Hpl.
  rewrite (all_numeric_lower _ Hnum).
  cbn [String.eqb]. rewrite Hi, Hn. simpl. now rewrite Hp.
Qed.

Lemma is_large_nonempty c s :
  is_large (String c s) = classify_dimension (String c s) default_threshold.
Proof. reflexivity. Qed.

Lemma isdigit_unit s c u :
  is_digit c = false -> isdigit (s +:+ String c u) = false.
Proof.
  intros Hc. assert (H : all_chars is_digit (s +:+ String c u) = false).
  { rewrite all_chars_app. simpl. rewrite Hc. apply andb_false_r. }
  destruct (s +:+ String c u); [reflexivity | exact H].
Qed.

Lemma numeral_without a n :
  (forall c, numeric_char c = true -> Ascii.eqb c a = false) ->
  wf_decimal n -> mem_char a (decimal_text n) = false.
Proof.
  intros Ha Hwf. eapply mem_char_absent; [exact Ha|].
  now apply decimal_text_numeric.
Qed.


(** [int] reads at most 4300 digits. *)
Lemma int_gt_value d T :
  int_gt d T
  = (Z.of_nat (String.length d) <=? int_max_str_digits) && (T <? int_of_digits d).
Proof. unfold int_gt, py_int. now destruct (_ <=? _). Qed.




Lemma filter_numeral n u :
  wf_decimal n -> filter_chars numeric_char u = EmptyString ->
  filter_chars numeric_char (decimal_text n +:+ u) = decimal_text n.
Proof.
  intros Hwf Hu. rewrite filter_chars_app, Hu, append_nil_r.
  apply filter_chars_all. now apply decimal_text_numeric.
Qed.

Lemma lower_numeral n u :
  wf_decimal n -> lower u = u ->
  lower (decimal_text n +:+ u) = decimal_text n +:+ u.
Proof.
  intros Hwf Hu. rewrite lower_app, Hu.
  now rewrite (all_numeric_lower _ (decimal_text_numeric n Hwf)).
Qed.

Lemma numeral_unit_without a n u :
  (forall c, numeric_char c = true -> Ascii.eqb c a = false) ->
  wf_decimal n -> mem_char a u = false ->
  mem_char a (decimal_text n +:+ u) = false.
Proof.
  intros Ha Hwf Hu. now rewrite mem_char_app, (numeral_without a n Ha Hwf), Hu.
Qed.







End DimensionFacts.

(** ** Facts about the two searches of the parser *)

Section SearchFacts.
Import PyStr Json Report.

Lemma take_drop n s : s = take n s +:+ drop n s.
Proof.
  revert s. induction n as [|n IH]; intros [|c s]; simpl; try reflexivity.
  now rewrite <- IH.
Qed.

Lemma starts_with_split sub s :
  starts_with sub s = true -> s = sub +:+ drop (String.length sub) s.
Proof.
  revert s. induction sub as [|a sub IH]; intros [|b s] H; simpl in *;
    try reflexivity; try discriminate.
  apply andb_prop in H as [Hab Hs]. apply Ascii.eqb_eq in Hab as ->.
  now rewrite <- (IH s Hs).
Qed.

Lemma find_unfold sub s :
  find sub s
  = if starts_with sub s then Some O
    else match s with
         | EmptyString => None
         | String _ s' => option_map S (find sub s')
         end.
Proof. destruct s; reflexivity. Qed.

(** [find] answers the leftmost place where the pattern starts. *)
Lemma find_spec sub s : forall i,
  find sub s = Some i ->
  starts_with sub (drop i s) = true
  /\ forall k, (k < i)%nat -> starts_with sub (drop k s) = false.
Proof.
  induction s as [|c s IH]; intros i H; rewrite find_unfold in H.
  - destruct (starts_with sub EmptyString) eqn:E; [|discriminate].
    injection H as <-. split; [exact E | intros k Hk; lia].
  - destruct (starts_with sub (String c s)) eqn:E.
    + injection H as <-. split; [exact E | intros k Hk; lia].
    + destruct (find sub s) as [i'|] eqn:Ef; [|discriminate].
      injection H as <-. destruct (IH i' eq_refl) as [Hs Hk]. split.
      * exact Hs.
      * intros [|k] Hlt; [exact E | apply Hk; lia].
Qed.

Lemma rfind_char_spec c s : forall j,
  rfind_char c s = Some j ->
  s = take j s +:+ String c (drop (S j) s)
  /\ mem_char c (drop (S j) s) = false.
Proof.
  induction s as [|a s IH]; intros j H; simpl in H; [discriminate|].
  destruct (rfind_char c s) as [j'|] eqn:E.
  - injection H as <-. destruct (IH j' eq_refl) as [Hs Hm]. split.
    + change (String a s
              = String a (take j' s +:+ String c (drop (S j') s))).
      now rewrite <- Hs.
    + exact Hm.
  - destruct (Ascii.eqb a c) eqn:Ea; [|discriminate]. injection H as <-.
    apply Ascii.eqb_eq in Ea as ->. split; [reflexivity|].
    simpl. clear IH. induction s as [|b s IHs]; [reflexivity|].
    simpl in E. destruct (rfind_char c s); [discriminate|].
    destruct (Ascii.eqb b c) eqn:Eb; [discriminate|].
    simpl. rewrite Eb. now apply IHs.
Qed.

Lemma find_char_absent c s i :
  find (String c EmptyString) s = Some i -> mem_char c (take i s) = false.
Proof.
  revert i. induction s as [|a s IH]; intros i H; rewrite find_unfold in H.
  - simpl in H. discriminate.
  - simpl starts_with in H. rewrite andb_true_r in H.
    destruct (Ascii.eqb c a) eqn:E.
    + injection H as <-. reflexivity.
    + destruct (find (String c EmptyString) s) as [i'|] eqn:Ef; [|discriminate].
      injection H as <-. simpl. rewrite Ascii.eqb_sym, E. now apply IH.
Qed.

Lemma take_snoc c rest : forall j r,
  r = take j r +:+ String c rest ->
  take (S j) r = take j r +:+ String c EmptyString.
Proof.
  induction j as [|j IH]; intros [|a r] H; simpl in *; try discriminate.
  - now injection H as ->.
  - injection H as H. f_equal. now apply IH.
Qed.

(** The span found by [search_braces] runs from the first opening brace
    of the text to its last closing brace. *)
Lemma search_braces_spec text group1 :
  search_braces text = Some group1 ->
  exists before inside after_,
    text = before +:+ group1 +:+ after_
    /\ group1 = String "{" (inside +:+ "}")
    /\ mem_char "{" before = false
    /\ mem_char "}" after_ = false.
Proof.
  unfold search_braces. destruct (find "{" text) as [i|] eqn:Ef; [|discriminate].
  destruct (rfind_char "}" (drop i text)) as [j|] eqn:Er; [|discriminate].
  intros [= <-].
  destruct (find_spec "{" text i Ef) as [Hs _].
  pose proof (find_char_absent "{" text i Ef) as Hbefore.
  pose proof (take_drop i text) as Htext.
  destruct (rfind_char_spec "}" (drop i text) j Er) as [Hsplit Hm].
  destruct (drop i text) as [|b r] eqn:Ed; [discriminate Hs|].
  change (Ascii.eqb "{" b && true = true) in Hs.
  rewrite andb_true_r in Hs. apply Ascii.eqb_eq in Hs as <-.
  destruct j as [|j]; [discriminate Hsplit|].
  change (String "{" r
          = String "{" (take j r +:+ String "}" (drop (S j) r))) in Hsplit.
  injection Hsplit as Hsplit.
  change (mem_char "}" (drop (S j) r) = false) in Hm.
  exists (take i text), (take j r), (drop (S j) r).
  change (take (S (S j)) (String "{" r)) with (String "{" (take (S j) r)).
  rewrite (take_snoc "}" (drop (S j) r) j r Hsplit).
  split; [|split; [reflexivity | split; assumption]].
  rewrite Htext at 1. f_equal. simpl. f_equal.
  rewrite append_assoc. exact Hsplit.
Qed.

Lemma find_le sub s : forall i, find sub s = Some i -> (i <= String.length s)%nat.
Proof.
  induction s as [|c s IH]; intros i H; rewrite find_unfold in H.
  - destruct (starts_with sub EmptyString); [|discriminate].
    injection H as <-. simpl. lia.
  - destruct (starts_with sub (String c s)).
    + injection H as <-. lia.
    + destruct (find sub s) as [i'|] eqn:Ef; [|discriminate].
      injection H as <-. specialize (IH i' eq_refl). simpl. lia.
Qed.

Lemma take_length n : forall s,
  (n <= String.length s)%nat -> String.length (take n s) = n.
Proof.
  induction n as [|n IH]; intros [|c s] H; simpl in *; try lia.
  now rewrite IH by lia.
Qed.

Lemma drop_drop n : forall m s, drop m (drop n s) = drop (n + m) s.
Proof.
  induction n as [|n IH]; intros m s; [reflexivity|].
  destruct s as [|c s]; simpl; [now destruct m | apply IH].
Qed.

(** A text splits at the place found into what comes before, the pattern
    and what comes after. *)
Lemma find_split sub s i :
  find sub s = Some i ->
  s = take i s +:+ sub +:+ drop (i + String.length sub) s
  /\ String.length (take i s) = i.
Proof.
  intros H. destruct (find_spec sub s i H) as [Hs _].
  apply starts_with_split in Hs. rewrite drop_drop in Hs. split.
  - rewrite <- Hs. apply take_drop.
  - apply take_length. now apply (find_le sub).
Qed.

Lemma lstrip_split s :
  exists ws, s = ws +:+ lstrip s /\ all_chars is_space ws = true.
Proof.
  induction s as [|c s (ws & Hs & Hws)].
  - exists EmptyString. now split.
  - simpl. destruct (is_space c) eqn:E.
    + exists (String c ws). simpl. rewrite E, Hws. split; [now f_equal | reflexivity].
    + exists EmptyString. now split.
Qed.

Lemma lstrip_idem s : lstrip (lstrip s) = lstrip s.
Proof.
  induction s as [|c s IH]; [reflexivity|]. simpl.
  destruct (is_space c) eqn:E; [exact IH|]. simpl. now rewrite E.
Qed.

(** The group found by [search_code_block]: the text opens with its
    leftmost fence, an optional [json] and white space; the group is what
    follows up to the next fence, without the white space at its end. *)
Lemma search_code_block_spec text group1 :
  search_code_block text = Some group1 ->
  exists before lang ws content after_,
    text = before +:+ fence +:+ lang +:+ ws +:+ content +:+ fence +:+ after_
    /\ find fence text = Some (String.length before)
    /\ lang = (if starts_with "json" (drop (String.length before + 3) text)
               then "json" else EmptyString)
    /\ all_chars is_space ws = true
    /\ lstrip (content +:+ fence +:+ after_) = content +:+ fence +:+ after_
    /\ find fence (content +:+ fence +:+ after_) = Some (String.length content)
    /\ group1 = rstrip content.
Proof.
  unfold search_code_block.
  destruct (find fence text) as [i|] eqn:Ef; [|discriminate].
  set (after_fence := drop (i + 3) text).
  set (after_lang := if starts_with "json" after_fence
                     then drop 4 after_fence else after_fence).
  destruct (find fence (lstrip after_lang)) as [j|] eqn:Ej; [|discriminate].
  intros [= <-].
  destruct (find_split fence text i Ef) as [Ht Hi].
  destruct (find_split fence (lstrip after_lang) j Ej) as [Hb Hj].
  destruct (lstrip_split after_lang) as (ws & Hws & Hall).
  exists (take i text),
         (if starts_with "json" after_fence then "json" else EmptyString),
         ws, (take j (lstrip after_lang)),
         (drop (j + String.length fence) (lstrip after_lang)).
  rewrite Hi, <- Hb. fold after_fence.
  split; [|split; [first [exact Ef | reflexivity]
                  | split; [reflexivity | split; [exact Hall|]]]].
  - rewrite <- Hws. rewrite Ht at 1. f_equal. f_equal.
    change (i + String.length fence)%nat with (i + 3)%nat. fold after_fence.
    subst after_lang. destruct (starts_with "json" after_fence) eqn:E.
    + now apply starts_with_split in E.
    + reflexivity.
  - split; [apply lstrip_idem | split; [|reflexivity]].
    rewrite Hj. exact Ej.
Qed.

End SearchFacts.

(** ** Facts about the report *)

Section ReportFacts.
Import Py Json Site Score Report.

Variable json_loads : string -> decoded.
Variable calculate_health_score_float : string -> bool -> Z -> json.

(** When nothing decodes, the parser answers the default report. *)
Lemma parse_default text :
  no_parsable_json json_loads text = true ->
  parse_json_from_response json_loads (Str text) = Return create_default_response.
Proof.
  unfold no_parsable_json, parse_json_from_response.
  destruct text as [|c s]; [reflexivity|].
  destruct (json_loads (String c s)); try discriminate.
  destruct (search_code_block (String c s)) as [g|].
  - intros H. apply andb_prop in H as [H _].
    destruct (json_loads (PyStr.strip g)); [discriminate H | reflexivity..].
  - simpl. destruct (search_braces (String c s)) as [g|]; [|reflexivity].
    intros H. destruct (json_loads g); [discriminate H | reflexivity..].
Qed.

(** The default report with the health score computed again. *)
Lemma add_health_score_default website_data :
  add_health_score calculate_health_score_float create_default_response website_data
  = Return
      (JObj
         [("overall_score", JInt 65);
          ("health_score",
           health_json
             (calculate_health_score 65 (is_reputable_domain (signals website_data))
                                     (optimization_indicators website_data)));
          ("issues",
           JArr
             [JObj [("category", JStr "Error Processing");
                    ("description",
                     JStr "We encountered an issue analyzing this website. Please try again.");
                    ("impact", JStr "High");
                    ("solution", JStr "Refresh and retry the analysis.")]])]).
Proof. reflexivity. Qed.

End ReportFacts.

Section WrapperFacts.
Import Py RateLimit.

(** A decorated call that returns at its first invocation is invoked
    once and its value is the value of the wrapper. *)
Lemma wrapper_returns {S A : Type} (func : S -> outcome A * S * N)
    (w : world (S:=S)) a s' dt :
  1 <= max_requests (limiter w) ->
  func (app w) = (Return a, s', dt) ->
  fst (wrapper func w) = Return a
  /\ app (snd (wrapper func w)) = s'
  /\ calls (snd (wrapper func w)) = Datatypes.S (calls w).
Proof.
  intros HQ Hf.
  destruct (wait_if_needed_returns (limiter w) (clk w) HQ)
    as (self1 & c1 & E1 & _).
  unfold wrapper, acquire. rewrite E1. unfold invoke. simpl. rewrite Hf.
  simpl. auto.
Qed.

End WrapperFacts.

Section ReportClaims.
Import Py Json Site Score Report.

(** C2 (as stated) fails: for a reply in plain prose and a known session
    the analysis returns the flag [True]. *)
Lemma C2_counterexample :
  no_parsable_json json_loads_ref prose_reply = true
  /\ snd (fst (analyze_website json_loads_ref no_float_score
                 (ReplyText (Str prose_reply)) sample_site "session-1"
                 sample_sessions)) = true.
Proof. split; vm_compute; reflexivity. Qed.

(** C2 (amended). For every reply in which nothing decodes, and every
    decoder: when the session is known, the analysis returns the flag
    [True] with a report whose score is 65, whose issues are the single
    "Error Processing" issue and whose health score is computed from 65
    with the bonuses of the site, and stores that report in the session,
    also through the rate limiting decorator; when the session is unknown,
    or when the model raises, it returns the fixed default report with the
    flag [False]. *)
Theorem C2_malformed_reply
    (json_loads : string -> decoded)
    (calculate_health_score_float : string -> bool -> Z -> json)
    (text : string) (website_data : website_data) (session_id : string)
    (session_data : gmap string session) :
  no_parsable_json json_loads text = true ->
  let report :=
    JObj
      [("overall_score", JInt 65);
       ("health_score",
        health_json
          (calculate_health_score 65 (is_reputable_domain (signals website_data))
                                  (optimization_indicators website_data)));
       ("issues",
        JArr
          [JObj [("category", JStr "Error Processing");
                 ("description",
                  JStr "We encountered an issue analyzing this website. Please try again.");
                 ("impact", JStr "High");
                 ("solution", JStr "Refresh and retry the analysis.")]])] in
  let analyze :=
    analyze_website json_loads calculate_health_score_float in
  (forall s, session_data !! session_id = Some s ->
     analyze (ReplyText (Str text)) website_data session_id session_data
     = ((report, true), <[session_id := set_analysis s report]> session_data)
     /\ forall (w : RateLimit.world (S:=gmap string session)) latency,
          1 <= RateLimit.max_requests (RateLimit.limiter w) ->
          RateLimit.app w = session_data ->
          fst (RateLimit.wrapper
                 (analyze_call json_loads calculate_health_score_float
                               (ReplyText (Str text)) website_data session_id latency) w)
          = Return (report, true))
  /\ (session_data !! session_id = None ->
      analyze (ReplyText (Str text)) website_data session_id session_data
      = ((create_default_response, false), session_data))
  /\ (forall e,
      analyze (GenerateRaises e) website_data session_id session_data
      = ((create_default_response, false), session_data)).
Proof.
  intros Hbad report analyze.
  assert (Htry : forall s, session_data !! session_id = Some s ->
            analyze (ReplyText (Str text)) website_data session_id session_data
            = ((report, true), <[session_id := set_analysis s report]> session_data)).
  { intros s Hs. unfold analyze, analyze_website, analyze_try.
    rewrite (parse_default json_loads text Hbad).
    rewrite add_health_score_default. now rewrite Hs. }
  repeat split.
  - now apply Htry.
  - intros w latency HQ Happ.
    eapply (wrapper_returns _ w); [exact HQ|].
    unfold analyze_call. rewrite Happ. fold analyze. now rewrite (Htry s H).
  - intros Hs. unfold analyze, analyze_website, analyze_try.
    rewrite (parse_default json_loads text Hbad).
    rewrite add_health_score_default. now rewrite Hs.
Qed.

Lemma C2_malformed_reply_witness :
  snd (fst (analyze_website json_loads_ref no_float_score
              (ReplyText (Str prose_reply)) sample_site "session-1"
              sample_sessions)) = true.
Proof.
  pose proof (proj1 (C2_malformed_reply json_loads_ref no_float_score prose_reply
                       sample_site "session-1" sample_sessions eq_refl)
                (Session (Some 0) (Some "https://example.com") None None)
                eq_refl) as [H _].
  now rewrite H.
Defined.

(** C4 (as stated) fails: when a fenced block is found and its content
    does not decode, the default report is returned although the span
    between braces decodes. *)
Lemma C4_counterexample :
  parse_json_from_response json_loads_ref (Str fenced_then_object)
  = Return create_default_response
  /\ json_loads_ref fenced_then_object = JSONDecodeError
  /\ search_code_block fenced_then_object = Some "overall_score = 90"
  /\ json_loads_ref (PyStr.strip "overall_score = 90") = JSONDecodeError
  /\ search_braces fenced_then_object = Some object_text
  /\ json_loads_ref object_text
     = Decoded (JObj [("overall_score", JInt 90); ("issues", JArr [])]).
Proof.
  split; [vm_compute; reflexivity|].
  split; [vm_compute; reflexivity|].
  split; [vm_compute; reflexivity|].
  split; [vm_compute; reflexivity|].
  split; vm_compute; reflexivity.
Qed.

(** C4 (amended). On a non-empty text the parser first decodes the whole
    text; when that fails with a decoding error it decodes the content of
    the first fenced block if there is one, and the span between the first
    opening and the last closing brace only if there is no fenced block;
    it answers the first value decoded, and the default report (score 65,
    one issue) when the step taken does not decode, when no step applies,
    and on an empty text or a value that is not a text.  It raises only
    what the decoding of the whole text raises other than a decoding
    error.  The fenced block is the one opened by the leftmost fence, and
    the span between braces runs from the first opening brace to the last
    closing brace. *)
Theorem C4_parse_strategies (json_loads : string -> decoded) (text : string) :
  text <> EmptyString ->
  let result := parse_json_from_response json_loads (Str text) in
  (forall v, json_loads text = Decoded v -> result = Return v)
  /\ (forall e, json_loads text = OtherError e -> result = Raise e)
  /\ (json_loads text = JSONDecodeError ->
      (forall group1, search_code_block text = Some group1 ->
         result = match json_loads (PyStr.strip group1) with
                  | Decoded v => Return v
                  | _ => Return create_default_response
                  end)
      /\ (search_code_block text = None ->
          (forall group1, search_braces text = Some group1 ->
             result = match json_loads group1 with
                      | Decoded v => Return v
                      | _ => Return create_default_response
                      end)
          /\ (search_braces text = None -> result = Return create_default_response)))
  /\ ((exists v, result = Return v)
      \/ (exists e, json_loads text = OtherError e /\ result = Raise e))
  /\ parse_json_from_response json_loads (Str EmptyString)
     = Return create_default_response
  /\ parse_json_from_response json_loads NotStr = Return create_default_response
  /\ dict_get "overall_score"
       (match create_default_response with JObj d => d | _ => [] end)
     = Some (JInt 65)
  /\ (exists issue,
       dict_get "issues"
         (match create_default_response with JObj d => d | _ => [] end)
       = Some (JArr [issue]))
  /\ (forall group1, search_code_block text = Some group1 ->
      exists before lang ws content after_,
        text = before +:+ fence +:+ lang +:+ ws +:+ content +:+ fence +:+ after_
        /\ PyStr.find fence text = Some (String.length before)
        /\ lang = (if PyStr.starts_with "json"
                        (PyStr.drop (String.length before + 3) text)
                   then "json" else EmptyString)
        /\ PyStr.all_chars PyStr.is_space ws = true
        /\ PyStr.lstrip (content +:+ fence +:+ after_)
           = content +:+ fence +:+ after_
        /\ PyStr.find fence (content +:+ fence +:+ after_)
           = Some (String.length content)
        /\ group1 = PyStr.rstrip content)
  /\ (forall group1, search_braces text = Some group1 ->
      exists before inside after_,
        text = before +:+ group1 +:+ after_
        /\ group1 = String "{" (inside +:+ "}")
        /\ PyStr.mem_char "{" before = false
        /\ PyStr.mem_char "}" after_ = false).
Proof.
  intros Hne result.
  assert (Hshape :
    parse_json_from_response json_loads (Str EmptyString)
    = Return create_default_response
    /\ parse_json_from_response json_loads NotStr = Return create_default_response
    /\ dict_get "overall_score"
         (match create_default_response with JObj d => d | _ => [] end)
       = Some (JInt 65)
    /\ (exists issue,
         dict_get "issues"
           (match create_default_response with JObj d => d | _ => [] end)
         = Some (JArr [issue]))
    /\ (forall group1, search_code_block text = Some group1 ->
        exists before lang ws content after_,
          text = before +:+ fence +:+ lang +:+ ws +:+ content +:+ fence +:+ after_
          /\ PyStr.find fence text = Some (String.length before)
          /\ lang = (if PyStr.starts_with "json"
                          (PyStr.drop (String.length before + 3) text)
                     then "json" else EmptyString)
          /\ PyStr.all_chars PyStr.is_space ws = true
          /\ PyStr.lstrip (content +:+ fence +:+ after_)
             = content +:+ fence +:+ after_
          /\ PyStr.find fence (content +:+ fence +:+ after_)
             = Some (String.length content)
          /\ group1 = PyStr.rstrip content)
    /\ (forall group1, search_braces text = Some group1 ->
        exists before inside after_,
          text = before +:+ group1 +:+ after_
          /\ group1 = String "{" (inside +:+ "}")
          /\ PyStr.mem_char "{" before = false
          /\ PyStr.mem_char "}" after_ = false)).
  { split; [reflexivity|]. split; [reflexivity|]. split; [reflexivity|].
    split; [eexists; reflexivity|].
    split; [exact (search_code_block_spec text) | exact (search_braces_spec text)]. }
  subst result. unfold parse_json_from_response.
  destruct text as [|c s]; [congruence|].
  destruct (json_loads (String c s)) as [v| |e] eqn:E.
  - split; [intros v' [= ->]; reflexivity|].
    split; [discriminate|]. split; [discriminate|].
    split; [left; eauto | exact Hshape].
  - split; [discriminate|]. split; [discriminate|].
    split; [intros _|split; [left | exact Hshape]].
    + split.
      * intros g Hg. now rewrite Hg.
      * intros Hnone. rewrite Hnone. split.
        -- intros g Hg. now rewrite Hg.
        -- intros Hg. now rewrite Hg.
    + destruct (search_code_block (String c s)) as [g|].
      * destruct (json_loads (PyStr.strip g)); eauto.
      * destruct (search_braces (String c s)) as [g|]; eauto.
        destruct (json_loads g); eauto.
  - split; [discriminate|].
    split; [intros e' [= ->]; reflexivity|]. split; [discriminate|].
    split; [right; eauto | exact Hshape].
Qed.

Lemma C4_parse_strategies_witness :
  parse_json_from_response json_loads_ref (Str "[]") = Return (JArr []).
Proof.
  exact (proj1 (C4_parse_strategies json_loads_ref "[]" ltac:(discriminate))
           (JArr []) eq_refl).
Defined.

End ReportClaims.

(* ================================================================== *)
(** * Further properties of the code *)
(* ================================================================== *)

(** ** Facts about the session sweep *)

Section SessionFacts.
Import Py Json Site Report Sessions.

Lemma foldl_delete_lookup (l : list string) : forall (m : gmap string session) id,
  foldl (fun m s_id => delete s_id m) m l !! id
  = if bool_decide (id ∈ l) then None else m !! id.
Proof.
  induction l as [|k l IH]; intros m id.
  - rewrite bool_decide_eq_false_2 by apply not_elem_of_nil. reflexivity.
  - cbn [foldl]. rewrite IH. destruct (decide (id = k)) as [->|Hne].
    + rewrite lookup_delete_eq.
      rewrite (bool_decide_eq_true_2 (k ∈ k :: l))
        by (apply elem_of_cons; auto).
      now destruct (bool_decide (k ∈ l)).
    + rewrite lookup_delete_ne by congruence.
      destruct (decide (id ∈ l)) as [Hin|Hnin].
      * rewrite !bool_decide_eq_true_2
          by (try apply elem_of_cons; auto).
        reflexivity.
      * rewrite !bool_decide_eq_false_2
          by (try rewrite elem_of_cons; tauto).
        reflexivity.
Qed.

(** State of the loop after the sessions of [m] have been visited. *)
Lemma sweep_loop now (sd : gmap string session) :
  forall m, m ⊆ sd ->
    let acc := map_fold (sweep_step now) (sd, []) m in
    (forall id,
       fst acc !! id
       = match m !! id with
         | Some data =>
             match timestamp data with
             | None => Some (set_timestamp data now)
             | Some _ => Some data
             end
         | None => sd !! id
         end)
    /\ (forall id,
          id ∈ snd acc
          <-> exists data ts, m !! id = Some data /\ timestamp data = Some ts
                              /\ ts < now - 3600).
Proof.
  apply (map_fold_weak_ind
    (fun acc m => m ⊆ sd ->
       (forall id,
          fst acc !! id
          = match m !! id with
            | Some data =>
                match timestamp data with
                | None => Some (set_timestamp data now)
                | Some _ => Some data
                end
            | None => sd !! id
            end)
       /\ (forall id,
             id ∈ snd acc
             <-> exists data ts, m !! id = Some data /\ timestamp data = Some ts
                                 /\ ts < now - 3600))).
  - intros _. split.
    + intros id. now rewrite lookup_empty.
    + intros id. simpl. split.
      * intros H. now apply not_elem_of_nil in H.
      * intros (data & ts & H & _). rewrite lookup_empty in H. discriminate.
  - intros i x m [acc rm] Hnone IH Hsub.
    assert (Hsub' : m ⊆ sd).
    { etrans; [apply (insert_subseteq m i x Hnone) | exact Hsub]. }
    assert (Hx : sd !! i = Some x).
    { eapply lookup_weaken; [|exact Hsub]. apply lookup_insert_eq. }
    destruct (IH Hsub') as [IH1 IH2]. simpl in IH1, IH2.
    unfold sweep_step. simpl.
    destruct (timestamp x) as [ts|] eqn:Ets.
    + destruct (Z.ltb_spec ts (now - 3600)) as [Hold|Hyoung]; simpl; split.
      * intros id. destruct (decide (id = i)) as [->|Hne].
        -- rewrite lookup_insert_eq, Ets, IH1, Hnone. exact Hx.
        -- rewrite lookup_insert_ne by congruence. apply IH1.
      * intros id. rewrite elem_of_app, list_elem_of_singleton, IH2.
        destruct (decide (id = i)) as [->|Hne].
        -- rewrite lookup_insert_eq. split; [eauto 6|auto].
        -- rewrite lookup_insert_ne by congruence. split; [|auto].
           intros [H|H]; [exact H | congruence].
      * intros id. destruct (decide (id = i)) as [->|Hne].
        -- rewrite lookup_insert_eq, Ets, IH1, Hnone. exact Hx.
        -- rewrite lookup_insert_ne by congruence. apply IH1.
      * intros id. rewrite IH2.
        destruct (decide (id = i)) as [->|Hne].
        -- rewrite lookup_insert_eq, Hnone. split.
           ++ intros (d & t & H & _). discriminate.
           ++ intros (d & t & [= <-] & Ht & Hlt). rewrite Ets in Ht.
              injection Ht as <-. lia.
        -- now rewrite lookup_insert_ne by congruence.
    + simpl. split.
      * intros id. destruct (decide (id = i)) as [->|Hne].
        -- now rewrite !lookup_insert_eq, Ets.
        -- rewrite !lookup_insert_ne by congruence. apply IH1.
      * intros id. rewrite IH2.
        destruct (decide (id = i)) as [->|Hne].
        -- rewrite lookup_insert_eq, Hnone. split.
           ++ intros (d & t & H & _). discriminate.
           ++ intros (d & t & [= <-] & Ht & _). congruence.
        -- now rewrite lookup_insert_ne by congruence.
Qed.

(** What the sweep leaves under each identifier. *)
Lemma cleanup_lookup now (sd : gmap string session) id :
  cleanup_old_sessions now sd !! id
  = match sd !! id with
    | Some data => swept now data
    | None => None
    end.
Proof.
  unfold cleanup_old_sessions.
  destruct (sweep_loop now sd sd (reflexivity sd)) as [H1 H2].
  destruct (map_fold (sweep_step now) (sd, []) sd) as [stamped rm].
  simpl in H1, H2. rewrite foldl_delete_lookup, H1. unfold swept.
  destruct (sd !! id) as [data|] eqn:E.
  - destruct (timestamp data) as [ts|] eqn:Ets.
    + destruct (Z.ltb_spec ts (now - 3600)) as [Hold|Hyoung].
      * rewrite bool_decide_eq_true_2; [reflexivity|]. apply H2. eauto.
      * rewrite bool_decide_eq_false_2; [reflexivity|].
        intros Hin. apply H2 in Hin as (d & t & Hd & Ht & Hlt).
        assert (d = data) by congruence. subst d.
        assert (t = ts) by congruence. lia.
    + rewrite bool_decide_eq_false_2; [reflexivity|].
      intros Hin. apply H2 in Hin as (d & t & Hd & Ht & _).
      assert (d = data) by congruence. subst d. congruence.
  - rewrite bool_decide_eq_false_2; [reflexivity|].
    intros Hin. apply H2 in Hin as (d & t & Hd & _). congruence.
Qed.

(** The ways [analyze_website] can end: the flag [False] with the default
    report and the sessions as they were, or the flag [True] with the
    report stored in the caller's session. *)
Lemma analyze_website_cases json_loads fh reply wd sid
    (sd : gmap string session) :
  let res := analyze_website json_loads fh reply wd sid sd in
  (res = ((create_default_response, false), sd))
  \/ (exists r s, sd !! sid = Some s
                  /\ res = ((r, true), <[sid := set_analysis s r]> sd)).
Proof.
  unfold analyze_website, analyze_try. destruct reply as [e|t]; [now left|].
  destruct (parse_json_from_response json_loads t) as [parsed|e]; [|now left].
  destruct (add_health_score fh parsed wd) as [a|e]; [|now left].
  destruct (sd !! sid) as [s|] eqn:E; [|now left].
  right. eauto.
Qed.

(** X1. The sweep removes exactly the sessions stamped more than 3600
    seconds before the clock reading, keeps the others as they are, stamps
    the sessions that have no time stamp, and creates no session. *)
Theorem X1_sweep_by_age (now : Z) (session_data : gmap string session)
    (s_id : string) :
  cleanup_old_sessions now session_data !! s_id
  = match session_data !! s_id with
    | None => None
    | Some data =>
        match timestamp data with
        | None => Some (set_timestamp data now)
        | Some ts => if ts <? now - 3600 then None else Some data
        end
    end.
Proof. apply cleanup_lookup. Qed.

(** X2. After a sweep every session left carries a time stamp that is at
    most 3600 seconds old, the sessions left were there before, and a second
    sweep at the same clock reading changes nothing. *)
Theorem X2_sweep_postcondition (now : Z) (session_data : gmap string session) :
  (forall s_id data,
     cleanup_old_sessions now session_data !! s_id = Some data ->
     exists ts, timestamp data = Some ts /\ now - 3600 <= ts
                /\ is_Some (session_data !! s_id))
  /\ cleanup_old_sessions now (cleanup_old_sessions now session_data)
     = cleanup_old_sessions now session_data.
Proof.
  split.
  - intros s_id data. rewrite cleanup_lookup. unfold swept.
    destruct (session_data !! s_id) as [d|]; [|discriminate].
    destruct (timestamp d) as [ts|] eqn:Ets.
    + destruct (Z.ltb_spec ts (now - 3600)); [discriminate|].
      intros [= <-]. exists ts. eauto.
    + intros [= <-]. exists now. simpl. split; [reflexivity|]. split; [lia|eauto].
  - apply map_eq. intros s_id. rewrite !cleanup_lookup. unfold swept.
    destruct (session_data !! s_id) as [d|]; [|reflexivity].
    destruct (timestamp d) as [ts|] eqn:Ets.
    + destruct (Z.ltb_spec ts (now - 3600)) as [Hold|Hyoung]; [reflexivity|].
      rewrite Ets. destruct (Z.ltb_spec ts (now - 3600)); [lia|reflexivity].
    + simpl. destruct (Z.ltb_spec now (now - 3600)); [lia|reflexivity].
Qed.

(** X3. An analysis does not renew a session: whatever the reply,
    [analyze_website] leaves the time stamp of every session as it was,
    so the next sweep removes the same sessions as it would have without
    the analysis. *)
Theorem X3_analysis_keeps_time_stamps
    (json_loads : string -> decoded)
    (calculate_health_score_float : string -> bool -> Z -> json)
    (reply : model_reply) (website_data : website_data) (session_id : string)
    (session_data : gmap string session) (now : Z) :
  let session_data' :=
    snd (analyze_website json_loads calculate_health_score_float reply
                         website_data session_id session_data) in
  (forall s_id,
     timestamp <$> (session_data' !! s_id) = timestamp <$> (session_data !! s_id))
  /\ dom (cleanup_old_sessions now session_data')
     = dom (cleanup_old_sessions now session_data).
Proof.
  intros sd'.
  assert (Hts : forall s_id,
            timestamp <$> (sd' !! s_id) = timestamp <$> (session_data !! s_id)).
  { intros s_id. subst sd'.
    destruct (analyze_website_cases json_loads calculate_health_score_float
                reply website_data session_id session_data)
      as [-> | (r & s & Hs & ->)]; [reflexivity|]. simpl.
    destruct (decide (s_id = session_id)) as [->|Hne].
    - now rewrite lookup_insert_eq, Hs.
    - now rewrite lookup_insert_ne by congruence. }
  split; [exact Hts|].
  apply set_eq. intros s_id. rewrite !elem_of_dom, !cleanup_lookup.
  specialize (Hts s_id). unfold swept.
  destruct (sd' !! s_id) as [d'|], (session_data !! s_id) as [d|];
    simpl in Hts; try discriminate; [|reflexivity].
  injection Hts as Hts. rewrite Hts.
  destruct (timestamp d) as [ts|]; [|split; eauto].
  destruct (ts <? now - 3600); split; intros [x Hx]; try discriminate; eauto.
Qed.

End SessionFacts.

(** ** More facts about the rate limiter *)

Section TrafficFacts.
Import Py RateLimit Traffic.

Lemma throttle_no_quota Q P t c :
  Q <= 0 -> throttle (init Q P) t c = (Raise IndexError, init Q P, c).
Proof.
  intros HQ. unfold throttle, prune. simpl.
  change (Z.of_nat 0) with 0.
  destruct (Z.leb_spec Q 0); [reflexivity | lia].
Qed.

(** X4. A limiter built with a quota of zero or less cannot be used: its
    first [wait_if_needed] raises [IndexError] on the empty list of
    timestamps, and the decorator raises that error without invoking the
    decorated call. *)
Theorem X4_no_quota_raises {S A : Type} (func : S -> outcome A * S * N)
    (Q P : Z) (w : world (S:=S)) :
  Q <= 0 -> limiter w = init Q P ->
  fst (fst (wait_if_needed (limiter w) (clk w))) = Raise IndexError
  /\ fst (wrapper func w) = Raise IndexError
  /\ calls (snd (wrapper func w)) = calls w
  /\ app (snd (wrapper func w)) = app w.
Proof.
  intros HQ Hl. unfold wrapper, acquire, wait_if_needed. rewrite Hl.
  rewrite (throttle_no_quota Q P _ _ HQ). simpl. auto.
Qed.

Lemma X4_no_quota_raises_witness :
  fst (wrapper exhausted_call (World (init 0 1) (Clock 5 []) 0 tt))
  = Raise IndexError.
Proof.
  exact (proj1 (proj2 (X4_no_quota_raises exhausted_call 0 1
                         (World (init 0 1) (Clock 5 []) 0 tt)
                         ltac:(lia) eq_refl))).
Defined.

(** X5. [wait_if_needed] sleeps at most twice, each time for a positive
    duration, and the clock advances by exactly the time slept. *)
Theorem X5_sleeps_are_positive (self : GeminiRateLimiter) (c : clock) :
  let c' := snd (wait_if_needed self c) in
  exists durations,
    slept c' = (slept c ++ durations)%list
    /\ Forall (fun d => 0 < d) durations
    /\ (length durations <= 2)%nat
    /\ now c' = now c + total durations.
Proof.
  unfold wait_if_needed, throttle.
  assert (Hkept : forall ts, In ts (prune self (now c)) ->
                             now c - ts < per_minute self * 60).
  { intros ts Hin. apply List.filter_In in Hin as [_ H].
    now apply Z.ltb_lt in H. }
  destruct (honor_retry_delay_sleeps self c) as [-> | (d & Hd & ->)].
  - destruct (max_requests self <=? _).
    + destruct (prune self (now c)) as [|oldest rest]; simpl.
      * exists []. rewrite app_nil_r. repeat split; auto. simpl. lia.
      * specialize (Hkept oldest (or_introl eq_refl)).
        eexists [_]. repeat split; [repeat constructor; lia | simpl; lia
                                    | unfold total; simpl; lia].
    + exists []. simpl. rewrite app_nil_r. repeat split; auto. simpl. lia.
  - destruct (max_requests self <=? _).
    + destruct (prune self (now c)) as [|oldest rest]; simpl.
      * exists [d]. repeat split; [repeat constructor; lia | simpl; lia
                                   | unfold total; simpl; lia].
      * specialize (Hkept oldest (or_introl eq_refl)).
        eexists [d; _]. rewrite <- app_assoc. simpl.
        repeat split; [repeat constructor; lia | lia
                       | unfold total; simpl; lia].
    + exists [d]. simpl. repeat split; [repeat constructor; lia | lia
                                        | unfold total; simpl; lia].
Qed.

Lemma StronglySorted_filter_le (p : Z -> bool) l :
  StronglySorted Z.le l -> StronglySorted Z.le (List.filter p l).
Proof.
  induction 1 as [|x l Hs IH Hx]; simpl; [constructor|].
  destruct (p x); [|exact IH]. constructor; [exact IH|].
  apply List.Forall_forall. intros y Hy. apply List.filter_In in Hy as [Hy _].
  rewrite List.Forall_forall in Hx. now apply Hx.
Qed.

Lemma StronglySorted_snoc_le l x :
  StronglySorted Z.le l -> Forall (fun y => y <= x) l ->
  StronglySorted Z.le (l ++ [x]).
Proof.
  induction 1 as [|y l Hs IH Hy]; intros Hx; simpl.
  - repeat constructor.
  - inversion Hx as [|? ? Hyx Hlx]; subst. constructor; [now apply IH|].
    apply List.Forall_app. split; [exact Hy | repeat constructor; exact Hyx].
Qed.

Lemma Forall_filter_le (p : Z -> bool) (P : Z -> Prop) l :
  Forall P l -> Forall P (List.filter p l).
Proof.
  rewrite !List.Forall_forall. intros H y Hy.
  apply List.filter_In in Hy as [Hy _]. now apply H.
Qed.

Lemma Forall_le_weaken l a b :
  a <= b -> Forall (fun ts => ts <= a) l -> Forall (fun ts => ts <= b) l.
Proof.
  intros Hab. rewrite !List.Forall_forall. intros H y Hy.
  specialize (H y Hy). simpl in H. lia.
Qed.

Lemma run_op_ordered o st st' :
  ordered_inv st -> run_op o st = Return st' -> ordered_inv st'.
Proof.
  destruct st as [self c]. intros [Hs Hle]. simpl in Hs, Hle.
  destruct o as [|dt|err]; simpl.
  - unfold wait_if_needed, throttle.
    pose proof (honor_retry_delay_now self c) as Hh.
    set (c1 := honor_retry_delay self (now c) c) in *.
    assert (Hk : StronglySorted Z.le (prune self (now c) ++ [now c])).
    { apply StronglySorted_snoc_le.
      - now apply StronglySorted_filter_le.
      - now apply Forall_filter_le. }
    assert (Hkept : forall ts, In ts (prune self (now c)) ->
                               now c - ts < per_minute self * 60).
    { intros ts Hin. apply List.filter_In in Hin as [_ H].
      now apply Z.ltb_lt in H. }
    assert (Hall : forall t, now c <= t ->
              Forall (fun ts => ts <= t) (prune self (now c) ++ [now c])).
    { intros t Ht. apply List.Forall_app. split.
      - apply (Forall_le_weaken _ (now c) t Ht). now apply Forall_filter_le.
      - repeat constructor. exact Ht. }
    destruct (max_requests self <=? _).
    + destruct (prune self (now c)) as [|oldest rest] eqn:Ek; [discriminate|].
      intros [= <-]. split; simpl; [exact Hk|].
      specialize (Hkept oldest (or_introl eq_refl)). apply Hall. lia.
    + intros [= <-]. split; simpl; [exact Hk|]. now apply Hall.
  - intros [= <-]. split; simpl; [exact Hs|].
    apply (Forall_le_weaken _ (now c)); [lia | exact Hle].
  - intros [= <-]. split; simpl; assumption.
Qed.

Lemma run_ordered ops : forall st st',
  ordered_inv st -> run ops st = Return st' -> ordered_inv st'.
Proof.
  induction ops as [|o ops IH]; intros st st' Hi; simpl.
  - now intros [= <-].
  - destruct (run_op o st) as [st1|e] eqn:E; [|discriminate].
    apply IH. exact (run_op_ordered o st st1 Hi E).
Qed.

(** X6. On a clock that does not go backwards the recorded timestamps
    stay in increasing order and none lies in the future, so the entry
    [request_timestamps[0]] the limiter waits for is the oldest one. *)
Theorem X6_timestamps_ordered (Q P t0 : Z) (ops : list op)
    (self : GeminiRateLimiter) (c : clock) :
  run ops (init Q P, Clock t0 []) = Return (self, c) ->
  StronglySorted Z.le (request_timestamps self)
  /\ Forall (fun ts => ts <= now c) (request_timestamps self)
  /\ forall oldest rest,
       request_timestamps self = oldest :: rest ->
       Forall (fun ts => oldest <= ts) rest.
Proof.
  intros Hrun.
  assert (H0 : ordered_inv (init Q P, Clock t0 [])).
  { split; simpl; constructor. }
  destruct (run_ordered ops _ _ H0 Hrun) as [Hs Hle]. simpl in Hs, Hle.
  repeat split; auto.
  intros oldest rest E. rewrite E in Hs.
  now apply StronglySorted_inv in Hs as [_ H].
Qed.

Lemma X6_timestamps_ordered_witness :
  StronglySorted Z.le [0; 1; 2].
Proof.
  exact (proj1 (X6_timestamps_ordered 2 1 0
                  [Acquire; Elapse 1; Acquire; Elapse 1; Acquire]
                  (Limiter 2 1 [0; 1; 2] 0 0) (Clock 60 [58]) eq_refl)).
Defined.

Lemma run_op_idle o ops st :
  idle_inv (o :: ops) st -> error_free (o :: ops) = true ->
  exists st', run_op o st = Return st' /\ idle_inv ops st'.
Proof.
  destruct st as [self c]. intros (Hroom & Hdead & Hslept) Hfree.
  simpl in Hroom, Hdead, Hslept.
  destruct o as [|dt|err]; simpl in *; [| |discriminate].
  - unfold wait_if_needed, honor_retry_delay, throttle.
    destruct (Z.ltb_spec (now c) (last_retry_time self + retry_delay self));
      [lia|].
    pose proof (filter_length_le
      (fun ts => now c - ts <? per_minute self * 60) (request_timestamps self))
      as Hlen.
    fold (prune self (now c)) in Hlen.
    destruct (Z.leb_spec (max_requests self)
                         (Z.of_nat (length (prune self (now c))))); [lia|].
    eexists. split; [reflexivity|]. repeat split; simpl; auto.
    rewrite List.length_app. simpl. lia.
  - eexists. split; [reflexivity|]. repeat split; simpl; auto; lia.
Qed.

Lemma run_idle ops : forall st,
  idle_inv ops st -> error_free ops = true ->
  exists st', run ops st = Return st' /\ idle_inv [] st'.
Proof.
  induction ops as [|o ops IH]; intros st Hi Hfree.
  - exists st. now split.
  - destruct (run_op_idle o ops st Hi Hfree) as (st1 & E & Hi1).
    simpl. rewrite E. apply IH; [exact Hi1|].
    destruct o; simpl in Hfree; [exact Hfree | exact Hfree | discriminate].
Qed.

(** X7. Starting from a fresh limiter at a non-negative clock reading,
    as long as no rate limit error is reported the first [Q] calls go
    through without any sleep: the limiter only delays a call once the
    quota is used up. *)
Theorem X7_no_sleep_below_quota (Q P t0 : Z) (ops : list op) :
  0 <= t0 -> error_free ops = true -> Z.of_nat (acquires ops) <= Q ->
  exists self c,
    run ops (init Q P, Clock t0 []) = Return (self, c) /\ slept c = [].
Proof.
  intros Ht Hfree Hq.
  assert (H0 : idle_inv ops (init Q P, Clock t0 [])).
  { repeat split; simpl; lia. }
  destruct (run_idle ops _ H0 Hfree) as ([self c] & E & (_ & _ & Hslept)).
  exists self, c. split; [exact E | exact Hslept].
Qed.

Lemma X7_no_sleep_below_quota_witness :
  exists self c,
    run [Acquire; Elapse 3; Acquire] (init 2 1, Clock 10 []) = Return (self, c)
    /\ slept c = [].
Proof.
  exact (X7_no_sleep_below_quota 2 1 10 [Acquire; Elapse 3; Acquire]
           ltac:(lia) eq_refl ltac:(simpl; lia)).
Defined.

Lemma calls_acquire {S : Type} (w : world (S:=S)) :
  calls (snd (acquire w)) = calls w.
Proof.
  unfold acquire. now destruct (wait_if_needed (limiter w) (clk w)) as [[r s] c].
Qed.

Lemma calls_invoke {S A : Type} (func : S -> outcome A * S * N) (w : world (S:=S)) :
  calls (snd (invoke func w)) = Datatypes.S (calls w).
Proof. unfold invoke. now destruct (func (app w)) as [[r s] dt]. Qed.

(** X8. The decorator invokes the decorated call at most twice, whatever
    the call and the limiter do; it invokes it twice only after a first
    invocation that raised a rate limit error, so the error of a retry is
    never retried. *)
Theorem X8_at_most_two_invocations {S A : Type}
    (func : S -> outcome A * S * N) (w : world (S:=S)) :
  (calls w <= calls (snd (wrapper func w)) <= calls w + 2)%nat
  /\ (calls (snd (wrapper func w)) = (calls w + 2)%nat ->
      exists w1 e w2,
        acquire w = (Return tt, w1)
        /\ invoke func w1 = (Raise e, w2)
        /\ is_rate_limit_error e = true
        /\ wrapper func w
           = invoke func
               (snd (acquire (World (handle_rate_limit_error (limiter w2) e (clk w2))
                                    (clk w2) (calls w2) (app w2))))).
Proof.
  unfold wrapper.
  pose proof (calls_acquire w) as Ha.
  destruct (acquire w) as [[[]|e] w1] eqn:E1; simpl in Ha.
  - pose proof (calls_invoke func w1) as Hi.
    destruct (invoke func w1) as [[a|e] w2] eqn:E2; simpl in Hi.
    + simpl. split; [lia|]. intros H. lia.
    + unfold on_exception. destruct (is_rate_limit_error e) eqn:Er.
      * set (w3 := World (handle_rate_limit_error (limiter w2) e (clk w2))
                         (clk w2) (calls w2) (app w2)).
        pose proof (calls_acquire w3) as Ha3.
        destruct (acquire w3) as [[[]|e'] w4] eqn:E3; simpl in Ha3.
        -- pose proof (calls_invoke func w4) as Hi4. split.
           ++ change (calls w3) with (calls w2) in Ha3. lia.
           ++ intros _. exists w1, e, w2. repeat split; try reflexivity; auto.
              fold w3. now rewrite E3.
        -- simpl. change (calls w3) with (calls w2) in Ha3.
           split; [lia|]. intros H. lia.
      * simpl. split; [lia|]. intros H. lia.
  - unfold on_exception. destruct (is_rate_limit_error e) eqn:Er.
    + set (w3 := World (handle_rate_limit_error (limiter w1) e (clk w1))
                       (clk w1) (calls w1) (app w1)).
      pose proof (calls_acquire w3) as Ha3.
      change (calls w3) with (calls w1) in Ha3.
      destruct (acquire w3) as [[[]|e'] w4] eqn:E3; simpl in Ha3.
      * pose proof (calls_invoke func w4) as Hi4. split; [lia|].
        intros H. lia.
      * simpl. split; [lia|]. intros H. lia.
    + simpl. split; [lia|]. intros H. lia.
Qed.

End TrafficFacts.

(** ** More facts about the page cache *)

Section CacheMore.
Import Py Site Cache.

(** The body never replaces a page it already holds, and requests at most
    the URL it is called with. *)
Lemma extract_body_keeps net url st :
  (forall u d, website_content_cache st !! u = Some d ->
               website_content_cache (snd (extract_body net url st)) !! u = Some d)
  /\ (fetched (snd (extract_body net url st)) = fetched st
      \/ (website_content_cache st !! url = None
          /\ fetched (snd (extract_body net url st)) = (fetched st ++ [url])%list)).
Proof.
  unfold extract_body.
  destruct (website_content_cache st !! url) as [d0|] eqn:E; simpl.
  - split; auto.
  - destruct (net url) as [sig|e]; simpl; (split; [|right; auto]).
    + intros u d Hu. destruct (decide (u = url)) as [->|Hne]; [congruence|].
      now rewrite lookup_insert_ne by congruence.
    + auto.
Qed.

Lemma do_call_keeps c s :
  (forall k, is_Some (cache s !! k) -> is_Some (cache (snd (do_call c s)) !! k))
  /\ (forall u d, website_content_cache (inner s) !! u = Some d ->
        website_content_cache (inner (snd (do_call c s))) !! u = Some d)
  /\ (fetched (inner (snd (do_call c s))) = fetched (inner s)
      \/ (website_content_cache (inner s) !! call_url c = None
          /\ fetched (inner (snd (do_call c s)))
             = (fetched (inner s) ++ [call_url c])%list)).
Proof.
  unfold do_call.
  destruct (hit_or_miss (call_t_check c) (call_url c) s)
    as [(r & ts & E & Hlt) | Hm].
  - rewrite (extract_hit _ _ _ _ _ _ _ E Hlt). simpl. auto.
  - rewrite (extract_miss _ _ _ _ _ Hm). simpl.
    destruct (extract_body_keeps (call_net c) (call_url c) (inner s)) as [Hw Hf].
    split; [|split; assumption].
    intros k Hk. destruct (decide (k = cache_key (call_url c))) as [->|Hne].
    + rewrite lookup_insert_eq. eauto.
    + now rewrite lookup_insert_ne by congruence.
Qed.

(** A call for a URL whose page is held returns that page and requests
    nothing. *)
Lemma held_page_returned net t t' url s d :
  consistent s -> website_content_cache (inner s) !! url = Some d ->
  fst (extract_website_content net t t' url s) = (Signals d, true)
  /\ fetched (inner (snd (extract_website_content net t t' url s)))
     = fetched (inner s).
Proof.
  intros Hc Hd.
  destruct (hit_or_miss t url s) as [(r & ts & E & Hlt) | Hm].
  - rewrite (extract_hit _ _ _ _ _ _ _ E Hlt). simpl. split; [|reflexivity].
    destruct (Hc url r ts E) as [Hs Hf]. destruct r as [p []].
    + destruct (Hs eq_refl) as (d' & -> & Hd'). congruence.
    + destruct (Hf eq_refl) as [_ Hnone]. congruence.
  - rewrite (extract_miss _ _ _ _ _ Hm). simpl. unfold extract_body.
    now rewrite Hd.
Qed.

Lemma after_held later : forall s url d,
  consistent s -> website_content_cache (inner s) !! url = Some d ->
  consistent (after later s)
  /\ website_content_cache (inner (after later s)) !! url = Some d
  /\ exists added,
       fetched (inner (after later s)) = (fetched (inner s) ++ added)%list
       /\ url ∉ added.
Proof.
  induction later as [|c later IH]; intros s url d Hc Hd; simpl.
  - split; [exact Hc|]. split; [exact Hd|]. exists []. rewrite app_nil_r.
    split; [reflexivity | apply not_elem_of_nil].
  - destruct (do_call_keeps c s) as (_ & Hw & Hf).
    destruct (IH (snd (do_call c s)) url d (consistent_call c s Hc) (Hw url d Hd))
      as (Hc' & Hd' & added & Hadd & Hnot).
    split; [exact Hc'|]. split; [exact Hd'|].
    destruct Hf as [Hf | [Hnone Hf]]; rewrite Hf in Hadd.
    + exists added. auto.
    + exists (call_url c :: added). rewrite <- app_assoc in Hadd.
      split; [exact Hadd|]. intros Hin. apply elem_of_cons in Hin as [->|Hin].
      * congruence.
      * contradiction.
Qed.

(** X9. Once a call for a URL has succeeded, the URL is never requested
    from the network again, however many calls follow and however late:
    [website_content_cache] has no expiry, so every later call for that
    URL returns the page of the first success. *)
Theorem X9_page_fetched_once (history later : list call)
    (net1 : network) (t1 t1' : Z) (url : string) :
  let first :=
    extract_website_content net1 t1 t1' url (after history empty_state) in
  let s := after later (snd first) in
  snd (fst first) = true ->
  (exists added,
     fetched (inner s) = (fetched (inner (snd first)) ++ added)%list
     /\ url ∉ added)
  /\ forall (net2 : network) (t2 t2' : Z),
       fst (extract_website_content net2 t2 t2' url s) = fst first
       /\ fetched (inner (snd (extract_website_content net2 t2 t2' url s)))
          = fetched (inner s).
Proof.
  intros first s Hok.
  assert (Hc1 : consistent (snd first)).
  { apply (consistent_call (Call net1 t1 t1' url)).
    apply consistent_after, consistent_empty. }
  destruct (extract_stored net1 t1 t1' url (after history empty_state)
              (fst first) (snd first)) as [ts Ets]; [apply surjective_pairing|].
  destruct (Hc1 url (fst first) ts Ets) as [Hsucc _].
  destruct (Hsucc Hok) as (d & Er & Ed).
  destruct (after_held later (snd first) url d Hc1 Ed) as (Hc & Hd & Hadd).
  split; [exact Hadd|]. intros net2 t2 t2'. rewrite Er.
  apply held_page_returned; assumption.
Qed.

Lemma X9_page_fetched_once_witness :
  fst (extract_website_content net_down 5000 5001 "http://a.com"
         (after [Call net_down 700 701 "http://b.com"]
                (snd (extract_website_content net_up 0 1 "http://a.com"
                        empty_state))))
  = fst (extract_website_content net_up 0 1 "http://a.com" empty_state).
Proof.
  exact (proj1 (proj2 (X9_page_fetched_once [] [Call net_down 700 701 "http://b.com"]
                         net_up 0 1 "http://a.com" eq_refl)
                  net_down 5000 5001)).
Defined.

(** X10. Nothing is ever evicted: through any sequence of calls every key
    of the decorator's dictionary stays, every page of
    [website_content_cache] stays as it is, and the list of requested
    URLs only grows. *)
Theorem X10_no_eviction (history : list call) (s : state) :
  (forall k, is_Some (cache s !! k) -> is_Some (cache (after history s) !! k))
  /\ (forall u d, website_content_cache (inner s) !! u = Some d ->
        website_content_cache (inner (after history s)) !! u = Some d)
  /\ (exists added,
        fetched (inner (after history s)) = (fetched (inner s) ++ added)%list
        /\ (length added <= length history)%nat).
Proof.
  revert s. induction history as [|c history IH]; intros s; simpl.
  - split; [auto|]. split; [auto|]. exists []. rewrite app_nil_r. auto.
  - destruct (do_call_keeps c s) as (Hk & Hw & Hf).
    destruct (IH (snd (do_call c s))) as (Hk' & Hw' & added & Hadd & Hlen).
    split; [auto|]. split; [auto|].
    destruct Hf as [Hf | [_ Hf]]; rewrite Hf in Hadd.
    + exists added. split; [exact Hadd | lia].
    + exists (call_url c :: added). rewrite <- app_assoc in Hadd.
      split; [exact Hadd | simpl; lia].
Qed.

End CacheMore.

(** ** More facts about [is_large_dimension] *)

Section DimensionMore.
Import PyStr Dimension.

Ltac numeric_absent :=
  let c := fresh "c" in let H := fresh "H" in
  intros c H; apply numeric_char_facts in H; tauto.

Lemma fraction_not_isdigit n f :
  wf_decimal n -> frac_part n = Some f -> isdigit (decimal_text n) = false.
Proof.
  intros _ Hf. unfold decimal_text. rewrite Hf.
  now apply isdigit_unit.
Qed.

(** X11. A pixel value written with a decimal point is never large,
    whatever its magnitude: after "px" is taken away the rest has to be
    made of digits only. *)
Theorem X11_fractional_pixels_not_large (n : decimal) (f : string) :
  wf_decimal n -> frac_part n = Some f ->
  is_large (decimal_text n +:+ "px") = false.
Proof.
  intros Hwf Hf. destruct (decimal_text_head n Hwf) as (c & s & E & Hc).
  assert (E' : decimal_text n +:+ "px" = String c (s +:+ "px")) by now rewrite E.
  rewrite E', is_large_nonempty, <- E'. unfold classify_dimension.
  rewrite (isdigit_unit (decimal_text n) "p" "x" eq_refl).
  rewrite contains_absent
    by (apply numeral_unit_without; [numeric_absent | exact Hwf | reflexivity]).
  rewrite (lower_numeral n "px" Hwf eq_refl), contains_end.
  rewrite replace_unit by (apply numeral_without; [numeric_absent | exact Hwf]).
  now rewrite (fraction_not_isdigit n f Hwf Hf).
Qed.

Lemma X11_fractional_pixels_not_large_witness :
  is_large (decimal_text (Decimal "1300" (Some "5")) +:+ "px") = false.
Proof.
  exact (X11_fractional_pixels_not_large (Decimal "1300" (Some "5")) "5"
           (conj eq_refl eq_refl) eq_refl).
Defined.

(** X12. Letter case of the unit: "PX" is read like "px", since the pixel
    rule works on the lower-cased value, so digits followed by "PX" are
    large exactly when they are at most 4300, the most [int] reads, and
    their number exceeds 1200; but a numeral followed by "EM", "REM", "VW"
    or "VH" is never large, since the thresholds of the relative units
    are chosen on the value as written. *)
Theorem X12_upper_case_units (d : string) (n : decimal) (u : string) :
  isdigit d = true -> wf_decimal n ->
  u = "EM" \/ u = "REM" \/ u = "VW" \/ u = "VH" ->
  is_large (d +:+ "PX")
  = (Z.of_nat (String.length d) <=? int_max_str_digits)
    && (1200 <? int_of_digits d)
  /\ is_large (decimal_text n +:+ u) = false.
Proof.
  intros Hd Hwf Hu. split.
  - pose proof (isdigit_all d Hd) as Hall.
    assert (Hnum : all_chars numeric_char d = true)
      by (eapply all_chars_impl; [apply is_digit_numeric | exact Hall]).
    assert (Hne : exists c s, d +:+ "PX" = String c s)
      by (destruct d; [discriminate | simpl; eauto]).
    destruct Hne as (c & s & E). rewrite E, is_large_nonempty, <- E.
    unfold classify_dimension.
    rewrite (isdigit_unit d "P" "X" eq_refl).
    rewrite contains_absent
      by (rewrite mem_char_app, (mem_char_absent numeric_char "%" d);
          [reflexivity | numeric_absent | exact Hnum]).
    rewrite lower_app, (all_numeric_lower d Hnum).
    change (lower "PX") with "px". rewrite contains_end.
    rewrite replace_unit
      by (apply (mem_char_absent numeric_char); [numeric_absent | exact Hnum]).
    rewrite Hd. apply int_gt_value.
  - destruct (decimal_text_head n Hwf) as (c & s & E & Hc).
    assert (E' : decimal_text n +:+ u = String c (s +:+ u)) by now rewrite E.
    rewrite E', is_large_nonempty, <- E'. unfold classify_dimension.
    assert (Hnd : isdigit (decimal_text n +:+ u) = false).
    { destruct Hu as [-> | [-> | [-> | ->]]]; now apply isdigit_unit. }
    assert (Habsent : forall a,
              (forall c, numeric_char c = true -> Ascii.eqb c a = false) ->
              mem_char a u = false ->
              forall sub, contains (String a sub) (decimal_text n +:+ u) = false).
    { intros a Ha Hau sub. apply contains_absent.
      now apply numeral_unit_without. }
    assert (Hpc : contains "%" (decimal_text n +:+ u) = false).
    { apply Habsent; [numeric_absent|].
      destruct Hu as [-> | [-> | [-> | ->]]]; reflexivity. }
    assert (Hlow : lower (decimal_text n +:+ u) = decimal_text n +:+ lower u).
    { rewrite lower_app.
      now rewrite (all_numeric_lower _ (decimal_text_numeric n Hwf)). }
    assert (Hpx : contains "px" (decimal_text n +:+ lower u) = false).
    { apply contains_absent. rewrite mem_char_app.
      rewrite (numeral_without "p" n) by (numeric_absent || exact Hwf).
      destruct Hu as [-> | [-> | [-> | ->]]]; reflexivity. }
    assert (Hunit : contains "em" (decimal_text n +:+ lower u)
                    || contains "rem" (decimal_text n +:+ lower u)
                    || contains "vw" (decimal_text n +:+ lower u)
                    || contains "vh" (decimal_text n +:+ lower u) = true).
    { destruct Hu as [-> | [-> | [-> | ->]]];
        [change (lower "EM") with "em" | change (lower "REM") with "rem"
         | change (lower "VW") with "vw" | change (lower "VH") with "vh"].
      - now rewrite (contains_end "em").
      - assert (H : contains "em" (decimal_text n +:+ "rem") = true).
        { change (decimal_text n +:+ "rem")
            with (decimal_text n +:+ ("r" +:+ "em" +:+ EmptyString)).
          rewrite <- append_assoc. apply contains_suffix. }
        now rewrite H.
      - rewrite (contains_end "vw"). now rewrite !orb_true_r.
      - rewrite (contains_end "vh"). now rewrite !orb_true_r. }
    assert (Hf : filter_chars numeric_char (decimal_text n +:+ u) = decimal_text n).
    { apply filter_numeral; [exact Hwf|].
      destruct Hu as [-> | [-> | [-> | ->]]]; reflexivity. }
    assert (Hem : contains "em" (decimal_text n +:+ u) = false).
    { apply Habsent; [numeric_absent|].
      destruct Hu as [-> | [-> | [-> | ->]]]; reflexivity. }
    assert (Hrem : contains "rem" (decimal_text n +:+ u) = false).
    { apply Habsent; [numeric_absent|].
      destruct Hu as [-> | [-> | [-> | ->]]]; reflexivity. }
    assert (Hvw : contains "vw" (decimal_text n +:+ u) = false).
    { apply Habsent; [numeric_absent|].
      destruct Hu as [-> | [-> | [-> | ->]]]; reflexivity. }
    assert (Hvh : contains "vh" (decimal_text n +:+ u) = false).
    { apply Habsent; [numeric_absent|].
      destruct Hu as [-> | [-> | [-> | ->]]]; reflexivity. }
    rewrite Hnd, Hpc, Hlow, Hpx, Hunit, Hf, (py_float_decimal_text n Hwf).
    now rewrite Hem, Hrem, Hvw, Hvh.
Qed.

Lemma X12_upper_case_units_witness :
  is_large ("1300" +:+ "PX")
  = (Z.of_nat (String.length "1300") <=? int_max_str_digits)
    && (1200 <? int_of_digits "1300")
  /\ is_large (decimal_text (Decimal "12" None) +:+ "EM") = false.
Proof.
  exact (X12_upper_case_units "1300" (Decimal "12" None) "EM" eq_refl
           (conj eq_refl I) (or_introl eq_refl)).
Defined.

End DimensionMore.

(** ** More facts about the health score *)

Section ScoreMore.
Import Score.



End ScoreMore.

(** ** More facts about the analysis *)

Section ReportMore.
Import Py Json Site Score Report.

Lemma dict_get_set_eq key v d : dict_get key (dict_set key v d) = Some v.
Proof.
  induction d as [|[k w] d IH]; simpl.
  - now rewrite String.eqb_refl.
  - destruct (String.eqb k key) eqn:E; simpl; rewrite E; [reflexivity | exact IH].
Qed.

Lemma dict_get_set_ne key key' v d :
  key' <> key -> dict_get key' (dict_set key v d) = dict_get key' d.
Proof.
  intros Hne. induction d as [|[k w] d IH]; simpl.
  - destruct (String.eqb key key') eqn:E; [|reflexivity].
    apply String.eqb_eq in E. congruence.
  - destruct (String.eqb k key) eqn:E; simpl.
    + apply String.eqb_eq in E. subst k.
      destruct (String.eqb key key') eqn:E'; [|reflexivity].
      apply String.eqb_eq in E'. congruence.
    + destruct (String.eqb k key'); [reflexivity | exact IH].
Qed.

(** X14. [analyze_website] touches the caller's session only: the other
    sessions stay as they are; with the flag [False] nothing is stored and
    the report is the default one; with the flag [True] the session was
    known and now holds the returned report, its other fields unchanged. *)
Theorem X14_analysis_is_local
    (json_loads : string -> decoded)
    (calculate_health_score_float : string -> bool -> Z -> json)
    (reply : model_reply) (website_data : website_data) (session_id : string)
    (session_data : gmap string session) :
  let res := analyze_website json_loads calculate_health_score_float reply
                             website_data session_id session_data in
  (forall s_id, s_id <> session_id -> snd res !! s_id = session_data !! s_id)
  /\ (snd (fst res) = false ->
      snd res = session_data /\ fst (fst res) = create_default_response)
  /\ (snd (fst res) = true ->
      exists s, session_data !! session_id = Some s
                /\ snd res !! session_id
                   = Some (Session (timestamp s) (session_url s)
                                   (session_website_data s)
                                   (Some (fst (fst res))))).
Proof.
  intros res. subst res.
  destruct (analyze_website_cases json_loads calculate_health_score_float
              reply website_data session_id session_data)
    as [-> | (r & s & Hs & ->)]; simpl.
  - split; [auto|]. split; [auto | discriminate].
  - split; [|split; [discriminate|]].
    + intros s_id Hne. now rewrite lookup_insert_ne by congruence.
    + intros _. exists s. split; [exact Hs|]. now rewrite lookup_insert_eq.
Qed.

(** X15. A reply that decodes to something else than an object with a
    score: [null], a boolean or a number make the analysis fail with the
    default report; an array or a string is returned as it is, with the
    flag [True], unless it holds "overall_score", in which case the
    analysis fails; an object without "overall_score" is returned as it
    is, without a health score. *)
Theorem X15_replies_without_score
    (json_loads : string -> decoded)
    (calculate_health_score_float : string -> bool -> Z -> json)
    (text : string) (v : json) (website_data : website_data)
    (session_id : string) (session_data : gmap string session) (s : session) :
  text <> EmptyString -> json_loads text = Decoded v ->
  session_data !! session_id = Some s ->
  let res := analyze_website json_loads calculate_health_score_float
                             (ReplyText (Str text)) website_data session_id
                             session_data in
  let failed := res = ((create_default_response, false), session_data) in
  let passed :=
    res = ((v, true), <[session_id := set_analysis s v]> session_data) in
  match v with
  | JNull | JBool _ | JInt _ | JFloat _ => failed
  | JArr items =>
      if existsb (fun x => match x with
                           | JStr t => String.eqb t "overall_score"
                           | _ => false
                           end) items
      then failed else passed
  | JStr t => if PyStr.contains "overall_score" t then failed else passed
  | JObj members =>
      dict_get "overall_score" members = None -> passed
  end.
Proof.
  intros Hne Hv Hs res failed passed. subst res failed passed.
  unfold analyze_website, analyze_try, parse_json_from_response.
  destruct text as [|c t]; [congruence|]. rewrite Hv.
  unfold add_health_score.
  destruct v as [|b|z|lit|t'|items|members]; simpl; try reflexivity.
  - destruct (PyStr.contains "overall_score" t'); [reflexivity|]. now rewrite Hs.
  - destruct (existsb _ items); [reflexivity|]. now rewrite Hs.
  - intros Hnone. rewrite Hnone. now rewrite Hs.
Qed.

Lemma X15_replies_without_score_witness :
  analyze_website json_loads_ref no_float_score (ReplyText (Str "65"))
                  sample_site "session-1" sample_sessions
  = ((create_default_response, false), sample_sessions).
Proof.
  exact (X15_replies_without_score json_loads_ref no_float_score "65" (JInt 65)
           sample_site "session-1" sample_sessions
           (Session (Some 0) (Some "https://example.com") None None)
           ltac:(discriminate) eq_refl eq_refl).
Defined.

(** X16. For a reply that decodes to an object with an integer
    "overall_score" and a known session, the report returned is that
    object with its "health_score" set to the health score computed from
    the score: the "overall_score" itself stays the raw score of the
    model, a "health_score" sent by the model is replaced, and every
    other member is kept. *)
Theorem X16_raw_score_kept
    (json_loads : string -> decoded)
    (calculate_health_score_float : string -> bool -> Z -> json)
    (text : string) (members : list (string * json)) (score : Z)
    (website_data : website_data) (session_id : string)
    (session_data : gmap string session) (s : session) :
  text <> EmptyString -> json_loads text = Decoded (JObj members) ->
  dict_get "overall_score" members = Some (JInt score) ->
  session_data !! session_id = Some s ->
  let h := health_json
             (calculate_health_score score
                (is_reputable_domain (signals website_data))
                (optimization_indicators website_data)) in
  exists members',
    fst (analyze_website json_loads calculate_health_score_float
                         (ReplyText (Str text)) website_data session_id
                         session_data)
    = (JObj members', true)
    /\ dict_get "overall_score" members' = Some (JInt score)
    /\ dict_get "health_score" members' = Some h
    /\ forall key, key <> "health_score" ->
         dict_get key members' = dict_get key members.
Proof.
  intros Hne Hv Hscore Hs h.
  exists (dict_set "health_score" h members).
  split; [|split; [|split]].
  - unfold analyze_website, analyze_try, parse_json_from_response.
    destruct text as [|c t]; [congruence|]. rewrite Hv.
    unfold add_health_score. simpl. rewrite Hscore. simpl. now rewrite Hs.
  - rewrite dict_get_set_ne by discriminate. exact Hscore.
  - apply dict_get_set_eq.
  - intros key Hkey. now apply dict_get_set_ne.
Qed.

Lemma X16_raw_score_kept_witness :
  exists members',
    fst (analyze_website json_loads_ref no_float_score
                         (ReplyText (Str object_text)) sample_site "session-1"
                         sample_sessions)
    = (JObj members', true)
    /\ dict_get "overall_score" members' = Some (JInt 90)
    /\ dict_get "health_score" members'
       = Some (health_json
                 (calculate_health_score 90
                    (is_reputable_domain (signals sample_site))
                    (optimization_indicators sample_site)))
    /\ forall key, key <> "health_score" ->
         dict_get key members'
         = dict_get key [("overall_score", JInt 90); ("issues", JArr [])].
Proof.
  exact (X16_raw_score_kept json_loads_ref no_float_score object_text
           [("overall_score", JInt 90); ("issues", JArr [])] 90
           sample_site "session-1" sample_sessions
           (Session (Some 0) (Some "https://example.com") None None)
           ltac:(discriminate) eq_refl eq_refl eq_refl).
Defined.

End ReportMore.

(** ** Facts about the text report *)

Section FormatFacts.
Import Py PyStr Json Site Score Report Format.

Variable py_str : json -> string.
Variable calculate_health_score_float : string -> bool -> Z -> json.

(** The loop only appends to the text it starts from. *)
Lemma add_issues_appends issues : forall i response_text t,
  add_issues py_str i issues response_text = Return t ->
  exists blocks, t = response_text +:+ blocks.
Proof.
  induction issues as [|issue rest IH]; intros i response_text t H.
  - injection H as <-. exists EmptyString. now rewrite append_nil_r.
  - simpl in H. destruct (issue_text py_str i issue) as [b|e]; [|discriminate].
    apply IH in H as [blocks ->]. exists (b +:+ blocks).
    now rewrite append_assoc.
Qed.

(** An entry that is not a dictionary stops the loop with an exception,
    wherever it stands. *)
Lemma add_issues_raises issues : forall i response_text,
  (exists issue, In issue issues /\ forall d, issue <> JObj d) ->
  exists e, add_issues py_str i issues response_text = Raise e.
Proof.
  induction issues as [|x rest IH]; intros i response_text (issue & Hin & Hno).
  - destruct Hin.
  - simpl. destruct x as [| | | | |items|d];
      try (eexists; reflexivity).
    destruct Hin as [E|Hin]; [exfalso; apply (Hno d); now rewrite E|].
    simpl. apply IH. now exists issue.
Qed.

(** X17. Whatever the analysis data, [format_response] returns a text
    that begins with the two title lines naming the URL as given.  The
    text is one of the two fixed error reports, or it continues with the
    score line, and then the analysis data is a dictionary that holds the
    score printed and a key [issues]. *)
Theorem X17_report_shapes (url : string) (analysis_data : json) :
  let response_text :=
    format_response py_str calculate_health_score_float url analysis_data in
  (exists rest, response_text = report_title url +:+ rest)
  /\ (response_text = incomplete_report url
      \/ response_text = failed_report url
      \/ exists d overall_score issues rest,
           analysis_data = JObj d
           /\ dict_get "overall_score" d = Some overall_score
           /\ dict_get "issues" d = Some issues
           /\ response_text
              = report_title url +:+ "OVERALL UX HEALTH SCORE: "
                +:+ format_value py_str overall_score +:+ "/100" +:+ nl +:+ rest).
Proof.
  intros response_text.
  assert (Hshape :
    response_text = incomplete_report url
    \/ response_text = failed_report url
    \/ exists d overall_score issues rest,
         analysis_data = JObj d
         /\ dict_get "overall_score" d = Some overall_score
         /\ dict_get "issues" d = Some issues
         /\ response_text
            = report_title url +:+ "OVERALL UX HEALTH SCORE: "
              +:+ format_value py_str overall_score +:+ "/100" +:+ nl +:+ rest).
  { subst response_text. unfold format_response, format_try.
    destruct analysis_data as [| | | | | |d]; auto.
    destruct (dict_get "overall_score" d) as [overall_score|] eqn:Es; auto.
    destruct (dict_get "issues" d) as [issues|] eqn:Ei; auto.
    destruct (health_of _ overall_score false 0) as [computed|]; auto.
    destruct (subscript _ "category") as [category|]; auto.
    destruct (subscript _ "description") as [description|]; auto.
    destruct (iterate issues) as [items|]; auto.
    destruct (add_issues py_str 1 items _) as [t|] eqn:Et; auto.
    apply add_issues_appends in Et as [blocks ->].
    right. right. exists d, overall_score, issues. eexists.
    split; [reflexivity|]. split; [exact Es|]. split; [exact Ei|].
    rewrite !append_assoc. reflexivity. }
  split; [|exact Hshape].
  destruct Hshape as [-> | [-> | (d & s & i & rest & _ & _ & _ & ->)]];
    eexists; unfold incomplete_report, failed_report;
    rewrite ?append_assoc; reflexivity.
Qed.

(** X18. The report is all or nothing: when the list of issues holds one
    entry that is not a dictionary, wherever it stands, the whole report
    is replaced by the formatting error report, and the entries before it
    are lost with it. *)
Theorem X18_one_bad_issue_spoils_the_report
    (url : string) (d : list (string * json)) (overall_score : json)
    (items : list json) :
  dict_get "overall_score" d = Some overall_score ->
  dict_get "issues" d = Some (JArr items) ->
  (exists issue, In issue items /\ forall m, issue <> JObj m) ->
  format_response py_str calculate_health_score_float url (JObj d)
  = failed_report url.
Proof.
  intros Hs Hi Hbad.
  unfold format_response, format_try.
  rewrite Hs, Hi.
  destruct (health_of _ overall_score false 0) as [computed|]; auto.
  destruct (subscript _ "category") as [category|]; auto.
  destruct (subscript _ "description") as [description|]; auto.
  simpl iterate. cbv iota.
  match goal with
  | |- context [add_issues py_str 1 items ?t] =>
      destruct (add_issues_raises items 1 t Hbad) as [e He]
  end.
  now rewrite He.
Qed.

(** X19. The health score is computed from the overall score before the
    key [health_score] is looked up: analysis data whose overall score is
    not a number give the formatting error report even when they carry a
    health score of their own. *)
Theorem X19_score_must_be_a_number
    (url : string) (d : list (string * json)) (overall_score issues : json) :
  dict_get "overall_score" d = Some overall_score ->
  dict_get "issues" d = Some issues ->
  match overall_score with
  | JInt _ | JBool _ | JFloat _ => False
  | _ => True
  end ->
  format_response py_str calculate_health_score_float url (JObj d)
  = failed_report url.
Proof.
  intros Hs Hi Hnum.
  unfold format_response, format_try.
  rewrite Hs, Hi.
  destruct overall_score; try destruct Hnum; reflexivity.
Qed.

(** X20. Analysis followed by formatting, as the text endpoint chains
    them: for a reply of the model in which nothing decodes and a known
    session, the text served is an ordinary report with the score 65, the
    tier of 65 after the bonuses of the site, and the single issue
    "Error Processing". *)
Theorem X20_unreadable_reply_as_text
    (json_loads : string -> decoded)
    (text url : string) (website_data : website_data) (session_id : string)
    (session_data : gmap string session) (s : session) :
  no_parsable_json json_loads text = true ->
  session_data !! session_id = Some s ->
  let h := calculate_health_score 65 (is_reputable_domain (signals website_data))
                                  (optimization_indicators website_data) in
  let '(analysis_data, success, _) :=
    analyze_website json_loads calculate_health_score_float
                    (ReplyText (Str text)) website_data session_id session_data in
  success = true
  /\ format_response py_str calculate_health_score_float url analysis_data
     = report_title url
       +:+ "OVERALL UX HEALTH SCORE: 65/100" +:+ nl
       +:+ "HEALTH ASSESSMENT: " +:+ category h +:+ " - " +:+ description h
       +:+ nl +:+ nl
       +:+ "KEY ISSUES AND RECOMMENDATIONS:" +:+ nl
       +:+ nl +:+ "1. Error Processing" +:+ nl
       +:+ "   Problem: We encountered an issue analyzing this website. Please try again."
       +:+ nl
       +:+ "   Impact: High" +:+ nl
       +:+ "   Solution: Refresh and retry the analysis." +:+ nl.
Proof.
  intros Hbad Hs h.
  unfold analyze_website, analyze_try.
  rewrite (parse_default json_loads text Hbad).
  rewrite add_health_score_default. rewrite Hs.
  split; [reflexivity|].
  fold h. generalize h. intros h'.
  unfold format_response, format_try.
  cbn -[String.append report_title nl category description].
  rewrite !append_assoc. reflexivity.
Qed.

End FormatFacts.

Section FormatSamples.
Import Py PyStr Json Site Score Report Format.

Lemma X18_one_bad_issue_spoils_the_report_witness :
  format_response no_str no_float_score "https://example.com"
    (JObj [("overall_score", JInt 80);
           ("issues", JArr [JObj [("category", JStr "Forms")]; JStr "Slow"])])
  = failed_report "https://example.com".
Proof.
  apply (X18_one_bad_issue_spoils_the_report no_str no_float_score
           "https://example.com" _ (JInt 80)
           [JObj [("category", JStr "Forms")]; JStr "Slow"]).
  - reflexivity.
  - reflexivity.
  - exists (JStr "Slow"). split; [right; left; reflexivity | discriminate].
Defined.

Lemma X19_score_must_be_a_number_witness :
  format_response no_str no_float_score "https://example.com"
    (JObj [("overall_score", JStr "80");
           ("health_score",
            JObj [("value", JInt 80); ("category", JStr "Good");
                  ("description", JStr "Solid.")]);
           ("issues", JArr [])])
  = failed_report "https://example.com".
Proof.
  apply (X19_score_must_be_a_number no_str no_float_score "https://example.com"
           _ (JStr "80") (JArr [])).
  - reflexivity.
  - reflexivity.
  - exact I.
Defined.

Lemma X20_unreadable_reply_as_text_witness :
  snd (fst (analyze_website json_loads_ref no_float_score
              (ReplyText (Str prose_reply)) sample_site "session-1"
              sample_sessions)) = true.
Proof.
  pose proof (X20_unreadable_reply_as_text no_str no_float_score json_loads_ref
                prose_reply "https://example.com" sample_site "session-1"
                sample_sessions
                (Session (Some 0) (Some "https://example.com") None None)
                eq_refl eq_refl) as H.
  destruct (analyze_website json_loads_ref no_float_score
              (ReplyText (Str prose_reply)) sample_site "session-1"
              sample_sessions) as [[a b] c].
  exact (proj1 H).
Defined.

End FormatSamples.

(** ** Facts about the home page and the chat endpoint *)

Section PageFacts.
Import Report Sessions.

(** X21. After the home page has been served, every session stored
    carries a time stamp at most 3600 seconds older than the sweep, and
    the visitor has a session; a visitor whose session had expired gets an
    empty one, without the URL, the site data and the analysis of the old
    one.  The sessions of other visitors are as the sweep leaves them. *)
Theorem X21_home_page_sessions (cookie : option string) (uuid4 : string)
    (now later : Z) (session_data : gmap string session) :
  now <= later ->
  let session_id := get_session_id cookie uuid4 in
  let session_data' := home cookie uuid4 now later session_data in
  (forall s_id data,
     session_data' !! s_id = Some data ->
     exists ts, timestamp data = Some ts /\ now - 3600 <= ts)
  /\ is_Some (session_data' !! session_id)
  /\ (forall data ts,
        session_data !! session_id = Some data ->
        timestamp data = Some ts -> ts < now - 3600 ->
        session_data' !! session_id = Some (Session (Some later) None None None))
  /\ (forall s_id,
        s_id <> session_id ->
        session_data' !! s_id = cleanup_old_sessions now session_data !! s_id).
Proof.
  intros Hclock session_id session_data'.
  subst session_data'. unfold home. fold session_id. unfold ensure_session.
  pose proof (cleanup_lookup now session_data) as Hc.
  assert (Hfresh : forall s_id data,
            cleanup_old_sessions now session_data !! s_id = Some data ->
            exists ts, timestamp data = Some ts /\ now - 3600 <= ts).
  { intros s_id data. rewrite Hc. unfold swept.
    destruct (session_data !! s_id) as [d|]; [|discriminate].
    destruct (timestamp d) as [ts|] eqn:Ets.
    - destruct (Z.ltb_spec ts (now - 3600)); [discriminate|].
      intros [= <-]. eauto.
    - intros [= <-]. exists now. simpl. split; [reflexivity | lia]. }
  destruct (cleanup_old_sessions now session_data !! session_id) as [s|] eqn:E.
  - split; [exact Hfresh|]. split; [rewrite E; eauto|]. split; [|reflexivity].
    intros data ts Hd Hts Hold. rewrite Hc in E. unfold swept in E.
    rewrite Hd, Hts in E.
    destruct (Z.ltb_spec ts (now - 3600)); [discriminate | lia].
  - split; [|split; [|split]].
    + intros s_id data. destruct (decide (s_id = session_id)) as [->|Hne].
      * rewrite lookup_insert_eq. intros [= <-]. exists later. simpl.
        split; [reflexivity | lia].
      * rewrite lookup_insert_ne by congruence. apply Hfresh.
    + rewrite lookup_insert_eq. eauto.
    + intros. now rewrite lookup_insert_eq.
    + intros s_id Hne. now rewrite lookup_insert_ne by congruence.
Qed.

Lemma X21_home_page_sessions_witness :
  home (Some "session-1") "fresh" 5000 5001 sample_sessions !! "session-1"
  = Some (Session (Some 5001) None None None).
Proof.
  apply (proj1 (proj2 (proj2 (X21_home_page_sessions (Some "session-1") "fresh"
                                5000 5001 sample_sessions ltac:(lia))))
           (Session (Some 0) (Some "https://example.com") None None) 0).
  - reflexivity.
  - reflexivity.
  - lia.
Defined.

End PageFacts.

Section ChatFacts.
Import Py PyStr Json Format Sessions Chat.

Variable py_str : json -> string.
Variable float_truth : string -> bool.



(** After its first message a conversation is not new. *)
Lemma running_conversation (history : list message) (msg : message) :
  history <> [] -> (length (history ++ [msg]) <=? 1)%nat = false.
Proof.
  intros H. destruct history; [congruence|]. rewrite List.length_app.
  apply Nat.leb_gt. simpl. lia.
Qed.

Lemma truth_text (m : string) : m <> EmptyString -> truth float_truth (JStr m) = true.
Proof. intros H. destruct m; [congruence | reflexivity]. Qed.

Lemma dict_get_truth (d : list (string * json)) key v :
  dict_get key d = Some v -> truth float_truth (JObj d) = true.
Proof. destruct d; [discriminate | reflexivity]. Qed.

Lemma any_in_word (words : list string) (w a b : string) :
  In (lower w) words -> any_in words (lower (a +:+ w +:+ b)) = true.
Proof.
  intros Hin. unfold any_in. apply existsb_exists. exists (lower w).
  split; [exact Hin|]. rewrite !lower_app. apply contains_suffix.
Qed.

(** X23. The first message of a conversation that contains [hi],
    [hello], [hey] or [greetings] anywhere, in any letter case and also
    inside a longer word, is answered with the fixed greeting: the model
    is not consulted, and the history then holds the message and the
    greeting. *)
Theorem X23_greeting_without_model (req : request) (uuid4 : string)
    (generate_content : string -> outcome string)
    (chat_histories : gmap string (list message))
    (d : list (string * json)) (a w b : string) :
  let session_id := get_session_id (cookie req) uuid4 in
  get_json req = Some (JObj d) ->
  dict_get "message" d = Some (JStr (a +:+ w +:+ b)) ->
  In (lower w) greetings ->
  default [] (chat_histories !! session_id) = [] ->
  chat_interaction py_str float_truth req uuid4 (Return tt) generate_content
                   chat_histories
  = (Response 200 (JObj [("response", JStr greeting_text)]) session_id,
     <[session_id := [Message user (JStr (a +:+ w +:+ b));
                      Message assistant (JStr greeting_text)]]> chat_histories,
     []).
Proof.
  intros session_id Hjson Hmsg Hw Hnew.
  assert (Hne : a +:+ w +:+ b <> EmptyString).
  { intros E. destruct a; [|discriminate]. destruct w; [|discriminate].
    simpl in Hw. unfold greetings in Hw. simpl in Hw.
    intuition discriminate. }
  unfold chat_interaction. fold session_id.
  rewrite Hjson, (dict_get_truth d _ _ Hmsg). simpl negb. cbv iota.
  rewrite Hmsg, (truth_text _ Hne). simpl negb. cbv iota.
  rewrite Hnew. unfold reply_text. simpl length. simpl Nat.leb. cbv iota.
  unfold lower_of. rewrite (any_in_word greetings w a b Hw).
  simpl. now rewrite insert_insert_eq.
Qed.

(** X24. A message that names an off-topic subject and no term of the
    trade, and that is not a greeting opening the conversation, is still
    sent to the model; the text the model returns is thrown away and the
    fixed redirection is answered and stored in its place, and when the
    model raises the request fails with status 500. *)
Theorem X24_off_topic_reply_discarded (req : request) (uuid4 : string)
    (generate_content : string -> outcome string)
    (chat_histories : gmap string (list message))
    (d : list (string * json)) (m : string) :
  let session_id := get_session_id (cookie req) uuid4 in
  let history :=
    (default [] (chat_histories !! session_id) ++ [Message user (JStr m)])%list in
  get_json req = Some (JObj d) ->
  dict_get "message" d = Some (JStr m) ->
  any_in off_topic_keywords (lower m) = true ->
  any_in cro_terms (lower m) = false ->
  default [] (chat_histories !! session_id) <> []
  \/ any_in greetings (lower m) = false ->
  chat_interaction py_str float_truth req uuid4 (Return tt) generate_content
                   chat_histories
  = match generate_content (conversation_history py_str history) with
    | Return _ =>
        (Response 200 (JObj [("response", JStr redirect_text)]) session_id,
         <[session_id :=
             (history ++ [Message assistant (JStr redirect_text)])%list]>
           chat_histories,
         [conversation_history py_str history])
    | Raise _ =>
        (Response 500 trouble session_id,
         <[session_id := history]> chat_histories,
         [conversation_history py_str history])
    end.
Proof.
  intros session_id history Hjson Hmsg Hoff Hcro Hgreet.
  assert (Hne : m <> EmptyString).
  { intros ->. discriminate Hoff. }
  unfold chat_interaction. fold session_id.
  rewrite Hjson, (dict_get_truth d _ _ Hmsg). simpl negb. cbv iota.
  rewrite Hmsg, (truth_text _ Hne). simpl negb. cbv iota.
  fold history. unfold reply_text, lower_of.
  assert (Hg : (if (length history <=? 1)%nat
                then Return (any_in greetings (lower m))
                else Return false) = Return false).
  { destruct Hgreet as [Hold | ->]; [|now destruct (_ <=? _)%nat].
    subst history. now rewrite running_conversation. }
  rewrite Hg. fold (conversation_history py_str history).
  destruct (generate_content (conversation_history py_str history)); [|reflexivity].
  rewrite Hoff, Hcro. simpl. now rewrite insert_insert_eq.
Qed.

Lemma last_messages_snoc (n : nat) (history : list message) (msg : message) :
  last_messages (S n) (history ++ [msg]) = (last_messages n history ++ [msg])%list.
Proof.
  unfold last_messages. rewrite List.length_app. simpl length.
  replace (length history + 1 - S n)%nat with (length history - n)%nat by lia.
  rewrite List.skipn_app.
  replace (length history - n - length history)%nat with 0%nat by lia.
  reflexivity.
Qed.

(** X25. In a running conversation the answer depends on the history only
    through its last four messages: two histories of the session that end
    with the same four messages give, for the same request, the same
    answer and the same conversation sent to the model. *)
Theorem X25_only_recent_messages_count (req : request) (uuid4 : string)
    (configured : outcome unit) (generate_content : string -> outcome string)
    (chat_histories1 chat_histories2 : gmap string (list message)) :
  let session_id := get_session_id (cookie req) uuid4 in
  let history1 := default [] (chat_histories1 !! session_id) in
  let history2 := default [] (chat_histories2 !! session_id) in
  history1 <> [] -> history2 <> [] ->
  last_messages 4 history1 = last_messages 4 history2 ->
  let result1 :=
    chat_interaction py_str float_truth req uuid4 configured generate_content
                     chat_histories1 in
  let result2 :=
    chat_interaction py_str float_truth req uuid4 configured generate_content
                     chat_histories2 in
  fst (fst result1) = fst (fst result2) /\ snd result1 = snd result2.
Proof.
  intros session_id history1 history2 H1 H2 Hlast result1 result2.
  subst result1 result2.
  unfold chat_interaction. fold session_id.
  destruct (get_json req) as [data|]; [|now split].
  destruct (truth float_truth data); simpl negb; cbv iota; [|now split].
  destruct data as [| | | | | |d]; try (now split).
  destruct (dict_get "message" d) as [user_message|]; [|now split].
  destruct (truth float_truth user_message); simpl negb; cbv iota; [|now split].
  fold history1 history2.
  assert (Hreply :
    reply_text py_str configured generate_content
               (history1 ++ [Message user user_message])%list user_message
    = reply_text py_str configured generate_content
                 (history2 ++ [Message user user_message])%list user_message).
  { unfold reply_text. destruct configured; [|reflexivity].
    rewrite !running_conversation by assumption.
    unfold conversation_history. rewrite !last_messages_snoc, Hlast.
    reflexivity. }
  rewrite Hreply. clear Hreply.
  destruct (reply_text _ _ _ _ _) as [[response_text|e] sent]; now split.
Qed.

(** X26. A message that is not a text, such as a number or a list, is
    stored in the history and the request then fails with status 500; in
    a running conversation the model is consulted before it does. *)
Theorem X26_message_must_be_text (req : request) (uuid4 : string)
    (generate_content : string -> outcome string)
    (chat_histories : gmap string (list message))
    (d : list (string * json)) (user_message : json) :
  let session_id := get_session_id (cookie req) uuid4 in
  let history :=
    (default [] (chat_histories !! session_id)
     ++ [Message user user_message])%list in
  get_json req = Some (JObj d) ->
  dict_get "message" d = Some user_message ->
  truth float_truth user_message = true ->
  (forall m, user_message <> JStr m) ->
  let '(answer, chat_histories', sent) :=
    chat_interaction py_str float_truth req uuid4 (Return tt) generate_content
                     chat_histories in
  answer = Response 500 trouble session_id
  /\ chat_histories' = <[session_id := history]> chat_histories
  /\ (default [] (chat_histories !! session_id) <> [] ->
      sent = [conversation_history py_str history]).
Proof.
  intros session_id history Hjson Hmsg Htrue Hnot.
  unfold chat_interaction. fold session_id.
  rewrite Hjson, (dict_get_truth d _ _ Hmsg). simpl negb. cbv iota.
  rewrite Hmsg, Htrue. simpl negb. cbv iota. fold history.
  assert (Hlow : lower_of user_message = Raise AttributeError).
  { destruct user_message; try reflexivity. now destruct (Hnot s). }
  unfold reply_text. rewrite Hlow.
  destruct (length history <=? 1)%nat eqn:Elen.
  - split; [reflexivity|]. split; [reflexivity|].
    intros Hold. subst history.
    rewrite running_conversation in Elen by assumption. discriminate.
  - fold (conversation_history py_str history).
    destruct (generate_content (conversation_history py_str history)); auto.
Qed.

End ChatFacts.

Section ChatSamples.
Import Py PyStr Json Format Sessions Chat.

Lemma X23_greeting_without_model_witness :
  fst (fst (chat_interaction no_str no_float
              (message_request None (JStr "Is this page too slow?"))
              "fresh" (Return tt) (model_says "Yes.") ∅))
  = Response 200 (JObj [("response", JStr greeting_text)]) "fresh".
Proof.
  rewrite (X23_greeting_without_model no_str no_float
             (message_request None (JStr "Is this page too slow?"))
             "fresh" (model_says "Yes.") ∅
             [("message", JStr "Is this page too slow?")]
             "Is t" "hi" "s page too slow?").
  - reflexivity.
  - reflexivity.
  - reflexivity.
  - left. reflexivity.
  - reflexivity.
Defined.

Lemma X24_off_topic_reply_discarded_witness :
  fst (fst (chat_interaction no_str no_float
              (message_request None (JStr "What is the weather in Paris?"))
              "fresh" (Return tt) (model_says "Sunny.") ∅))
  = Response 200 (JObj [("response", JStr redirect_text)]) "fresh".
Proof.
  rewrite (X24_off_topic_reply_discarded no_str no_float
             (message_request None (JStr "What is the weather in Paris?"))
             "fresh" (model_says "Sunny.") ∅
             [("message", JStr "What is the weather in Paris?")]
             "What is the weather in Paris?").
  - reflexivity.
  - reflexivity.
  - reflexivity.
  - reflexivity.
  - reflexivity.
  - right. reflexivity.
Defined.

Lemma X25_only_recent_messages_count_witness :
  snd (chat_interaction no_str no_float
         (message_request (Some "session-1") (JStr "And my buttons?"))
         "fresh" (Return tt) (model_says "Make them larger.") recent_exchange)
  = snd (chat_interaction no_str no_float
           (message_request (Some "session-1") (JStr "And my buttons?"))
           "fresh" (Return tt) (model_says "Make them larger.") long_exchange).
Proof.
  apply (X25_only_recent_messages_count no_str no_float
           (message_request (Some "session-1") (JStr "And my buttons?"))
           "fresh" (Return tt) (model_says "Make them larger.")
           recent_exchange
           long_exchange).
  - discriminate.
  - discriminate.
  - reflexivity.
Defined.

Lemma X26_message_must_be_text_witness :
  fst (fst (chat_interaction no_str no_float
              (message_request (Some "session-1") (JInt 5))
              "fresh" (Return tt) (model_says "Five.") one_exchange))
  = Response 500 trouble "session-1".
Proof.
  pose proof (X26_message_must_be_text no_str no_float
                (message_request (Some "session-1") (JInt 5))
                "fresh" (model_says "Five.") one_exchange
                [("message", JInt 5)] (JInt 5)
                eq_refl eq_refl eq_refl ltac:(discriminate)) as H.
  destruct (chat_interaction no_str no_float
              (message_request (Some "session-1") (JInt 5))
              "fresh" (Return tt) (model_says "Five.") one_exchange)
    as [[answer histories] sent].
  exact (proj1 H).
Defined.

End ChatSamples.
